(** * Mailbox / credential store: the MailboxDO durable object

    A shallow embedding of [packages/worker/src/durableObject/index.ts]
    (class [MailboxDO]) together with the platform primitives its methods
    call (binary strings, [btoa]/[atob], [String.prototype.split],
    [crypto.getRandomValues], [crypto.randomUUID], [Date.now]) and the rows
    of the embedded relational store.  Methods are computations in a small
    state-and-exception monad over the durable object's world. *)

From Stdlib Require Import ZArith List String Ascii Bool Lia Permutation.
Import ListNotations.
Open Scope string_scope.
Open Scope Z_scope.

(** ** JavaScript strings

    A JavaScript binary string (every code unit below 256) is a Rocq
    [string]: one [ascii] per code unit. *)
Module JS.

(** [s.charCodeAt(0)] on a one-character binary string. *)
Definition charCode (a : ascii) : Z := Z.of_N (N_of_ascii a).

(** [String.fromCharCode(n)] for [0 <= n < 256]. *)
Definition fromCharCode (n : Z) : ascii := ascii_of_N (Z.to_N n).

(** [!s] on a value that is a string or [undefined]. *)
Definition falsy (s : option string) : bool :=
  match s with
  | None => true
  | Some EmptyString => true
  | Some (String _ _) => false
  end.

(** [s.split(sep)] for a one-character separator: the pieces between the
    occurrences of [sep]; always at least one piece. *)
Fixpoint split (sep : ascii) (s : string) : list string :=
  match s with
  | EmptyString => [EmptyString]
  | String c rest =>
      if Ascii.eqb c sep then EmptyString :: split sep rest
      else match split sep rest with
           | [] => [String c EmptyString]
           | piece :: pieces => String c piece :: pieces
           end
  end.

(** [s.includes(sub)]. *)
Definition includes (s sub : string) : bool :=
  match String.index 0 sub s with
  | Some _ => true
  | None => false
  end.

(** Every character of [s] satisfies [p]. *)
Fixpoint all_chars (p : ascii -> bool) (s : string) : bool :=
  match s with
  | EmptyString => true
  | String c rest => p c && all_chars p rest
  end.

(** Keep the characters of [s] that satisfy [p]. *)
Fixpoint filter_chars (p : ascii -> bool) (s : string) : string :=
  match s with
  | EmptyString => EmptyString
  | String c rest =>
      if p c then String c (filter_chars p rest) else filter_chars p rest
  end.

(** The string [s] reversed onto [acc]. *)
Fixpoint rev_onto (s acc : string) : string :=
  match s with
  | EmptyString => acc
  | String c rest => rev_onto rest (String c acc)
  end.

Definition reverse (s : string) : string := rev_onto s EmptyString.

End JS.

(** ** Base64: [btoa] and [atob]

    [btoa] is RFC 4648 base64 with padding; [atob] is the forgiving-base64
    decoder of the platform: ASCII whitespace is dropped, up to two padding
    characters are removed from a string whose length is a multiple of four,
    and any other character outside the alphabet is an error
    ([InvalidCharacterError]). *)
Module Base64.

Definition alphabet : string :=
  "ABCDEFGHIJKLMNOPQRSTUVWXYZabcdefghijklmnopqrstuvwxyz0123456789+/".

Definition pad : ascii := "="%char.

(** The character of a sextet [0 <= d < 64]. *)
Definition digit_char (d : Z) : ascii :=
  match String.get (Z.to_nat d) alphabet with
  | Some c => c
  | None => "A"%char
  end.

Fixpoint position (c : ascii) (s : string) (i : Z) : option Z :=
  match s with
  | EmptyString => None
  | String x rest => if Ascii.eqb x c then Some i else position c rest (i + 1)
  end.

(** The sextet of an alphabet character. *)
Definition char_digit (c : ascii) : option Z := position c alphabet 0.

Definition is_alphabet (c : ascii) : bool :=
  match char_digit c with Some _ => true | None => false end.

(** The sextets, in order. *)
Definition sextets : list Z := map Z.of_nat (seq 0 64).

Definition group3 (a b c : ascii) : Z :=
  JS.charCode a * 65536 + JS.charCode b * 256 + JS.charCode c.

Definition zero : ascii := Ascii.zero.

Fixpoint btoa (s : string) : string :=
  match s with
  | EmptyString => EmptyString
  | String a EmptyString =>
      let n := group3 a zero zero in
      String (digit_char (n / 262144))
        (String (digit_char ((n / 4096) mod 64))
           (String pad (String pad EmptyString)))
  | String a (String b EmptyString) =>
      let n := group3 a b zero in
      String (digit_char (n / 262144))
        (String (digit_char ((n / 4096) mod 64))
           (String (digit_char ((n / 64) mod 64))
              (String pad EmptyString)))
  | String a (String b (String c rest)) =>
      let n := group3 a b c in
      String (digit_char (n / 262144))
        (String (digit_char ((n / 4096) mod 64))
           (String (digit_char ((n / 64) mod 64))
              (String (digit_char (n mod 64)) (btoa rest))))
  end.

Definition is_whitespace (c : ascii) : bool :=
  let n := JS.charCode c in
  (n =? 9) || (n =? 10) || (n =? 12) || (n =? 13) || (n =? 32).

(** Remove one or two trailing padding characters. *)
Definition strip_padding (s : string) : string :=
  match JS.reverse s with
  | String p1 (String p2 rest) =>
      if Ascii.eqb p1 pad then
        if Ascii.eqb p2 pad then JS.reverse rest
        else JS.reverse (String p2 rest)
      else s
  | String p1 EmptyString =>
      if Ascii.eqb p1 pad then EmptyString else s
  | EmptyString => s
  end.

(** Decode the sextets of a string of alphabet characters, four at a time;
    the bits left over in a final group of two or three are discarded. *)
Fixpoint decode_digits (s : string) : option string :=
  match s with
  | EmptyString => Some EmptyString
  | String _ EmptyString => None
  | String c1 (String c2 EmptyString) =>
      match char_digit c1, char_digit c2 with
      | Some d1, Some d2 =>
          let n := d1 * 64 + d2 in
          Some (String (JS.fromCharCode (n / 16)) EmptyString)
      | _, _ => None
      end
  | String c1 (String c2 (String c3 EmptyString)) =>
      match char_digit c1, char_digit c2, char_digit c3 with
      | Some d1, Some d2, Some d3 =>
          let n := ((d1 * 64 + d2) * 64 + d3) / 4 in
          Some (String (JS.fromCharCode (n / 256))
                  (String (JS.fromCharCode (n mod 256)) EmptyString))
      | _, _, _ => None
      end
  | String c1 (String c2 (String c3 (String c4 rest))) =>
      match char_digit c1, char_digit c2, char_digit c3, char_digit c4 with
      | Some d1, Some d2, Some d3, Some d4 =>
          let n := ((d1 * 64 + d2) * 64 + d3) * 64 + d4 in
          match decode_digits rest with
          | Some out =>
              Some (String (JS.fromCharCode (n / 65536))
                      (String (JS.fromCharCode ((n / 256) mod 256))
                         (String (JS.fromCharCode (n mod 256)) out)))
          | None => None
          end
      | _, _, _, _ => None
      end
  end.

(** The text of [btoa s] before its padding, and the padding. *)
Fixpoint unpadded (s : string) : string :=
  match s with
  | EmptyString => EmptyString
  | String a EmptyString =>
      let n := group3 a zero zero in
      String (digit_char (n / 262144))
        (String (digit_char ((n / 4096) mod 64)) EmptyString)
  | String a (String b EmptyString) =>
      let n := group3 a b zero in
      String (digit_char (n / 262144))
        (String (digit_char ((n / 4096) mod 64))
           (String (digit_char ((n / 64) mod 64)) EmptyString))
  | String a (String b (String c rest)) =>
      let n := group3 a b c in
      String (digit_char (n / 262144))
        (String (digit_char ((n / 4096) mod 64))
           (String (digit_char ((n / 64) mod 64))
              (String (digit_char (n mod 64)) (unpadded rest))))
  end.

Fixpoint padding (s : string) : string :=
  match s with
  | EmptyString => EmptyString
  | String _ EmptyString => String pad (String pad EmptyString)
  | String _ (String _ EmptyString) => String pad EmptyString
  | String _ (String _ (String _ rest)) => padding rest
  end.

(** [atob(s)]: [None] stands for the [InvalidCharacterError] exception. *)
Definition atob (s : string) : option string :=
  let data := JS.filter_chars (fun c => negb (is_whitespace c)) s in
  let data :=
    if (Z.of_nat (String.length data) mod 4 =? 0) then strip_padding data
    else data in
  decode_digits data.

End Base64.

(** ** Rows of the embedded relational store

    One record per table, with the column names the queries of
    [MailboxDO] use.  Integer columns are [Z]; a nullable text column is an
    [option string]. *)
Module Users.
Record row : Type := {
  id : string;
  email : string;
  password_hash : string;
  is_admin : Z;
  created_at : Z;
  updated_at : Z
}.
End Users.

Module Sessions.
Record row : Type := {
  id : string;
  user_id : string;
  expires_at : Z;
  created_at : Z
}.
End Sessions.

Module UserMailboxes.
Record row : Type := {
  user_id : string;
  mailbox_id : string;
  role : string
}.
End UserMailboxes.

Module Folders.
Record row : Type := {
  id : string;
  name : string;
  is_deletable : Z
}.
End Folders.

Module Emails.
Record row : Type := {
  id : string;
  subject : string;
  sender : string;
  recipient : string;
  date : string;
  body : string;
  read : Z;
  starred : Z;
  folder_id : string;
  in_reply_to : option string;
  email_references : option string;
  thread_id : option string
}.
End Emails.

Module Attachments.
Record row : Type := {
  id : string;
  email_id : string;
  filename : string;
  mimetype : string;
  size : Z;
  content_id : option string;
  disposition : option string
}.
End Attachments.

(** ** Values returned to callers ([types.ts] and the object literals of
    [index.ts]) *)
Module Session.
Record t : Type := {
  id : string;
  userId : string;
  email : string;
  isAdmin : bool;
  expiresAt : Z
}.
End Session.

Module User.
Record t : Type := {
  id : string;
  email : string;
  isAdmin : bool;
  createdAt : Z;
  updatedAt : Z
}.
End User.

Module MailboxRole.
Record t : Type := {
  mailboxId : string;
  role : string
}.
End MailboxRole.

(** The folder object [createFolder] returns: [{ ...newFolder, unreadCount: 0 }]. *)
Module Folder.
Record t : Type := {
  id : string;
  name : string;
  unreadCount : Z
}.
End Folder.

(** A row of [deleteEmail]'s result: the query selects [id] and [filename]. *)
Module AttachmentRef.
Record t : Type := {
  id : string;
  filename : string
}.
End AttachmentRef.

(** An element of [getEmails]'s result: the ten selected columns, with
    [read] and [starred] turned into booleans. *)
Module EmailSummary.
Record t : Type := {
  id : string;
  subject : string;
  sender : string;
  recipient : string;
  date : string;
  read : bool;
  starred : bool;
  in_reply_to : option string;
  email_references : option string;
  thread_id : option string
}.
End EmailSummary.

(** ** The durable object's world *)

Record AuthTables : Type := {
  users : list Users.row;
  sessions : list Sessions.row;
  user_mailboxes : list UserMailboxes.row
}.

Record MailboxTables : Type := {
  emails : list Emails.row;
  folders : list Folders.row;
  attachments : list Attachments.row
}.

(** The constructor applies [authMigrations] to the AUTH singleton and
    [mailboxMigrations] to every other instance, and from the second load on
    sets [#isAuthDO] to "a users table exists": an instance holds one of the
    two sets of tables, and [#isAuthDO] tells which. *)
Inductive Storage : Type :=
| AuthDB (t : AuthTables)
| MailboxDB (t : MailboxTables).

(** [clock] is what [Date.now()] reads; [entropy] is the platform's random
    byte source, of which [drawn] bytes have been consumed. *)
Record World : Type := {
  storage : Storage;
  clock : Z;
  entropy : nat -> ascii;
  drawn : nat
}.

Definition with_storage (s : Storage) (w : World) : World :=
  {| storage := s; clock := clock w; entropy := entropy w; drawn := drawn w |}.

Definition with_clock (now : Z) (w : World) : World :=
  {| storage := storage w; clock := now; entropy := entropy w; drawn := drawn w |}.

Definition with_drawn (n : nat) (w : World) : World :=
  {| storage := storage w; clock := clock w; entropy := entropy w; drawn := n |}.

(** ** Computations: state and exceptions

    A method either returns a value or throws an [Error] with a message;
    both leave a world behind, since a statement executed before the throw
    is not rolled back. *)
Inductive Outcome (A : Type) : Type :=
| Returned (value : A) (w : World)
| Thrown (message : string) (w : World).

Arguments Returned {A} value w.
Arguments Thrown {A} message w.

Definition DO (A : Type) : Type := World -> Outcome A.

Definition ret {A : Type} (a : A) : DO A := fun w => Returned a w.

Definition bind {A B : Type} (m : DO A) (k : A -> DO B) : DO B :=
  fun w =>
    match m w with
    | Returned a w' => k a w'
    | Thrown e w' => Thrown e w'
    end.

Definition throw {A : Type} (message : string) : DO A :=
  fun w => Thrown message w.

(** [try { m } catch (e) { handler(e.message) }]. *)
Definition try_catch {A : Type} (m : DO A) (handler : string -> DO A) : DO A :=
  fun w =>
    match m w with
    | Returned a w' => Returned a w'
    | Thrown e w' => handler e w'
    end.

Declare Scope do_scope.
Delimit Scope do_scope with do.
Notation "x <- m ;; k" := (bind m (fun x => k))
  (at level 61, m at next level, right associativity) : do_scope.
Notation "m ;;; k" := (bind m (fun _ => k))
  (at level 61, right associativity) : do_scope.
Open Scope do_scope.

(** [for (const x of xs) { body(x) }]. *)
Fixpoint for_each {A : Type} (xs : list A) (body : A -> DO unit) : DO unit :=
  match xs with
  | [] => ret tt
  | x :: rest => body x ;;; for_each rest body
  end.

Definition outcome_world {A : Type} (o : Outcome A) : World :=
  match o with
  | Returned _ w => w
  | Thrown _ w => w
  end.

(** ** Platform effects *)

(** [Date.now()]. *)
Definition Date_now : DO Z := fun w => Returned (clock w) w.

(** [crypto.getRandomValues(new Uint8Array(n))], as a binary string. *)
Definition getRandomValues (n : nat) : DO string :=
  fun w =>
    Returned (string_of_list_ascii (map (entropy w) (seq (drawn w) n)))
             (with_drawn (drawn w + n)%nat w).

Definition hex_digit (n : Z) : ascii :=
  match String.get (Z.to_nat n) "0123456789abcdef" with
  | Some c => c
  | None => "0"%char
  end.

Definition hex_octet (n : Z) : string :=
  String (hex_digit (Z.shiftr n 4)) (String (hex_digit (Z.land n 15)) EmptyString).

Definition hex_octets (bytes : list Z) : string :=
  fold_right (fun b acc => hex_octet b ++ acc) EmptyString bytes.

(** The text of a version-4 UUID built from sixteen random octets. *)
Definition uuid_text (random : string) : string :=
  let b := map JS.charCode (list_ascii_of_string random) in
  let o (i : nat) := nth i b 0 in
  hex_octets [o 0%nat; o 1%nat; o 2%nat; o 3%nat] ++ "-" ++
  hex_octets [o 4%nat; o 5%nat] ++ "-" ++
  hex_octets [Z.lor (Z.land (o 6%nat) 15) 64; o 7%nat] ++ "-" ++
  hex_octets [Z.lor (Z.land (o 8%nat) 63) 128; o 9%nat] ++ "-" ++
  hex_octets [o 10%nat; o 11%nat; o 12%nat; o 13%nat; o 14%nat; o 15%nat].

(** [crypto.randomUUID()]. *)
Definition randomUUID : DO string :=
  random <- getRandomValues 16 ;;
  ret (uuid_text random).

(** ** The query layer

    What the query builder and the SQL engine do with the statements
    [MailboxDO] issues.  A table is a list of rows in insertion order;
    [.one()] yields the first row of a result, [.execute()] all of them. *)

(** A table of the store: where its rows live, which constraint an insert
    can violate, and what a delete of some of its rows cascades to. *)
Record Table (R : Type) : Type := {
  table_name : string;
  rows_of : Storage -> option (list R);
  put_rows : list R -> Storage -> Storage;
  violation : R -> list R -> option string;
  on_delete : list R -> Storage -> Storage
}.

Arguments table_name {R} _.
Arguments rows_of {R} _ _.
Arguments put_rows {R} _ _ _.
Arguments violation {R} _ _ _.
Arguments on_delete {R} _ _ _.

Definition no_such_table {R : Type} (T : Table R) : string :=
  "no such table: " ++ table_name T.

(** [SELECT ... FROM T WHERE cond]. *)
Definition select {R : Type} (T : Table R) (cond : R -> bool) : DO (list R) :=
  fun w =>
    match rows_of T (storage w) with
    | Some rows => Returned (filter cond rows) w
    | None => Thrown (no_such_table T) w
    end.

(** [.one()]: the first row, or [undefined]. *)
Definition one {R : Type} (q : DO (list R)) : DO (option R) :=
  rows <- q ;; ret (hd_error rows).

(** [SELECT COUNT( * ) as count FROM T]. *)
Definition count {R : Type} (T : Table R) : DO Z :=
  rows <- select T (fun _ => true) ;; ret (Z.of_nat (List.length rows)).

(** [INSERT INTO T ...]: the row goes last, unless it violates a constraint. *)
Definition insert {R : Type} (T : Table R) (r : R) : DO unit :=
  fun w =>
    match rows_of T (storage w) with
    | Some rows =>
        match violation T r rows with
        | Some message => Thrown message w
        | None => Returned tt (with_storage (put_rows T (rows ++ [r]) (storage w)) w)
        end
    | None => Thrown (no_such_table T) w
    end.

(** [UPDATE T SET ... WHERE cond]. *)
Definition update {R : Type} (T : Table R) (set : R -> R) (cond : R -> bool)
  : DO unit :=
  fun w =>
    match rows_of T (storage w) with
    | Some rows =>
        Returned tt
          (with_storage
             (put_rows T (map (fun r => if cond r then set r else r) rows)
                (storage w)) w)
    | None => Thrown (no_such_table T) w
    end.

(** [DELETE FROM T WHERE cond], with the table's cascade. *)
Definition delete {R : Type} (T : Table R) (cond : R -> bool) : DO unit :=
  fun w =>
    match rows_of T (storage w) with
    | Some rows =>
        Returned tt
          (with_storage
             (on_delete T (filter cond rows)
                (put_rows T (filter (fun r => negb (cond r)) rows) (storage w)))
             w)
    | None => Thrown (no_such_table T) w
    end.

Definition unique_failed (table column : string) : string :=
  "UNIQUE constraint failed: " ++ table ++ "." ++ column.

Definition auth_rows {R : Type} (f : AuthTables -> list R) (s : Storage)
  : option (list R) :=
  match s with
  | AuthDB t => Some (f t)
  | MailboxDB _ => None
  end.

Definition mailbox_rows {R : Type} (f : MailboxTables -> list R) (s : Storage)
  : option (list R) :=
  match s with
  | MailboxDB t => Some (f t)
  | AuthDB _ => None
  end.

Definition on_auth (f : AuthTables -> AuthTables) (s : Storage) : Storage :=
  match s with
  | AuthDB t => AuthDB (f t)
  | MailboxDB _ => s
  end.

Definition on_mailbox (f : MailboxTables -> MailboxTables) (s : Storage)
  : Storage :=
  match s with
  | MailboxDB t => MailboxDB (f t)
  | AuthDB _ => s
  end.

Definition has_key {R : Type} (key : R -> string) (k : string) (rows : list R)
  : bool :=
  existsb (fun r => String.eqb (key r) k) rows.

(** *** The schema *)

(** Modelled from the spec: the module [./migrations] ([authMigrations]) is
    not among the sources.  users: "id (opaque unique token), email
    (unique ...)"; a registration with an email already present fails on the
    unique constraint. *)
Definition users_table : Table Users.row := {|
  table_name := "users";
  rows_of := auth_rows users;
  put_rows := fun rows => on_auth (fun t =>
    {| users := rows; sessions := sessions t; user_mailboxes := user_mailboxes t |});
  violation := fun r rows =>
    if has_key Users.id (Users.id r) rows then Some (unique_failed "users" "id")
    else if has_key Users.email (Users.email r) rows
         then Some (unique_failed "users" "email")
         else None;
  on_delete := fun _ s => s
|}.

(** Modelled from the spec: the module [./migrations] ([authMigrations]) is
    not among the sources.  sessions: "id (opaque token)", the token that
    identifies the session; it is the key of the table. *)
Definition sessions_table : Table Sessions.row := {|
  table_name := "sessions";
  rows_of := auth_rows sessions;
  put_rows := fun rows => on_auth (fun t =>
    {| users := users t; sessions := rows;
       user_mailboxes := user_mailboxes t |});
  violation := fun r rows =>
    if has_key Sessions.id (Sessions.id r) rows
    then Some (unique_failed "sessions" "id")
    else None;
  on_delete := fun _ s => s
|}.

(** Modelled from the spec: the module [./migrations] ([authMigrations]) is
    not among the sources.  user_mailboxes: "composite key (user_id,
    mailbox_id); at most one role per pair"; the insert of a pair already
    present is rejected. *)
Definition user_mailboxes_table : Table UserMailboxes.row := {|
  table_name := "user_mailboxes";
  rows_of := auth_rows user_mailboxes;
  put_rows := fun rows => on_auth (fun t =>
    {| users := users t; sessions := sessions t;
       user_mailboxes := rows |});
  violation := fun r rows =>
    if existsb (fun r' =>
         String.eqb (UserMailboxes.user_id r') (UserMailboxes.user_id r) &&
         String.eqb (UserMailboxes.mailbox_id r') (UserMailboxes.mailbox_id r))
         rows
    then Some ("UNIQUE constraint failed: user_mailboxes.user_id, " ++
               "user_mailboxes.mailbox_id")
    else None;
  on_delete := fun _ s => s
|}.

(** Modelled from the spec: the module [./migrations] ([mailboxMigrations])
    is not among the sources.  folders: "id (slug, unique), name (unique)";
    "creating a folder whose slug or name collides with an existing one
    fails". *)
Definition folders_table : Table Folders.row := {|
  table_name := "folders";
  rows_of := mailbox_rows folders;
  put_rows := fun rows => on_mailbox (fun t =>
    {| emails := emails t; folders := rows; attachments := attachments t |});
  violation := fun r rows =>
    if has_key Folders.id (Folders.id r) rows
    then Some (unique_failed "folders" "id")
    else if has_key Folders.name (Folders.name r) rows
         then Some (unique_failed "folders" "name")
         else None;
  on_delete := fun _ s => s
|}.

(** Modelled from the spec: the module [./migrations] ([mailboxMigrations])
    is not among the sources.  attachments: "id (opaque unique token),
    email_id (FK -> Email)". *)
Definition attachments_table : Table Attachments.row := {|
  table_name := "attachments";
  rows_of := mailbox_rows attachments;
  put_rows := fun rows => on_mailbox (fun t =>
    {| emails := emails t; folders := folders t;
       attachments := rows |});
  violation := fun r rows =>
    if has_key Attachments.id (Attachments.id r) rows
    then Some (unique_failed "attachments" "id")
    else None;
  on_delete := fun _ s => s
|}.

(** Modelled from the spec: the module [./migrations] ([mailboxMigrations])
    is not among the sources.  emails: "id (opaque unique token)";
    "deleting an email cascades to its attachments": the attachment rows
    whose [email_id] is the id of a deleted email go with it. *)
Definition emails_table : Table Emails.row := {|
  table_name := "emails";
  rows_of := mailbox_rows emails;
  put_rows := fun rows => on_mailbox (fun t =>
    {| emails := rows; folders := folders t;
       attachments := attachments t |});
  violation := fun r rows =>
    if has_key Emails.id (Emails.id r) rows
    then Some (unique_failed "emails" "id")
    else None;
  on_delete := fun deleted => on_mailbox (fun t =>
    {| emails := emails t;
       folders := folders t;
       attachments :=
         filter (fun a => negb (has_key Emails.id (Attachments.email_id a) deleted))
                (attachments t) |})
|}.


(** *** Ordering, LIMIT and OFFSET *)

Inductive SqlValue : Type :=
| VNull
| VInt (n : Z)
| VText (s : string).

(** The engine's order on values: NULL first, then integers, then text
    compared byte by byte. *)
Definition value_leb (a b : SqlValue) : bool :=
  match a, b with
  | VNull, _ => true
  | _, VNull => false
  | VInt x, VInt y => x <=? y
  | VInt _, VText _ => true
  | VText _, VInt _ => false
  | VText x, VText y => String.leb x y
  end.

Definition nullable (s : option string) : SqlValue :=
  match s with
  | Some x => VText x
  | None => VNull
  end.

(** The columns of the emails table, by name. *)
Definition emails_column (name : string) : option (Emails.row -> SqlValue) :=
  if String.eqb name "id" then Some (fun e => VText (Emails.id e))
  else if String.eqb name "subject" then Some (fun e => VText (Emails.subject e))
  else if String.eqb name "sender" then Some (fun e => VText (Emails.sender e))
  else if String.eqb name "recipient" then Some (fun e => VText (Emails.recipient e))
  else if String.eqb name "date" then Some (fun e => VText (Emails.date e))
  else if String.eqb name "body" then Some (fun e => VText (Emails.body e))
  else if String.eqb name "read" then Some (fun e => VInt (Emails.read e))
  else if String.eqb name "starred" then Some (fun e => VInt (Emails.starred e))
  else if String.eqb name "folder_id" then Some (fun e => VText (Emails.folder_id e))
  else if String.eqb name "in_reply_to" then Some (fun e => nullable (Emails.in_reply_to e))
  else if String.eqb name "email_references"
       then Some (fun e => nullable (Emails.email_references e))
  else if String.eqb name "thread_id" then Some (fun e => nullable (Emails.thread_id e))
  else None.

Fixpoint insert_by {R : Type} (leb : R -> R -> bool) (x : R) (l : list R)
  : list R :=
  match l with
  | [] => [x]
  | y :: rest => if leb x y then x :: l else y :: insert_by leb x rest
  end.

(** A stable sort: rows that compare equal keep their table order. *)
Definition sort_by {R : Type} (leb : R -> R -> bool) (l : list R) : list R :=
  fold_right (insert_by leb) [] l.

(** An ordering clause of the form [<column> ASC] or [<column> DESC]. *)
Definition simple_order (clause : string)
  : option (Emails.row -> Emails.row -> bool) :=
  match JS.split " " clause with
  | [column; direction] =>
      match emails_column column with
      | Some key =>
          if String.eqb direction "ASC"
          then Some (fun x y => value_leb (key x) (key y))
          else if String.eqb direction "DESC"
               then Some (fun x y => value_leb (key y) (key x))
               else None
      | None => None
      end
  | _ => None
  end.

(** [LIMIT n]: a negative [n] is no limit. *)
Definition sql_limit {R : Type} (n : Z) (rows : list R) : list R :=
  if n <? 0 then rows else firstn (Z.to_nat n) rows.

(** [OFFSET n]: a negative [n] skips nothing. *)
Definition sql_offset {R : Type} (n : Z) (rows : list R) : list R :=
  skipn (Z.to_nat n) rows.

(** ** Platform services the store relies on and does not define

    [TextEncoder_encode] is UTF-8 encoding.  [PBKDF2_octet h p s c i] is
    octet [i] of the PBKDF2 output stream for pseudo-random function
    HMAC-[h], password [p], salt [s] and iteration count [c].
    [order_by_other] is the SQL engine's treatment of an ordering clause
    that is not of the form [<column> ASC|DESC]: an error message or the
    rows in the order it produces. *)
Inductive HashAlgorithm : Type := SHA_1 | SHA_256 | SHA_384 | SHA_512.

Class Platform : Type := {
  TextEncoder_encode : string -> string;
  PBKDF2_octet : HashAlgorithm -> string -> string -> Z -> nat -> ascii;
  order_by_other : string -> list Emails.row -> string + list Emails.row
}.

Record Pbkdf2Params : Type := {
  pbkdf2_salt : string;
  pbkdf2_iterations : Z;
  pbkdf2_hash : HashAlgorithm
}.

(** [getEmails]'s argument. *)
Record GetEmailsOptions : Type := {
  folder : option string;
  page : option Z;
  limit : option Z;
  sortColumn : option string;
  sortDirection : option string
}.

(** The query [getEmails] builds before [.execute()]: the selected columns
    are fixed, so the query is the folder key of the sub-lookup (when there
    is one), the text of the ordering clause, the limit and the offset. *)
Record EmailQuery : Type := {
  where_folder : option string;
  orderBy : string;
  limit_rows : Z;
  offset_rows : Z
}.

(** [x = default] in a destructuring pattern. *)
Definition or_default {A : Type} (x : option A) (default : A) : A :=
  match x with
  | Some v => v
  | None => default
  end.

(** JavaScript truthiness of an optional string. *)
Definition truthy (s : option string) : option string :=
  match s with
  | Some (String c rest) => Some (String c rest)
  | _ => None
  end.

(** ** The methods of [MailboxDO] *)
Section MailboxDO.

Context {platform : Platform}.

(** [this.#isAuthDO]. *)
Definition isAuthDO : DO bool :=
  fun w =>
    Returned (match storage w with AuthDB _ => true | MailboxDB _ => false end) w.

(** [crypto.subtle.deriveBits(params, key, length)] for a PBKDF2 key. *)
Definition deriveBits (params : Pbkdf2Params) (key : string) (length : Z)
  : string :=
  string_of_list_ascii
    (map (PBKDF2_octet (pbkdf2_hash params) key (pbkdf2_salt params)
            (pbkdf2_iterations params))
         (seq 0 (Z.to_nat (length / 8)))).

Definition hashPassword (password : string) : DO string :=
  salt <- getRandomValues 16 ;;
  let key := TextEncoder_encode password in
  let bits :=
    deriveBits {| pbkdf2_salt := salt; pbkdf2_iterations := 100000;
                  pbkdf2_hash := SHA_256 |} key 256 in
  let saltBase64 := Base64.btoa salt in
  let hashBase64 := Base64.btoa bits in
  ret (saltBase64 ++ ":" ++ hashBase64)%string.

Definition verifyPassword (password hash : string) : DO bool :=
  let parts := JS.split ":" hash in
  let saltBase64 := nth_error parts 0 in
  let storedHash := nth_error parts 1 in
  if JS.falsy saltBase64 || JS.falsy storedHash then ret false
  else
    match Base64.atob (or_default saltBase64 "") with
    | None => throw "InvalidCharacterError"
    | Some salt =>
        let key := TextEncoder_encode password in
        let bits :=
          deriveBits {| pbkdf2_salt := salt; pbkdf2_iterations := 100000;
                        pbkdf2_hash := SHA_256 |} key 256 in
        let candidateHash := Base64.btoa bits in
        ret (String.eqb candidateHash (or_default storedHash ""))
    end.

Definition admins : list string :=
  ["admin@email.230406.xyz"; "admin@230406.xyz"].

(** The body of the loop of [ensureDefaultAdmins]: the insert of one
    administrator, any exception swallowed. *)
Definition seedAdmin (now : Z) (passwordHash email : string) : DO unit :=
  try_catch
    (id <- randomUUID ;;
     insert users_table
       {| Users.id := id; Users.email := email;
          Users.password_hash := passwordHash; Users.is_admin := 1;
          Users.created_at := now; Users.updated_at := now |})
    (fun _ => ret tt).

Definition ensureDefaultAdmins : DO unit :=
  auth <- isAuthDO ;;
  if negb auth then throw "Not an auth DO"
  else
    countResult <- count users_table ;;
    if countResult >? 0 then ret tt
    else
      now <- Date_now ;;
      passwordHash <- hashPassword "admin" ;;
      for_each admins (seedAdmin now passwordHash).

Definition generateToken : DO string := randomUUID.

Definition hasUsers : DO bool :=
  auth <- isAuthDO ;;
  if negb auth then ret false
  else
    result <- count users_table ;;
    ret (result >? 0).

Definition isAdmin (userId : string) : DO bool :=
  auth <- isAuthDO ;;
  if negb auth then ret false
  else
    result <- one (select users_table (fun u => String.eqb (Users.id u) userId)) ;;
    ret (match result with
         | Some u => Users.is_admin u =? 1
         | None => false
         end).

Definition register (email password : string) (isFirstUser : bool)
  : DO User.t :=
  auth <- isAuthDO ;;
  if negb auth then throw "Not an auth DO"
  else
    userId <- randomUUID ;;
    passwordHash <- hashPassword password ;;
    now <- Date_now ;;
    insert users_table
      {| Users.id := userId; Users.email := email;
         Users.password_hash := passwordHash;
         Users.is_admin := if isFirstUser then 1 else 0;
         Users.created_at := now; Users.updated_at := now |} ;;;
    ret {| User.id := userId; User.email := email; User.isAdmin := isFirstUser;
           User.createdAt := now; User.updatedAt := now |}.

Definition login (email password : string) : DO (option Session.t) :=
  auth <- isAuthDO ;;
  if negb auth then throw "Not an auth DO"
  else
    result <- one (select users_table (fun u => String.eqb (Users.email u) email)) ;;
    match result with
    | None => ret None
    | Some user =>
        isValid <- verifyPassword password (Users.password_hash user) ;;
        if negb isValid then ret None
        else
          sessionId <- generateToken ;;
          now <- Date_now ;;
          let expiresAt := now + 30 * 24 * 60 * 60 * 1000 in
          insert sessions_table
            {| Sessions.id := sessionId; Sessions.user_id := Users.id user;
               Sessions.expires_at := expiresAt; Sessions.created_at := now |} ;;;
          ret (Some {| Session.id := sessionId; Session.userId := Users.id user;
                       Session.email := Users.email user;
                       Session.isAdmin := Users.is_admin user =? 1;
                       Session.expiresAt := expiresAt |})
    end.

Definition validateSession (sessionId : string) : DO (option Session.t) :=
  auth <- isAuthDO ;;
  if negb auth then throw "Not an auth DO"
  else
    result <- one (select sessions_table
                     (fun s => String.eqb (Sessions.id s) sessionId)) ;;
    match result with
    | None => ret None
    | Some session =>
        let expiresAt := Sessions.expires_at session in
        now <- Date_now ;;
        if expiresAt <? now then
          delete sessions_table (fun s => String.eqb (Sessions.id s) sessionId) ;;;
          ret None
        else
          userResult <- one (select users_table
                               (fun u => String.eqb (Users.id u)
                                           (Sessions.user_id session))) ;;
          match userResult with
          | None => ret None
          | Some user =>
              ret (Some {| Session.id := Sessions.id session;
                           Session.userId := Sessions.user_id session;
                           Session.email := Users.email user;
                           Session.isAdmin := Users.is_admin user =? 1;
                           Session.expiresAt := expiresAt |})
          end
    end.

Definition logout (sessionId : string) : DO bool :=
  auth <- isAuthDO ;;
  if negb auth then throw "Not an auth DO"
  else
    delete sessions_table (fun s => String.eqb (Sessions.id s) sessionId) ;;;
    ret true.

Definition user_of_row (user : Users.row) : User.t :=
  {| User.id := Users.id user; User.email := Users.email user;
     User.isAdmin := Users.is_admin user =? 1;
     User.createdAt := Users.created_at user;
     User.updatedAt := Users.updated_at user |}.

Definition getUsers : DO (list User.t) :=
  auth <- isAuthDO ;;
  if negb auth then throw "Not an auth DO"
  else
    result <- select users_table (fun _ => true) ;;
    ret (map user_of_row result).

Definition getUserByEmail (email : string) : DO (option User.t) :=
  auth <- isAuthDO ;;
  if negb auth then throw "Not an auth DO"
  else
    result <- select users_table (fun u => String.eqb (Users.email u) email) ;;
    match result with
    | [] => ret None
    | user :: _ => ret (Some (user_of_row user))
    end.

Definition updateUserPassword (userId newPassword : string) : DO unit :=
  auth <- isAuthDO ;;
  if negb auth then throw "Not an auth DO"
  else
    hashedPassword <- hashPassword newPassword ;;
    now <- Date_now ;;
    update users_table
      (fun u => {| Users.id := Users.id u; Users.email := Users.email u;
                   Users.password_hash := hashedPassword;
                   Users.is_admin := Users.is_admin u;
                   Users.created_at := Users.created_at u;
                   Users.updated_at := now |})
      (fun u => String.eqb (Users.id u) userId).

Definition updateUserAdminStatus (userId : string) (isAdmin : bool) : DO unit :=
  auth <- isAuthDO ;;
  if negb auth then throw "Not an auth DO"
  else
    now <- Date_now ;;
    update users_table
      (fun u => {| Users.id := Users.id u; Users.email := Users.email u;
                   Users.password_hash := Users.password_hash u;
                   Users.is_admin := if isAdmin then 1 else 0;
                   Users.created_at := Users.created_at u;
                   Users.updated_at := now |})
      (fun u => String.eqb (Users.id u) userId).

Definition grantMailboxAccess (userId mailboxId role : string) : DO unit :=
  auth <- isAuthDO ;;
  if negb auth then throw "Not an auth DO"
  else
    insert user_mailboxes_table
      {| UserMailboxes.user_id := userId; UserMailboxes.mailbox_id := mailboxId;
         UserMailboxes.role := role |}.

Definition revokeMailboxAccess (userId mailboxId : string) : DO unit :=
  auth <- isAuthDO ;;
  if negb auth then throw "Not an auth DO"
  else
    delete user_mailboxes_table
      (fun r => String.eqb (UserMailboxes.user_id r) userId &&
                String.eqb (UserMailboxes.mailbox_id r) mailboxId).

Definition getUserMailboxes (userId : string) : DO (list MailboxRole.t) :=
  auth <- isAuthDO ;;
  if negb auth then throw "Not an auth DO"
  else
    result <- select user_mailboxes_table
                (fun r => String.eqb (UserMailboxes.user_id r) userId) ;;
    ret (map (fun row => {| MailboxRole.mailboxId := UserMailboxes.mailbox_id row;
                            MailboxRole.role := UserMailboxes.role row |})
             result).

(** The query [getEmails] hands to [.execute()]. *)
Definition getEmails_query (options : GetEmailsOptions) : EmailQuery :=
  let page := or_default (page options) 1 in
  let limit := or_default (limit options) 25 in
  let sortColumn := or_default (sortColumn options) "date" in
  let sortDirection := or_default (sortDirection options) "DESC" in
  let offset := (page - 1) * limit in
  {| where_folder := truthy (folder options);
     orderBy := (sortColumn ++ " " ++ sortDirection)%string;
     limit_rows := limit;
     offset_rows := offset |}.

(** The rows of [ORDER BY clause]. *)
Definition sql_order_by (clause : string) (rows : list Emails.row)
  : string + list Emails.row :=
  match simple_order clause with
  | Some leb => inr (sort_by leb rows)
  | None => order_by_other clause rows
  end.

(** [SELECT id FROM folders WHERE name = ? OR id = ? LIMIT 1] with both
    parameters [key]. *)
Definition folder_lookup (key : string) : DO (option Folders.row) :=
  one (select folders_table
         (fun f => String.eqb (Folders.name f) key ||
                   String.eqb (Folders.id f) key)).

(** [.execute()] on a query over emails: the folder condition compares
    [folder_id] with the result of the sub-lookup (no row when the sub-lookup
    finds none), then ordering, offset and limit. *)
Definition execute_query (q : EmailQuery) : DO (list Emails.row) :=
  matching <-
    match where_folder q with
    | None => select emails_table (fun _ => true)
    | Some key =>
        found <- folder_lookup key ;;
        match found with
        | Some f =>
            select emails_table
              (fun e => String.eqb (Emails.folder_id e) (Folders.id f))
        | None => select emails_table (fun _ => false)
        end
    end ;;
  match sql_order_by (orderBy q) matching with
  | inl message => throw message
  | inr ordered =>
      ret (sql_limit (limit_rows q) (sql_offset (offset_rows q) ordered))
  end.

Definition summary_of_row (email : Emails.row) : EmailSummary.t :=
  {| EmailSummary.id := Emails.id email;
     EmailSummary.subject := Emails.subject email;
     EmailSummary.sender := Emails.sender email;
     EmailSummary.recipient := Emails.recipient email;
     EmailSummary.date := Emails.date email;
     EmailSummary.read := negb (Emails.read email =? 0);
     EmailSummary.starred := negb (Emails.starred email =? 0);
     EmailSummary.in_reply_to := Emails.in_reply_to email;
     EmailSummary.email_references := Emails.email_references email;
     EmailSummary.thread_id := Emails.thread_id email |}.

Definition getEmails (options : GetEmailsOptions) : DO (list EmailSummary.t) :=
  result <- execute_query (getEmails_query options) ;;
  ret (map summary_of_row result).

Definition deleteEmail (id : string) : DO (list AttachmentRef.t) :=
  attachments <- select attachments_table
                   (fun a => String.eqb (Attachments.email_id a) id) ;;
  delete emails_table (fun e => String.eqb (Emails.id e) id) ;;;
  ret (map (fun a => {| AttachmentRef.id := Attachments.id a;
                        AttachmentRef.filename := Attachments.filename a |})
           attachments).

(** Modelled from the spec: the default of the column [is_deletable] is in
    [./migrations] ([mailboxMigrations]), which is not among the sources.
    The folder row an insert of [{ id, name }] stores can be deleted; only
    the "four seeded system folders" are "each non-deletable". *)
Definition new_folder_row (id name : string) : Folders.row :=
  {| Folders.id := id; Folders.name := name; Folders.is_deletable := 1 |}.

Definition createFolder (id name : string) : DO (option Folder.t) :=
  try_catch
    (insert folders_table (new_folder_row id name) ;;;
     ret (Some {| Folder.id := id; Folder.name := name;
                  Folder.unreadCount := 0 |}))
    (fun message =>
       if JS.includes message "UNIQUE constraint failed" then ret None
       else throw message).

Definition moveEmail (id folderId : string) : DO bool :=
  folder <- one (select folders_table
                   (fun f => String.eqb (Folders.id f) folderId)) ;;
  match folder with
  | None => ret false
  | Some _ =>
      update emails_table
        (fun e => {| Emails.id := Emails.id e; Emails.subject := Emails.subject e;
                     Emails.sender := Emails.sender e;
                     Emails.recipient := Emails.recipient e;
                     Emails.date := Emails.date e; Emails.body := Emails.body e;
                     Emails.read := Emails.read e;
                     Emails.starred := Emails.starred e;
                     Emails.folder_id := folderId;
                     Emails.in_reply_to := Emails.in_reply_to e;
                     Emails.email_references := Emails.email_references e;
                     Emails.thread_id := Emails.thread_id e |})
        (fun e => String.eqb (Emails.id e) id) ;;;
      ret true
  end.

End MailboxDO.

(** ** Notions the properties are stated with *)

(** The next [n] octets of the random source of world [w]. *)
Definition next_octets (n : nat) (w : World) : string :=
  string_of_list_ascii (map (entropy w) (seq (drawn w) n)).

(** The token the next [crypto.randomUUID()] returns in world [w]. *)
Definition next_token (w : World) : string := uuid_text (next_octets 16 w).

(** The 256 bits PBKDF2 with HMAC-SHA-256 and 100,000 iterations derives
    from a password and a salt, and the text stored for them:
    [base64(salt) + ":" + base64(derivedBits)]. *)
Definition derived_bits {platform : Platform} (salt password : string) : string :=
  deriveBits {| pbkdf2_salt := salt; pbkdf2_iterations := 100000;
                pbkdf2_hash := SHA_256 |} (TextEncoder_encode password) 256.

Definition stored_hash {platform : Platform} (salt password : string) : string :=
  (Base64.btoa salt ++ ":" ++ Base64.btoa (derived_bits salt password))%string.

(** The session row and the session value of a login at time [now]. *)
Definition session_row (token : string) (user : Users.row) (now : Z)
  : Sessions.row :=
  {| Sessions.id := token; Sessions.user_id := Users.id user;
     Sessions.expires_at := now + 2592000000; Sessions.created_at := now |}.

Definition session_of (token : string) (user : Users.row) (expiresAt : Z)
  : Session.t :=
  {| Session.id := token; Session.userId := Users.id user;
     Session.email := Users.email user;
     Session.isAdmin := Users.is_admin user =? 1;
     Session.expiresAt := expiresAt |}.

(** No two user rows share an id or an email. *)
Definition unique_users (rows : list Users.row) : Prop :=
  NoDup (map Users.id rows) /\ NoDup (map Users.email rows).

(** The email row [e] after [UPDATE emails SET folder_id = folderId]. *)
Definition in_folder (folderId : string) (e : Emails.row) : Emails.row :=
  {| Emails.id := Emails.id e; Emails.subject := Emails.subject e;
     Emails.sender := Emails.sender e; Emails.recipient := Emails.recipient e;
     Emails.date := Emails.date e; Emails.body := Emails.body e;
     Emails.read := Emails.read e; Emails.starred := Emails.starred e;
     Emails.folder_id := folderId;
     Emails.in_reply_to := Emails.in_reply_to e;
     Emails.email_references := Emails.email_references e;
     Emails.thread_id := Emails.thread_id e |}.

(** The folder a listing key resolves to: the first folder, in table order,
    whose name or id is the key. *)
Definition resolve_folder (key : string) (rows : list Folders.row)
  : option Folders.row :=
  find (fun f => String.eqb (Folders.name f) key || String.eqb (Folders.id f) key)
       rows.

(** The emails that pass the folder condition of a query. *)
Definition matching_rows (q : EmailQuery) (t : MailboxTables)
  : list Emails.row :=
  match where_folder q with
  | None => emails t
  | Some key =>
      match resolve_folder key (folders t) with
      | Some f =>
          filter (fun e => String.eqb (Emails.folder_id e) (Folders.id f))
                 (emails t)
      | None => []
      end
  end.

(** The emails table after [UPDATE emails SET folder_id = folderId WHERE
    id = id]. *)
Definition moved (id folderId : string) (rows : list Emails.row)
  : list Emails.row :=
  map (fun e => if String.eqb (Emails.id e) id then in_folder folderId e else e)
      rows.


(** The id and filename of an attachment row. *)
Definition attachment_ref (a : Attachments.row) : AttachmentRef.t :=
  {| AttachmentRef.id := Attachments.id a;
     AttachmentRef.filename := Attachments.filename a |}.

(** *** The life of the AUTH store

    The tables of an instance are private to it: they change only through
    calls of its methods, between which time passes.  The methods that only
    read ([hasUsers], [isAdmin], [getUsers], [getUserByEmail],
    [getUserMailboxes]) leave the world as it is and are not listed. *)
Inductive Call : Type :=
| CallEnsureDefaultAdmins
| CallRegister (email password : string) (isFirstUser : bool)
| CallLogin (email password : string)
| CallValidateSession (sessionId : string)
| CallLogout (sessionId : string)
| CallUpdateUserPassword (userId newPassword : string)
| CallUpdateUserAdminStatus (userId : string) (isAdmin : bool)
| CallGrantMailboxAccess (userId mailboxId role : string)
| CallRevokeMailboxAccess (userId mailboxId : string).

(** The world a call leaves, whether it returns or throws. *)
Definition perform {platform : Platform} (c : Call) (w : World) : World :=
  match c with
  | CallEnsureDefaultAdmins => outcome_world (ensureDefaultAdmins w)
  | CallRegister email password isFirstUser =>
      outcome_world (register email password isFirstUser w)
  | CallLogin email password => outcome_world (login email password w)
  | CallValidateSession sessionId => outcome_world (validateSession sessionId w)
  | CallLogout sessionId => outcome_world (logout sessionId w)
  | CallUpdateUserPassword userId newPassword =>
      outcome_world (updateUserPassword userId newPassword w)
  | CallUpdateUserAdminStatus userId isAdmin =>
      outcome_world (updateUserAdminStatus userId isAdmin w)
  | CallGrantMailboxAccess userId mailboxId role =>
      outcome_world (grantMailboxAccess userId mailboxId role w)
  | CallRevokeMailboxAccess userId mailboxId =>
      outcome_world (revokeMailboxAccess userId mailboxId w)
  end.

(** The AUTH singleton right after its first initialization. *)
Definition fresh_auth (now : Z) (random : nat -> ascii) : World :=
  {| storage := AuthDB {| users := []; sessions := []; user_mailboxes := [] |};
     clock := now; entropy := random; drawn := 0 |}.

(** The worlds the AUTH singleton can be in. *)
Inductive reachable {platform : Platform} : World -> Prop :=
| reachable_fresh (now : Z) (random : nat -> ascii) :
    reachable (fresh_auth now random)
| reachable_call (w : World) (c : Call) :
    reachable w -> reachable (perform c w)
| reachable_later (w : World) (now : Z) :
    reachable w -> clock w <= now -> reachable (with_clock now w).

(** The tables after [DELETE FROM sessions WHERE id = sessionId]. *)
Definition without_session (sessionId : string) (t : AuthTables) : AuthTables :=
  {| users := users t;
     sessions := filter (fun s => negb (String.eqb (Sessions.id s) sessionId))
                        (sessions t);
     user_mailboxes := user_mailboxes t |}.

(** A password hash as [hashPassword] writes it. *)
Definition well_formed_hash {platform : Platform} (h : string) : Prop :=
  exists salt password, salt <> EmptyString /\ h = stored_hash salt password.

(** Every user row holds such a hash; every session row belongs to a user
    row. *)
Definition hashes_well_formed {platform : Platform} (t : AuthTables) : Prop :=
  forall u, In u (users t) -> well_formed_hash (Users.password_hash u).

Definition sessions_owned (t : AuthTables) : Prop :=
  forall s, In s (sessions t) ->
            In (Sessions.user_id s) (map Users.id (users t)).

(** ** Concrete worlds, for running the methods *)
Module Sample.

Fixpoint checksum (s : string) : nat :=
  match s with
  | EmptyString => 0
  | String c rest => (nat_of_ascii c + 3 * checksum rest) mod 251
  end.

(** A stand-in for the platform services: identity encoding, a key stream
    that mixes checksums of password and salt with the octet index, and an
    engine that rejects every ordering clause it is asked about. *)
Definition platform : Platform := {|
  TextEncoder_encode := fun s => s;
  PBKDF2_octet := fun _ password salt iterations i =>
    ascii_of_nat (checksum password * 31 + checksum salt * 7 +
                  Z.to_nat iterations + i);
  order_by_other := fun _ _ => inl "SQLITE_ERROR"
|}.

Definition random_octet (i : nat) : ascii := ascii_of_nat (7 * i + 3).

Definition world (s : Storage) (now : Z) : World :=
  {| storage := s; clock := now; entropy := random_octet; drawn := 0 |}.

Definition alice : Users.row :=
  {| Users.id := "u1"; Users.email := "alice@example.com";
     Users.password_hash := "c2FsdHNhbHRzYWx0c2FsdA==:AAAA"; Users.is_admin := 1;
     Users.created_at := 0; Users.updated_at := 0 |}.

Definition alice_session : Sessions.row :=
  {| Sessions.id := "t1"; Sessions.user_id := "u1";
     Sessions.expires_at := 1000; Sessions.created_at := 0 |}.

Definition alice_tables : AuthTables :=
  {| users := [alice]; sessions := [alice_session]; user_mailboxes := [] |}.

Definition empty_auth : AuthTables :=
  {| users := []; sessions := []; user_mailboxes := [] |}.

(** The AUTH store after a first registration at time 5000 and a login of
    that user at time 6000. *)
Definition registered_user : Users.row :=
  {| Users.id := "030a1118-1f26-4d34-bb42-4950575e656c";
     Users.email := "a@x.com";
     Users.password_hash :=
       "c3qBiI+WnaSrsrnAx87V3A==:VVZXWFlaW1xdXl9gYWJjZGVmZ2hpamtsbW5vcHFyc3Q=";
     Users.is_admin := 1; Users.created_at := 5000; Users.updated_at := 5000 |}.

Definition login_session : Sessions.row :=
  {| Sessions.id := "e3eaf1f8-ff06-4d14-9b22-2930373e454c";
     Sessions.user_id := "030a1118-1f26-4d34-bb42-4950575e656c";
     Sessions.expires_at := 2592006000; Sessions.created_at := 6000 |}.

Definition logged_in_tables : AuthTables :=
  {| users := [registered_user]; sessions := [login_session];
     user_mailboxes := [] |}.

Definition logged_in : World :=
  {| storage := AuthDB logged_in_tables; clock := 6000;
     entropy := random_octet; drawn := 48 |}.

Definition folder_row (id name : string) (deletable : Z) : Folders.row :=
  {| Folders.id := id; Folders.name := name; Folders.is_deletable := deletable |}.

Definition seeded_folders : list Folders.row :=
  [folder_row "inbox" "Inbox" 0; folder_row "sent" "Sent" 0;
   folder_row "drafts" "Drafts" 0; folder_row "trash" "Trash" 0].

Definition email_row (id date folder_id : string) : Emails.row :=
  {| Emails.id := id; Emails.subject := "Subject"; Emails.sender := "a@x.com";
     Emails.recipient := "b@x.com"; Emails.date := date; Emails.body := "Body";
     Emails.read := 0; Emails.starred := 0; Emails.folder_id := folder_id;
     Emails.in_reply_to := None; Emails.email_references := None;
     Emails.thread_id := None |}.

Definition attachment_row (id email_id filename : string) : Attachments.row :=
  {| Attachments.id := id; Attachments.email_id := email_id;
     Attachments.filename := filename; Attachments.mimetype := "text/plain";
     Attachments.size := 12; Attachments.content_id := None;
     Attachments.disposition := Some "attachment" |}.

(** A mailbox with three emails in the inbox, one of them with two
    attachments. *)
Definition mailbox : MailboxTables :=
  {| emails := [email_row "e1" "2024-01-01" "inbox";
                email_row "e2" "2024-01-03" "inbox";
                email_row "e3" "2024-01-02" "inbox"];
     folders := seeded_folders;
     attachments := [attachment_row "a1" "e1" "one.txt";
                     attachment_row "a2" "e2" "two.txt";
                     attachment_row "a3" "e1" "three.txt"] |}.

(** A mailbox where the folder with id "archive" was renamed "work" before a
    folder with id "work" was created. *)
Definition renamed_folders : MailboxTables :=
  {| emails := [email_row "e1" "2024-01-01" "archive"];
     folders := seeded_folders ++
                [folder_row "archive" "work" 1; folder_row "work" "Work" 1];
     attachments := [] |}.


Definition options (folder : option string) (page limit : option Z)
  : GetEmailsOptions :=
  {| folder := folder; page := page; limit := limit;
     sortColumn := None; sortDirection := None |}.

End Sample.

(** ** The other methods of [MailboxDO]

    [getEmail], [updateEmail], [getAttachment], [getFolders],
    [updateFolder], [deleteFolder], [searchEmails] and [createEmail], with
    what the query layer needs for them.  The methods on contacts are left
    out: the contacts table, its generated ids and its constraints are in
    [./migrations] only. *)

(** *** Statements on several rows *)

(** The first constraint an insert of [rs], row after row, violates. *)
Fixpoint first_violation {R : Type} (T : Table R) (rs rows : list R)
  : option string :=
  match rs with
  | [] => None
  | r :: rest =>
      match violation T r rows with
      | Some message => Some message
      | None => first_violation T rest (rows ++ [r])
      end
  end.

(** [INSERT INTO T ... VALUES (...), (...)]: one statement; the rows go
    last, all of them or, when one violates a constraint, none. *)
Definition insert_all {R : Type} (T : Table R) (rs : list R) : DO unit :=
  fun w =>
    match rows_of T (storage w) with
    | Some rows =>
        match first_violation T rs rows with
        | Some message => Thrown message w
        | None => Returned tt (with_storage (put_rows T (rows ++ rs) (storage w)) w)
        end
    | None => Thrown (no_such_table T) w
    end.

Definition occurrences (k : string) (keys : list string) : nat :=
  List.length (filter (String.eqb k) keys).

(** Modelled from the spec: the module [./migrations] ([mailboxMigrations])
    is not among the sources.  [UPDATE T SET ... WHERE cond] on a table
    where [column] is unique (folders: "name (unique)"): the statement
    fails, and changes nothing, when an updated row would share its value
    with another row. *)
Definition update_unique {R : Type} (T : Table R) (key : R -> string)
  (column : string) (set : R -> R) (cond : R -> bool) : DO unit :=
  fun w =>
    match rows_of T (storage w) with
    | Some rows =>
        let rows' := map (fun r => if cond r then set r else r) rows in
        if existsb (fun r => cond r &&
                             negb (occurrences (key (set r)) (map key rows') =? 1)%nat)
                   rows
        then Thrown (unique_failed (table_name T) column) w
        else Returned tt (with_storage (put_rows T rows' (storage w)) w)
    | None => Thrown (no_such_table T) w
    end.

(** *** Arguments and results *)

(** A property of an object that can be left out ([undefined]) or be null
    or a string. *)
Inductive Optional : Type :=
| Undefined
| Given (value : option string).

(** [createEmail]'s email: the interface [EmailData] without [read] and
    [starred], which no caller gives. *)
Module EmailData.
Record t : Type := {
  id : string;
  subject : string;
  sender : string;
  recipient : string;
  date : string;
  body : string;
  in_reply_to : Optional;
  email_references : Optional;
  thread_id : Optional
}.
End EmailData.

(** [getEmail]'s result: the columns of the row, of which [read] and
    [starred] are given as booleans, and the attachment rows. *)
Module EmailDetail.
Record t : Type := {
  email : Emails.row;
  read : bool;
  starred : bool;
  attachments : list Attachments.row
}.
End EmailDetail.

(** [updateEmail]'s second argument. *)
Module EmailFlags.
Record t : Type := {
  read : option bool;
  starred : option bool
}.
End EmailFlags.

(** A row of [getFolders]'s result, and [updateFolder]'s result. *)
Module FolderName.
Record t : Type := {
  id : string;
  name : string
}.
End FolderName.

(** [searchEmails]'s argument. *)
Module SearchOptions.
Record t : Type := {
  query : string;
  folder : option string;
  from : option string;
  to : option string;
  date_start : option string;
  date_end : option string
}.
End SearchOptions.

(** What the schema of [./migrations] and the SQL engine decide and the
    sources do not show: the value a column of emails takes when an insert
    leaves it out, and the folding [LIKE] applies to a character before it
    compares it (the engine's default folds the case of the ASCII letters;
    a case-sensitive [LIKE] folds nothing). *)
Class Engine : Type := {
  default_read : Z;
  default_starred : Z;
  default_in_reply_to : option string;
  default_email_references : option string;
  default_thread_id : option string;
  like_fold : ascii -> ascii
}.

(** The lower-case letter of an ASCII capital; every other character
    itself. *)
Definition fold_case (c : ascii) : ascii :=
  let n := JS.charCode c in
  if (65 <=? n) && (n <=? 90) then JS.fromCharCode (n + 32) else c.

Definition flag (b : bool) : Z := if b then 1 else 0.

Definition column_value (given : Optional) (default : option string)
  : option string :=
  match given with
  | Undefined => default
  | Given value => value
  end.

Section MailboxMethods.

Context {engine : Engine}.

(** [text LIKE pattern]: [%] matches any run of characters, [_] any one
    character, every other character the characters with the same folding;
    there is no escape character. *)
Fixpoint like (pattern text : string) {struct pattern} : bool :=
  match pattern with
  | EmptyString =>
      match text with
      | EmptyString => true
      | String _ _ => false
      end
  | String p rest =>
      if Ascii.eqb p "%" then
        (fix skip (t : string) : bool :=
           like rest t ||
           match t with
           | EmptyString => false
           | String _ t' => skip t'
           end) text
      else
        match text with
        | EmptyString => false
        | String c t' =>
            (Ascii.eqb p "_" || Ascii.eqb (like_fold p) (like_fold c)) &&
            like rest t'
        end
  end.

(** The pattern [`%${x}%`]. *)
Definition containing (x : string) : string := ("%" ++ x ++ "%")%string.

Definition getEmail (id : string) : DO (option EmailDetail.t) :=
  email <- one (select emails_table (fun e => String.eqb (Emails.id e) id)) ;;
  match email with
  | None => ret None
  | Some row =>
      attachments <- select attachments_table
                       (fun a => String.eqb (Attachments.email_id a) id) ;;
      ret (Some {| EmailDetail.email := row;
                   EmailDetail.read := negb (Emails.read row =? 0);
                   EmailDetail.starred := negb (Emails.starred row =? 0);
                   EmailDetail.attachments := attachments |})
  end.

(** The row [e] after [UPDATE emails SET ...] with the flags that are
    given. *)
Definition with_flags (flags : EmailFlags.t) (e : Emails.row) : Emails.row :=
  {| Emails.id := Emails.id e; Emails.subject := Emails.subject e;
     Emails.sender := Emails.sender e; Emails.recipient := Emails.recipient e;
     Emails.date := Emails.date e; Emails.body := Emails.body e;
     Emails.read :=
       match EmailFlags.read flags with
       | Some b => flag b
       | None => Emails.read e
       end;
     Emails.starred :=
       match EmailFlags.starred flags with
       | Some b => flag b
       | None => Emails.starred e
       end;
     Emails.folder_id := Emails.folder_id e;
     Emails.in_reply_to := Emails.in_reply_to e;
     Emails.email_references := Emails.email_references e;
     Emails.thread_id := Emails.thread_id e |}.

Definition updateEmail (id : string) (flags : EmailFlags.t)
  : DO (option EmailDetail.t) :=
  match EmailFlags.read flags, EmailFlags.starred flags with
  | None, None => getEmail id
  | _, _ =>
      update emails_table (with_flags flags)
        (fun e => String.eqb (Emails.id e) id) ;;;
      getEmail id
  end.

Definition getAttachment (id : string) : DO (option Attachments.row) :=
  one (select attachments_table (fun a => String.eqb (Attachments.id a) id)).

Definition folder_name (f : Folders.row) : FolderName.t :=
  {| FolderName.id := Folders.id f; FolderName.name := Folders.name f |}.

Definition getFolders : DO (list FolderName.t) :=
  result <- select folders_table (fun _ => true) ;;
  ret (map folder_name result).

Definition renamed (name : string) (f : Folders.row) : Folders.row :=
  {| Folders.id := Folders.id f; Folders.name := name;
     Folders.is_deletable := Folders.is_deletable f |}.

Definition updateFolder (id name : string) : DO (option FolderName.t) :=
  update_unique folders_table Folders.name "name" (renamed name)
    (fun f => String.eqb (Folders.id f) id) ;;;
  result <- one (select folders_table (fun f => String.eqb (Folders.id f) id)) ;;
  ret (option_map folder_name result).

(** What a foreign key of [emails.folder_id], if the schema declares one,
    does to the delete of a folder that holds emails is not modelled: the
    properties of a delete that goes through are about folders without
    emails. *)
Definition deleteFolder (id : string) : DO bool :=
  folder <- one (select folders_table (fun f => String.eqb (Folders.id f) id)) ;;
  match folder with
  | None => ret false
  | Some f =>
      if Folders.is_deletable f =? 0 then ret false
      else
        delete folders_table (fun f => String.eqb (Folders.id f) id) ;;;
        ret true
  end.

(** The conditions of [searchEmails] on an email row; [found] is the result
    of the folder sub-lookup when a folder is given. *)
Definition search_condition (options : SearchOptions.t)
  (found : option (option Folders.row)) (e : Emails.row) : bool :=
  match found with
  | None => true
  | Some None => false
  | Some (Some f) => String.eqb (Emails.folder_id e) (Folders.id f)
  end &&
  match truthy (SearchOptions.from options) with
  | Some x => like (containing x) (Emails.sender e)
  | None => true
  end &&
  match truthy (SearchOptions.to options) with
  | Some x => like (containing x) (Emails.recipient e)
  | None => true
  end &&
  match truthy (SearchOptions.date_start options) with
  | Some d => String.leb d (Emails.date e)
  | None => true
  end &&
  match truthy (SearchOptions.date_end options) with
  | Some d => String.leb (Emails.date e) d
  | None => true
  end &&
  (like (containing (SearchOptions.query options)) (Emails.subject e) ||
   like (containing (SearchOptions.query options)) (Emails.body e)).

(** The query has no ordering clause: the properties are about which
    emails the result holds, not about their order. *)
Definition searchEmails (options : SearchOptions.t) : DO (list EmailSummary.t) :=
  found <-
    match truthy (SearchOptions.folder options) with
    | Some key => f <- folder_lookup key ;; ret (Some f)
    | None => ret None
    end ;;
  result <- select emails_table (search_condition options found) ;;
  ret (map summary_of_row result).

(** The email row [createEmail] inserts: [{ ...email, folder_id: folder }]. *)
Definition new_email_row (folder : string) (email : EmailData.t) : Emails.row :=
  {| Emails.id := EmailData.id email; Emails.subject := EmailData.subject email;
     Emails.sender := EmailData.sender email;
     Emails.recipient := EmailData.recipient email;
     Emails.date := EmailData.date email; Emails.body := EmailData.body email;
     Emails.read := default_read;
     Emails.starred := default_starred;
     Emails.folder_id := folder;
     Emails.in_reply_to :=
       column_value (EmailData.in_reply_to email) default_in_reply_to;
     Emails.email_references :=
       column_value (EmailData.email_references email) default_email_references;
     Emails.thread_id :=
       column_value (EmailData.thread_id email) default_thread_id |}.

(** Two statements, the second only when there are attachments.  A foreign
    key of [folder_id] or [email_id], if the schema declares one, is not
    modelled: the properties are about emails put in an existing folder
    with attachments of their own. *)
Definition createEmail (folder : string) (email : EmailData.t)
  (attachments : list Attachments.row) : DO unit :=
  insert emails_table (new_email_row folder email) ;;;
  match attachments with
  | [] => ret tt
  | _ :: _ => insert_all attachments_table attachments
  end.

End MailboxMethods.

(** ** Notions the properties of these methods are stated with *)

(** The characters [LIKE] gives a meaning to, and the texts without them. *)
Definition wildcard (c : ascii) : bool := Ascii.eqb c "%" || Ascii.eqb c "_".

Definition literal (s : string) : bool :=
  JS.all_chars (fun c => negb (wildcard c)) s.

(** A text as [LIKE] compares it: every character folded. *)
Definition folded {engine : Engine} (s : string) : string :=
  string_of_list_ascii (map like_fold (list_ascii_of_string s)).

(** The object [getEmail] builds from an email row and attachment rows. *)
Definition email_detail (row : Emails.row) (attachments : list Attachments.row)
  : EmailDetail.t :=
  {| EmailDetail.email := row;
     EmailDetail.read := negb (Emails.read row =? 0);
     EmailDetail.starred := negb (Emails.starred row =? 0);
     EmailDetail.attachments := attachments |}.

(** Search options with a query and no other condition. *)
Definition query_only (query : string) : SearchOptions.t :=
  {| SearchOptions.query := query; SearchOptions.folder := None;
     SearchOptions.from := None; SearchOptions.to := None;
     SearchOptions.date_start := None; SearchOptions.date_end := None |}.

(** No two folder rows share an id or a name. *)
Definition unique_folders (rows : list Folders.row) : Prop :=
  NoDup (map Folders.id rows) /\ NoDup (map Folders.name rows).

(** ** The request router ([index.ts] of the worker and [routes/auth.ts]) *)
Module Router.

(** The texts the model of [slugify] is for: every character below 128. *)
Definition ascii_text (s : string) : bool :=
  JS.all_chars (fun c => JS.charCode c <? 128) s.

(** [text.toLowerCase()], [\s] and [\w] on ASCII text. *)
Definition toLowerCase (s : string) : string :=
  string_of_list_ascii (map fold_case (list_ascii_of_string s)).

Definition is_space (c : ascii) : bool :=
  let n := JS.charCode c in
  (n =? 32) || ((9 <=? n) && (n <=? 13)).

Definition is_word (c : ascii) : bool :=
  let n := JS.charCode c in
  ((48 <=? n) && (n <=? 57)) || ((65 <=? n) && (n <=? 90)) ||
  ((97 <=? n) && (n <=? 122)) || (n =? 95).

Definition dash : ascii := "-"%char.

(** [s.replace(/\s+/g, "-")]: [in_run] says that the previous character was
    a space. *)
Fixpoint spaces_to_dash (in_run : bool) (s : string) : string :=
  match s with
  | EmptyString => EmptyString
  | String c rest =>
      if is_space c then
        if in_run then spaces_to_dash true rest
        else String dash (spaces_to_dash true rest)
      else String c (spaces_to_dash false rest)
  end.

(** [s.replace(/[^\w-]+/g, "")]. *)
Definition keep_word_chars (s : string) : string :=
  JS.filter_chars (fun c => is_word c || Ascii.eqb c dash) s.

(** [s.replace(/--+/g, "-")]: [in_run] says that the previous character was
    a dash. *)
Fixpoint squeeze_dashes (in_run : bool) (s : string) : string :=
  match s with
  | EmptyString => EmptyString
  | String c rest =>
      if Ascii.eqb c dash then
        if in_run then squeeze_dashes true rest
        else String dash (squeeze_dashes true rest)
      else String c (squeeze_dashes false rest)
  end.

(** [s.replace(/^-+/, "")] and [s.replace(/-+$/, "")]. *)
Fixpoint trim_start (s : string) : string :=
  match s with
  | String c rest => if Ascii.eqb c dash then trim_start rest else s
  | EmptyString => EmptyString
  end.

Fixpoint trim_end (s : string) : string :=
  match s with
  | EmptyString => EmptyString
  | String c rest =>
      match trim_end rest with
      | EmptyString => if Ascii.eqb c dash then EmptyString else String c EmptyString
      | String c' rest' => String c (String c' rest')
      end
  end.

(** [slugify(text)], for ASCII text. *)
Definition slugify (text : string) : string :=
  trim_end
    (trim_start
       (squeeze_dashes false
          (keep_word_chars (spaces_to_dash false (toLowerCase text))))).

(** The texts [slugify] returns: lower-case letters, digits, [_] and
    single dashes between them. *)
Definition slug_char (c : ascii) : bool :=
  let n := JS.charCode c in
  ((97 <=? n) && (n <=? 122)) || ((48 <=? n) && (n <=? 57)) || (n =? 95) ||
  Ascii.eqb c dash.

Definition starts_with_dash (s : string) : bool :=
  match s with
  | String c _ => Ascii.eqb c dash
  | EmptyString => false
  end.

Fixpoint ends_with_dash (s : string) : bool :=
  match s with
  | EmptyString => false
  | String c EmptyString => Ascii.eqb c dash
  | String _ rest => ends_with_dash rest
  end.

Fixpoint has_double_dash (s : string) : bool :=
  match s with
  | EmptyString => false
  | String c rest =>
      (Ascii.eqb c dash && starts_with_dash rest) || has_double_dash rest
  end.

Definition is_slug (s : string) : bool :=
  JS.all_chars slug_char s && negb (starts_with_dash s) &&
  negb (ends_with_dash s) && negb (has_double_dash s).

(** The characters of [s] up to the first [;]. *)
Fixpoint until_semicolon (s : string) : string :=
  match s with
  | EmptyString => EmptyString
  | String c rest =>
      if Ascii.eqb c ";" then EmptyString else String c (until_semicolon rest)
  end.

(** [cookie.match(/session=([^;]+)/)]: the group of the leftmost match. *)
Fixpoint session_cookie (cookie : string) : option string :=
  match cookie with
  | EmptyString => None
  | String _ rest =>
      if String.prefix "session=" cookie then
        match until_semicolon (substring 8 (String.length cookie - 8) cookie) with
        | EmptyString => session_cookie rest
        | String c token => Some (String c token)
        end
      else session_cookie rest
  end.

(** The texts a cookie can carry as they are: those without [;]. *)
Definition no_semicolon (s : string) : bool :=
  JS.all_chars (fun c => negb (Ascii.eqb c ";")) s.

(** [getSessionToken], on the values of the headers [Authorization] and
    [Cookie]. *)
Definition getSessionToken (authorization cookie : option string)
  : option string :=
  let from_cookie :=
    match truthy cookie with
    | Some c => session_cookie c
    | None => None
    end in
  match authorization with
  | Some authHeader =>
      if String.prefix "Bearer " authHeader
      then Some (substring 7 (String.length authHeader - 7) authHeader)
      else from_cookie
  | None => from_cookie
  end.

Definition publicRoutes : list string :=
  ["/api/v1/auth/register"; "/api/v1/auth/login";
   "/api/v1/auth/forgot-password"; "/api/v1/auth/reset-password";
   "/api/v1/settings"; "/api/docs"; "/api/openapi.json"].

Definition isPublicRoute (pathname : string) : bool :=
  existsb (fun route => String.prefix route pathname) publicRoutes.

Definition authRoutes : list string :=
  ["/api/v1/auth/me"; "/api/v1/auth/logout"; "/api/v1/auth/admin"].

Definition requiresSession (pathname : string) : bool :=
  existsb (fun route => String.prefix route pathname) authRoutes.

(** [needsAuth] in [fetch]; [enabled] is [options.auth?.enabled]. *)
Definition needsAuth (enabled : option bool) (pathname : string) : bool :=
  let isApiRoute := String.prefix "/api/" pathname in
  (isApiRoute &&
   (negb (match enabled with Some false => true | _ => false end) &&
    negb (isPublicRoute pathname))) ||
  requiresSession pathname.

(** A response: [c.json(value, status)], [c.json({ error: message }, status)]
    or [c.body(null, status)]. *)
Inductive Reply (A : Type) : Type :=
| Json (status : Z) (value : A)
| Error (status : Z) (message : string)
| Empty (status : Z).

Arguments Json {A} status value.
Arguments Error {A} status message.
Arguments Empty {A} status.

(** What [fetch] decides before it routes a request to [/api/]: the answer
    401, or the routing with the session it has set in the context. *)
Inductive Admission : Type :=
| Unauthorized
| Routed (session : option Session.t).

Section Handlers.

Context {platform : Platform}.

(** The router's [validateSession(request, env)]: the AUTH store's
    [validateSession] with every exception turned into null. *)
Definition validateSession (authorization cookie : option string)
  : DO (option Session.t) :=
  match truthy (getSessionToken authorization cookie) with
  | None => ret None
  | Some token => try_catch (validateSession token) (fun _ => ret None)
  end.

(** [bootstrapDefaultAdmins], which [fetch] runs before anything else. *)
Definition bootstrapDefaultAdmins : DO unit := ensureDefaultAdmins.

(** [fetch] on a request to a path under [/api/], up to the routing, on the
    world of the AUTH store. *)
Definition authorize (enabled : option bool) (pathname : string)
  (authorization cookie : option string) : DO Admission :=
  bootstrapDefaultAdmins ;;;
  if needsAuth enabled pathname then
    session <- validateSession authorization cookie ;;
    match session with
    | None => ret Unauthorized
    | Some s => ret (Routed (Some s))
    end
  else ret (Routed None).




(** [PostAdminRegister.handle]; [session] is [c.get("session")]. *)
Definition PostAdminRegister (session : option Session.t)
  (email password : string) : DO (Reply User.t) :=
  match session with
  | None => ret (Error 401 "Unauthorized")
  | Some s =>
      if negb (Session.isAdmin s)
      then ret (Error 403 "Admin privileges required")
      else
        try_catch
          (user <- register email password false ;;
           ret (Json 201 user))
          (fun message =>
             if JS.includes message "UNIQUE constraint failed"
             then ret (Error 400 "Email already registered")
             else ret (Error 400 "Registration failed"))
  end.

End Handlers.


Definition PostMoveEmail (known : bool) (id folderId : string)
  : DO (Reply string) :=
  if negb known then ret (Error 404 "Not found")
  else
    success <- moveEmail id folderId ;;
    if negb success then ret (Error 400 "Folder not found")
    else ret (Json 200 "moved").

End Router.

(** ** More concrete worlds *)
Module Scenario.

(** The engine with its defaults: flags 0, no thread columns, [LIKE]
    folding the case of the ASCII letters. *)
Definition sqlite : Engine := {|
  default_read := 0;
  default_starred := 0;
  default_in_reply_to := None;
  default_email_references := None;
  default_thread_id := None;
  like_fold := fold_case
|}.

Definition mailbox_world : World := Sample.world (MailboxDB Sample.mailbox) 0.

(** An email as the receive path gives it, and two attachments of it. *)
Definition letter : EmailData.t :=
  {| EmailData.id := "e9"; EmailData.subject := "Quarterly Report";
     EmailData.sender := "carol@x.com"; EmailData.recipient := "b@x.com";
     EmailData.date := "2024-02-01"; EmailData.body := "See the figures";
     EmailData.in_reply_to := Undefined;
     EmailData.email_references := Undefined;
     EmailData.thread_id := Undefined |}.

(** An email as the send path gives it, with an id the mailbox holds. *)
Definition duplicate : EmailData.t :=
  {| EmailData.id := "e2"; EmailData.subject := "Again";
     EmailData.sender := "a@x.com"; EmailData.recipient := "b@x.com";
     EmailData.date := "2024-03-01"; EmailData.body := "Body";
     EmailData.in_reply_to := Given None;
     EmailData.email_references := Given None;
     EmailData.thread_id := Given (Some "e2") |}.

Definition enclosures : list Attachments.row :=
  [Sample.attachment_row "a9" "e9" "figures.csv";
   Sample.attachment_row "a10" "e9" "notes.txt"].

(** A mailbox with a folder "archive" that holds one email. *)
Definition archive : MailboxTables :=
  {| emails := [Sample.email_row "e1" "2024-01-01" "archive"];
     folders := Sample.seeded_folders ++ [Sample.folder_row "archive" "Archive" 1];
     attachments := [] |}.

Definition archive_world : World := Sample.world (MailboxDB archive) 0.

(** The AUTH store after a first registration at time 5000. *)
Definition registered_tables : AuthTables :=
  {| users := [Sample.registered_user]; sessions := []; user_mailboxes := [] |}.

Definition registered : World :=
  {| storage := AuthDB registered_tables; clock := 5000;
     entropy := Sample.random_octet; drawn := 32 |}.

Definition first_user : User.t :=
  {| User.id := "030a1118-1f26-4d34-bb42-4950575e656c"; User.email := "a@x.com";
     User.isAdmin := true; User.createdAt := 5000; User.updatedAt := 5000 |}.

(** The session of the login at time 6000, and its token. *)
Definition token : string := "e3eaf1f8-ff06-4d14-9b22-2930373e454c".

Definition session : Session.t :=
  {| Session.id := token;
     Session.userId := "030a1118-1f26-4d34-bb42-4950575e656c";
     Session.email := "a@x.com"; Session.isAdmin := true;
     Session.expiresAt := 2592006000 |}.

Definition cookie : string :=
  "session=e3eaf1f8-ff06-4d14-9b22-2930373e454c; HttpOnly; Secure; SameSite=Strict; Path=/; Max-Age=2592000".

Definition alice_world : World := Sample.world (AuthDB Sample.alice_tables) 1000.

Definition empty_world : World := Sample.world (AuthDB Sample.empty_auth) 5000.

End Scenario.

(** * Properties

    ** Strings *)
Module JSFacts.

Lemma string_triples (P : string -> Prop) :
  P EmptyString ->
  (forall a, P (String a EmptyString)) ->
  (forall a b, P (String a (String b EmptyString))) ->
  (forall a b c rest, P rest -> P (String a (String b (String c rest)))) ->
  forall s, P s.
Proof.
  intros H0 H1 H2 H3.
  fix IH 1.
  intros [|a [|b [|c rest]]].
  - exact H0.
  - apply H1.
  - apply H2.
  - apply H3, IH.
Qed.

Lemma charCode_range (a : ascii) : 0 <= JS.charCode a < 256.
Proof.
  unfold JS.charCode. pose proof (N_ascii_bounded a). lia.
Qed.

Lemma fromCharCode_charCode (a : ascii) : JS.fromCharCode (JS.charCode a) = a.
Proof.
  unfold JS.fromCharCode, JS.charCode.
  rewrite N2Z.id. apply ascii_N_embedding.
Qed.

Lemma append_empty_r (s : string) : (s ++ EmptyString)%string = s.
Proof. induction s as [|c s IH]; simpl; congruence. Qed.

Lemma rev_onto_app (s t acc : string) :
  JS.rev_onto (s ++ t) acc = JS.rev_onto t (JS.rev_onto s acc).
Proof.
  revert acc. induction s as [|c s IH]; intros acc; simpl; auto.
Qed.

Lemma rev_onto_rev_onto (s acc : string) :
  JS.rev_onto (JS.rev_onto s acc) EmptyString = JS.rev_onto acc s.
Proof.
  revert acc. induction s as [|c s IH]; intros acc; simpl; auto.
Qed.

Lemma reverse_involutive (s : string) : JS.reverse (JS.reverse s) = s.
Proof.
  unfold JS.reverse. rewrite rev_onto_rev_onto. reflexivity.
Qed.

Lemma all_chars_rev_onto (p : ascii -> bool) (s acc : string) :
  JS.all_chars p s = true -> JS.all_chars p acc = true ->
  JS.all_chars p (JS.rev_onto s acc) = true.
Proof.
  revert acc. induction s as [|c s IH]; intros acc Hs Hacc; simpl in *; auto.
  apply andb_true_iff in Hs as [Hc Hs].
  apply IH; auto. simpl. now rewrite Hc.
Qed.

Lemma all_chars_app (p : ascii -> bool) (s t : string) :
  JS.all_chars p (s ++ t) = JS.all_chars p s && JS.all_chars p t.
Proof.
  induction s as [|c s IH]; simpl; auto. rewrite IH. apply andb_assoc.
Qed.

Lemma all_chars_weaken (p q : ascii -> bool) (s : string) :
  (forall c, p c = true -> q c = true) ->
  JS.all_chars p s = true -> JS.all_chars q s = true.
Proof.
  intros Hpq. induction s as [|c s IH]; simpl; auto.
  intros H. apply andb_true_iff in H as [Hc Hs].
  rewrite (Hpq _ Hc), (IH Hs). reflexivity.
Qed.

Lemma filter_chars_all (p : ascii -> bool) (s : string) :
  JS.all_chars p s = true -> JS.filter_chars p s = s.
Proof.
  induction s as [|c s IH]; simpl; auto.
  intros H. apply andb_true_iff in H as [Hc Hs].
  rewrite Hc, (IH Hs). reflexivity.
Qed.

(** A string without the separator is a single piece. *)
Lemma split_none (sep : ascii) (s : string) :
  JS.all_chars (fun c => negb (Ascii.eqb c sep)) s = true ->
  JS.split sep s = [s].
Proof.
  induction s as [|c s IH]; simpl; auto.
  intros H. apply andb_true_iff in H as [Hc Hs].
  apply negb_true_iff in Hc. rewrite Hc, (IH Hs). reflexivity.
Qed.

(** Splitting at the first separator. *)
Lemma split_app (sep : ascii) (s t : string) :
  JS.all_chars (fun c => negb (Ascii.eqb c sep)) s = true ->
  JS.split sep (s ++ String sep t) = s :: JS.split sep t.
Proof.
  induction s as [|c s IH]; simpl.
  - intros _. now rewrite Ascii.eqb_refl.
  - intros H. apply andb_true_iff in H as [Hc Hs].
    apply negb_true_iff in Hc. rewrite Hc, (IH Hs). reflexivity.
Qed.

End JSFacts.

(** ** Base64 *)
Module Base64Facts.
Import JSFacts.

Lemma sextet_in (d : Z) : 0 <= d < 64 -> In d Base64.sextets.
Proof.
  intros H. unfold Base64.sextets.
  replace d with (Z.of_nat (Z.to_nat d)) by lia.
  apply in_map, in_seq. lia.
Qed.

Lemma digit_table :
  forallb (fun d =>
    match Base64.char_digit (Base64.digit_char d) with
    | Some d' => d' =? d
    | None => false
    end) Base64.sextets = true.
Proof. vm_compute. reflexivity. Qed.

Lemma char_digit_digit_char (d : Z) :
  0 <= d < 64 -> Base64.char_digit (Base64.digit_char d) = Some d.
Proof.
  intros H. pose proof digit_table as T.
  rewrite forallb_forall in T. specialize (T d (sextet_in d H)).
  destruct (Base64.char_digit (Base64.digit_char d)); try discriminate.
  apply Z.eqb_eq in T. now subst.
Qed.

Lemma digit_char_alphabet (d : Z) :
  0 <= d < 64 -> Base64.is_alphabet (Base64.digit_char d) = true.
Proof.
  intros H. unfold Base64.is_alphabet. now rewrite char_digit_digit_char.
Qed.

Lemma group3_range (a b c : ascii) : 0 <= Base64.group3 a b c < 16777216.
Proof.
  unfold Base64.group3.
  pose proof (charCode_range a). pose proof (charCode_range b).
  pose proof (charCode_range c). lia.
Qed.

Lemma charCode_zero : JS.charCode Base64.zero = 0.
Proof. reflexivity. Qed.

(** The four sextets of a 24-bit group. *)
Lemma sextets_of_group (n : Z) :
  0 <= n < 16777216 ->
  0 <= n / 262144 < 64 /\ 0 <= (n / 4096) mod 64 < 64 /\
  0 <= (n / 64) mod 64 < 64 /\ 0 <= n mod 64 < 64.
Proof.
  intros H. repeat split; Z.div_mod_to_equations; lia.
Qed.

Lemma regroup4 (n : Z) :
  0 <= n < 16777216 ->
  ((n / 262144 * 64 + (n / 4096) mod 64) * 64 + (n / 64) mod 64) * 64 + n mod 64
  = n.
Proof. intros H. Z.div_mod_to_equations. lia. Qed.

Lemma regroup3 (n : Z) :
  0 <= n < 16777216 ->
  ((n / 262144 * 64 + (n / 4096) mod 64) * 64 + (n / 64) mod 64) / 4 = n / 256.
Proof. intros H. Z.div_mod_to_equations. lia. Qed.

Lemma regroup2 (n : Z) :
  0 <= n < 16777216 ->
  (n / 262144 * 64 + (n / 4096) mod 64) / 16 = n / 65536.
Proof. intros H. Z.div_mod_to_equations. lia. Qed.

Lemma octets_of_group (a b c : ascii) :
  let n := Base64.group3 a b c in
  n / 65536 = JS.charCode a /\ (n / 256) mod 256 = JS.charCode b /\
  n mod 256 = JS.charCode c.
Proof.
  unfold Base64.group3.
  pose proof (charCode_range a). pose proof (charCode_range b).
  pose proof (charCode_range c).
  cbv zeta. repeat split; Z.div_mod_to_equations; lia.
Qed.

Lemma octets_of_group2 (a b : ascii) :
  let n := Base64.group3 a b Base64.zero / 256 in
  n / 256 = JS.charCode a /\ n mod 256 = JS.charCode b.
Proof.
  unfold Base64.group3. rewrite charCode_zero.
  pose proof (charCode_range a). pose proof (charCode_range b).
  cbv zeta. repeat split; Z.div_mod_to_equations; lia.
Qed.

Lemma octets_of_group1 (a : ascii) :
  Base64.group3 a Base64.zero Base64.zero / 65536 = JS.charCode a.
Proof.
  unfold Base64.group3. rewrite charCode_zero.
  pose proof (charCode_range a). Z.div_mod_to_equations; lia.
Qed.

(** Decoding the unpadded text gives the octets back. *)
Lemma decode_unpadded (s : string) :
  Base64.decode_digits (Base64.unpadded s) = Some s.
Proof.
  induction s as [|a|a b|a b c rest IH] using string_triples.
  - reflexivity.
  - cbn [Base64.unpadded Base64.decode_digits].
    pose proof (group3_range a Base64.zero Base64.zero) as R.
    destruct (sextets_of_group _ R) as (D1 & D2 & _ & _).
    rewrite !char_digit_digit_char by assumption.
    cbv zeta. rewrite (regroup2 _ R), octets_of_group1, fromCharCode_charCode.
    reflexivity.
  - cbn [Base64.unpadded Base64.decode_digits].
    pose proof (group3_range a b Base64.zero) as R.
    destruct (sextets_of_group _ R) as (D1 & D2 & D3 & _).
    rewrite !char_digit_digit_char by assumption.
    cbv zeta. rewrite (regroup3 _ R).
    destruct (octets_of_group2 a b) as (E1 & E2).
    rewrite E1, E2, !fromCharCode_charCode. reflexivity.
  - cbn [Base64.unpadded Base64.decode_digits].
    pose proof (group3_range a b c) as R.
    destruct (sextets_of_group _ R) as (D1 & D2 & D3 & D4).
    rewrite !char_digit_digit_char by assumption.
    cbv zeta. rewrite (regroup4 _ R), IH.
    destruct (octets_of_group a b c) as (E1 & E2 & E3).
    rewrite E1, E2, E3, !fromCharCode_charCode. reflexivity.
Qed.

Lemma unpadded_alphabet (s : string) :
  JS.all_chars Base64.is_alphabet (Base64.unpadded s) = true.
Proof.
  induction s as [|a|a b|a b c rest IH] using string_triples.
  - reflexivity.
  - cbn [Base64.unpadded JS.all_chars].
    destruct (sextets_of_group _ (group3_range a Base64.zero Base64.zero))
      as (D1 & D2 & _ & _).
    rewrite !digit_char_alphabet by assumption. reflexivity.
  - cbn [Base64.unpadded JS.all_chars].
    destruct (sextets_of_group _ (group3_range a b Base64.zero))
      as (D1 & D2 & D3 & _).
    rewrite !digit_char_alphabet by assumption. reflexivity.
  - cbn [Base64.unpadded JS.all_chars].
    destruct (sextets_of_group _ (group3_range a b c)) as (D1 & D2 & D3 & D4).
    rewrite !digit_char_alphabet by assumption. rewrite IH. reflexivity.
Qed.

Lemma btoa_unpadded (s : string) :
  Base64.btoa s = (Base64.unpadded s ++ Base64.padding s)%string.
Proof.
  induction s as [|a|a b|a b c rest IH] using string_triples;
    try reflexivity.
  cbn [Base64.btoa Base64.unpadded Base64.padding String.append].
  rewrite IH. reflexivity.
Qed.

Lemma btoa_length (s : string) :
  Z.of_nat (String.length (Base64.btoa s)) mod 4 = 0.
Proof.
  induction s as [|a|a b|a b c rest IH] using string_triples;
    try reflexivity.
  cbn [Base64.btoa String.length].
  replace (Z.of_nat (S (S (S (S (String.length (Base64.btoa rest)))))))
    with (Z.of_nat (String.length (Base64.btoa rest)) + 1 * 4) by lia.
  rewrite Z_mod_plus_full. exact IH.
Qed.

Lemma padding_cases (s : string) :
  Base64.padding s = EmptyString \/
  Base64.padding s = String Base64.pad EmptyString \/
  Base64.padding s = String Base64.pad (String Base64.pad EmptyString).
Proof.
  induction s as [|a|a b|a b c rest IH] using string_triples; simpl; auto.
Qed.

(** The characters [btoa] never produces where it matters. *)
Lemma alphabet_not (x : ascii) (c : ascii) :
  Base64.is_alphabet x = false -> Base64.is_alphabet c = true ->
  Ascii.eqb c x = false.
Proof.
  intros Hx Hc. destruct (Ascii.eqb_spec c x); auto. congruence.
Qed.

Lemma strip_padding_unpadded (u p : string) :
  JS.all_chars Base64.is_alphabet u = true ->
  p = EmptyString \/ p = String Base64.pad EmptyString \/
  p = String Base64.pad (String Base64.pad EmptyString) ->
  Base64.strip_padding (u ++ p) = u.
Proof.
  intros Hu Hp.
  assert (Hr : JS.all_chars Base64.is_alphabet (JS.reverse u) = true)
    by (apply all_chars_rev_onto; auto).
  assert (Hpad : forall c, Base64.is_alphabet c = true ->
                           Ascii.eqb c Base64.pad = false)
    by (intros c; apply alphabet_not; reflexivity).
  pose proof (reverse_involutive u) as Hinv.
  unfold Base64.strip_padding.
  replace (JS.reverse (u ++ p)) with (JS.rev_onto p (JS.reverse u))
    by (unfold JS.reverse; now rewrite rev_onto_app).
  destruct Hp as [-> | [-> | ->]]; cbn [JS.rev_onto]; rewrite ?Ascii.eqb_refl.
  - rewrite append_empty_r.
    destruct (JS.reverse u) as [|p1 [|p2 r]]; auto;
      cbn [JS.all_chars] in Hr; apply andb_true_iff in Hr as [H1 _];
      now rewrite (Hpad _ H1).
  - destruct (JS.reverse u) as [|p2 r].
    + now rewrite <- Hinv.
    + cbn [JS.all_chars] in Hr. apply andb_true_iff in Hr as [H1 _].
      now rewrite (Hpad _ H1).
  - exact Hinv.
Qed.

Lemma alphabet_or_pad_btoa (s : string) :
  JS.all_chars (fun c => Base64.is_alphabet c || Ascii.eqb c Base64.pad)
    (Base64.btoa s) = true.
Proof.
  rewrite btoa_unpadded, all_chars_app.
  rewrite (all_chars_weaken Base64.is_alphabet _ _
             (fun c H => orb_true_intro _ _ (or_introl H))
             (unpadded_alphabet s)).
  destruct (padding_cases s) as [-> | [-> | ->]]; reflexivity.
Qed.

(** No character of [btoa s] is [x], for [x] outside the alphabet and not
    the padding character. *)
Lemma btoa_avoids (x : ascii) (s : string) :
  Base64.is_alphabet x = false -> Ascii.eqb Base64.pad x = false ->
  JS.all_chars (fun c => negb (Ascii.eqb c x)) (Base64.btoa s) = true.
Proof.
  intros Hx Hp.
  refine (all_chars_weaken _ _ _ _ (alphabet_or_pad_btoa s)).
  intros c H. apply orb_true_iff in H as [H | H].
  - now rewrite (alphabet_not x c Hx H).
  - apply Ascii.eqb_eq in H. subst c. now rewrite Hp.
Qed.

Lemma btoa_no_whitespace (s : string) :
  JS.all_chars (fun c => negb (Base64.is_whitespace c)) (Base64.btoa s) = true.
Proof.
  refine (all_chars_weaken _ _ _ _ (alphabet_or_pad_btoa s)).
  intros c H. apply negb_true_iff.
  destruct (Base64.is_whitespace c) eqn:W; auto.
  unfold Base64.is_whitespace in W.
  assert (In (JS.charCode c) [9; 10; 12; 13; 32]) as Hin.
  { repeat (apply orb_true_iff in W as [W | W]);
      apply Z.eqb_eq in W; rewrite W; simpl; auto 6. }
  assert (In c (map JS.fromCharCode [9; 10; 12; 13; 32])) as Hc.
  { rewrite <- (fromCharCode_charCode c). now apply in_map. }
  simpl in Hc.
  repeat (destruct Hc as [<- | Hc]; [discriminate H|]). destruct Hc.
Qed.

(** [atob] undoes [btoa]. *)
Theorem atob_btoa (s : string) : Base64.atob (Base64.btoa s) = Some s.
Proof.
  unfold Base64.atob.
  rewrite (filter_chars_all _ _ (btoa_no_whitespace s)).
  rewrite btoa_length. cbn [Z.eqb].
  rewrite btoa_unpadded.
  rewrite (strip_padding_unpadded _ _ (unpadded_alphabet s) (padding_cases s)).
  apply decode_unpadded.
Qed.

Lemma btoa_nonempty (a : ascii) (s : string) :
  Base64.btoa (String a s) <> EmptyString.
Proof. destruct s as [|b [|c rest]]; discriminate. Qed.

End Base64Facts.

(** Running a method in a world whose storage is known. *)
Ltac known_storage H :=
  match type of H with
  | storage ?w = _ =>
      let s := fresh "s" in
      let now := fresh "now" in
      let random := fresh "random" in
      let used := fresh "used" in
      destruct w as [s now random used]; cbn [storage] in H; subst s
  end.

Ltac run_method :=
  cbv beta delta
    [bind ret throw try_catch one select count insert update delete
     isAuthDO Date_now users_table sessions_table user_mailboxes_table
     folders_table emails_table attachments_table
     auth_rows mailbox_rows on_auth on_mailbox with_storage with_clock
     with_drawn no_such_table];
  cbn [storage clock entropy drawn table_name rows_of put_rows violation
       on_delete negb users sessions user_mailboxes emails folders
       attachments].


(** ** Lists and queries *)
Module QueryFacts.

Lemma hd_error_filter {A : Type} (p : A -> bool) (l : list A) :
  hd_error (filter p l) = find p l.
Proof.
  induction l as [|x l IH]; simpl; auto. destruct (p x); auto.
Qed.

Lemma find_filter_negb {A : Type} (p : A -> bool) (l : list A) :
  find p (filter (fun x => negb (p x)) l) = None.
Proof.
  induction l as [|x l IH]; simpl; auto.
  destruct (p x) eqn:E; simpl; auto. now rewrite E.
Qed.

Lemma has_key_find {R : Type} (key : R -> string) (k : string) (rows : list R) :
  has_key key k rows = true <->
  exists r, find (fun r => String.eqb (key r) k) rows = Some r.
Proof.
  unfold has_key. induction rows as [|x rows IH]; simpl.
  - split; [discriminate | intros [r H]; discriminate].
  - destruct (String.eqb (key x) k); simpl.
    + split; eauto.
    + exact IH.
Qed.

Lemma has_key_in {R : Type} (key : R -> string) (k : string) (rows : list R) :
  has_key key k rows = true <-> In k (map key rows).
Proof.
  unfold has_key. rewrite existsb_exists, in_map_iff.
  split; intros [r [H1 H2]]; exists r.
  - apply String.eqb_eq in H2. auto.
  - split; auto. now apply String.eqb_eq.
Qed.

Lemma has_key_false_find {R : Type} (key : R -> string) (k : string)
  (rows : list R) :
  has_key key k rows = false ->
  find (fun r => String.eqb (key r) k) rows = None.
Proof.
  intros H. destruct (find _ rows) as [r|] eqn:E; auto.
  assert (has_key key k rows = true) by (apply has_key_find; eauto).
  congruence.
Qed.

Lemma find_app_None {A : Type} (p : A -> bool) (l l' : list A) :
  find p l = None -> find p (l ++ l') = find p l'.
Proof.
  induction l as [|x l IH]; simpl; auto.
  destruct (p x); [discriminate | exact IH].
Qed.

Lemma NoDup_key_snoc {R : Type} (key : R -> string) (r : R) (rows : list R) :
  NoDup (map key rows) -> has_key key (key r) rows = false ->
  NoDup (map key (rows ++ [r])).
Proof.
  intros Hnd Hk. rewrite map_app. cbn [map].
  apply (Permutation_NoDup (Permutation_cons_append (map key rows) (key r))).
  constructor; auto.
  intros Hin. apply has_key_in in Hin. congruence.
Qed.
Lemma has_key_app {R : Type} (key : R -> string) (k : string) (l l' : list R) :
  has_key key k (l ++ l') = has_key key k l || has_key key k l'.
Proof. apply existsb_app. Qed.

Lemma has_key_filter_same {R : Type} (key : R -> string) (k k' : string)
  (rows : list R) :
  has_key key k' (filter (fun r => String.eqb (key r) k) rows)
  = String.eqb k' k && has_key key k rows.
Proof.
  unfold has_key. induction rows as [|x rows IH]; simpl.
  - now rewrite andb_false_r.
  - destruct (String.eqb_spec (key x) k) as [E|E]; simpl.
    + rewrite IH, E. rewrite (String.eqb_sym k k').
      destruct (String.eqb k' k); reflexivity.
    + exact IH.
Qed.

Lemma filter_ext_in_bool {A : Type} (p q : A -> bool) (l : list A) :
  (forall x, In x l -> p x = q x) -> filter p l = filter q l.
Proof.
  induction l as [|x l IH]; simpl; auto. intros H.
  rewrite (H x (or_introl eq_refl)), IH; auto.
Qed.

Lemma filter_true {A : Type} (l : list A) : filter (fun _ => true) l = l.
Proof. induction l as [|x l IH]; simpl; congruence. Qed.

Lemma filter_false {A : Type} (l : list A) : filter (fun _ => false) l = [].
Proof. induction l as [|x l IH]; simpl; congruence. Qed.

Lemma insert_by_perm {R : Type} (leb : R -> R -> bool) (x : R) (l : list R) :
  Permutation (insert_by leb x l) (x :: l).
Proof.
  induction l as [|y l IH]; simpl; auto.
  destruct (leb x y); auto.
  rewrite IH. apply perm_swap.
Qed.

Lemma sort_by_perm {R : Type} (leb : R -> R -> bool) (l : list R) :
  Permutation (sort_by leb l) l.
Proof.
  unfold sort_by. induction l as [|x l IH]; simpl; auto.
  rewrite insert_by_perm. now constructor.
Qed.



End QueryFacts.

(** ** Password hashing *)
Section PasswordFacts.

Context {platform : Platform}.

Lemma hashPassword_run (password : string) (w : World) :
  hashPassword password w =
  Returned (stored_hash (next_octets 16 w) password)
           (with_drawn (drawn w + 16) w).
Proof. reflexivity. Qed.

Lemma derived_bits_nonempty (salt password : string) :
  derived_bits salt password <> EmptyString.
Proof. discriminate. Qed.

Lemma next_octets_nonempty (n : nat) (w : World) :
  next_octets (S n) w <> EmptyString.
Proof. discriminate. Qed.

Lemma next_octets_length (n : nat) (w : World) :
  String.length (next_octets n w) = n.
Proof.
  unfold next_octets. generalize (drawn w). 
  induction n as [|n IH]; intros d; simpl; auto.
Qed.

Lemma split_stored (a b : string) :
  JS.split ":" (Base64.btoa a ++ ":" ++ Base64.btoa b)
  = [Base64.btoa a; Base64.btoa b].
Proof.
  change (Base64.btoa a ++ ":" ++ Base64.btoa b)%string
    with (Base64.btoa a ++ String ":" (Base64.btoa b))%string.
  rewrite JSFacts.split_app by (apply Base64Facts.btoa_avoids; reflexivity).
  rewrite JSFacts.split_none by (apply Base64Facts.btoa_avoids; reflexivity).
  reflexivity.
Qed.

Lemma falsy_btoa (s : string) :
  s <> EmptyString -> JS.falsy (Some (Base64.btoa s)) = false.
Proof.
  destruct s as [|a s]; [congruence|]. intros _.
  pose proof (Base64Facts.btoa_nonempty a s).
  destruct (Base64.btoa (String a s)); [congruence | reflexivity].
Qed.

(** Verification against a stored hash compares the bits derived with the
    stored salt. *)
Lemma verifyPassword_stored (candidate salt password : string) (w : World) :
  salt <> EmptyString ->
  verifyPassword candidate (stored_hash salt password) w =
  Returned (String.eqb (Base64.btoa (derived_bits salt candidate))
                       (Base64.btoa (derived_bits salt password))) w.
Proof.
  intros Hsalt. unfold verifyPassword, stored_hash.
  rewrite split_stored. cbn [nth_error or_default].
  rewrite (falsy_btoa _ Hsalt),
    (falsy_btoa _ (derived_bits_nonempty salt password)).
  cbn [orb]. rewrite Base64Facts.atob_btoa. reflexivity.
Qed.

(** Verification returns or throws, and leaves the world as it was. *)
Lemma verifyPassword_pure (password hash : string) (w : World) :
  (exists b, verifyPassword password hash w = Returned b w) \/
  verifyPassword password hash w = Thrown "InvalidCharacterError" w.
Proof.
  unfold verifyPassword.
  destruct (JS.falsy _ || JS.falsy _); [left; eexists; reflexivity|].
  destruct (Base64.atob _); [left; eexists; reflexivity | right; reflexivity].
Qed.

End PasswordFacts.

(** ** Sessions *)
Section SessionFacts.

Lemma validateSession_unknown (w : World) (t : AuthTables) (sessionId : string) :
  storage w = AuthDB t ->
  find (fun s => String.eqb (Sessions.id s) sessionId) (sessions t) = None ->
  validateSession sessionId w = Returned None w.
Proof.
  intros Hs Hf. known_storage Hs.
  unfold validateSession. run_method.
  rewrite QueryFacts.hd_error_filter, Hf. reflexivity.
Qed.

(** With its user row present, a session is returned until it expires and
    deleted at the first validation after that. *)
Lemma validateSession_cases
  (w : World) (t : AuthTables) (sessionId : string)
  (session : Sessions.row) (user : Users.row) :
  storage w = AuthDB t ->
  find (fun s => String.eqb (Sessions.id s) sessionId) (sessions t)
    = Some session ->
  find (fun u => String.eqb (Users.id u) (Sessions.user_id session)) (users t)
    = Some user ->
  (clock w <= Sessions.expires_at session ->
   validateSession sessionId w =
   Returned (Some {| Session.id := Sessions.id session;
                     Session.userId := Sessions.user_id session;
                     Session.email := Users.email user;
                     Session.isAdmin := Users.is_admin user =? 1;
                     Session.expiresAt := Sessions.expires_at session |}) w) /\
  (Sessions.expires_at session < clock w ->
   let w' := with_storage (AuthDB (without_session sessionId t)) w in
   validateSession sessionId w = Returned None w' /\
   forall now, validateSession sessionId (with_clock now w')
               = Returned None (with_clock now w')) /\
  ((exists s w', validateSession sessionId w = Returned (Some s) w') <->
   clock w <= Sessions.expires_at session).
Proof.
  intros Hs Hsession Huser.
  assert (Hlive : clock w <= Sessions.expires_at session ->
    validateSession sessionId w =
    Returned (Some {| Session.id := Sessions.id session;
                      Session.userId := Sessions.user_id session;
                      Session.email := Users.email user;
                      Session.isAdmin := Users.is_admin user =? 1;
                      Session.expiresAt := Sessions.expires_at session |}) w).
  { intros Hnow. known_storage Hs. cbn [clock] in Hnow.
    unfold validateSession. run_method.
    rewrite QueryFacts.hd_error_filter, Hsession. run_method.
    rewrite (proj2 (Z.ltb_ge _ _) Hnow).
    run_method. rewrite QueryFacts.hd_error_filter, Huser. reflexivity. }
  assert (Hdead : Sessions.expires_at session < clock w ->
    validateSession sessionId w
    = Returned None (with_storage (AuthDB (without_session sessionId t)) w)).
  { intros Hnow. known_storage Hs. cbn [clock] in Hnow.
    unfold validateSession. run_method.
    rewrite QueryFacts.hd_error_filter, Hsession. run_method.
    rewrite (proj2 (Z.ltb_lt _ _) Hnow).
    run_method. reflexivity. }
  split; [exact Hlive|]. split.
  - intros Hnow. cbv zeta. split; [exact (Hdead Hnow)|].
    intros now. apply (validateSession_unknown _ (without_session sessionId t)).
    + reflexivity.
    + apply (QueryFacts.find_filter_negb
               (fun s => String.eqb (Sessions.id s) sessionId)).
  - split.
    + intros (s & w' & Hv).
      destruct (Z.le_gt_cases (clock w) (Sessions.expires_at session)) as [|Hgt];
        auto.
      rewrite (Hdead Hgt) in Hv. discriminate.
    + intros Hnow. eexists. eexists. exact (Hlive Hnow).
Qed.

End SessionFacts.

(** ** Login *)
Section LoginFacts.

Context {platform : Platform}.

Local Abbreviation by_email email :=
  (fun u : Users.row => String.eqb (Users.email u) email).

(** The world a successful login leaves: one more session row, sixteen
    more octets drawn. *)
Local Abbreviation logged_in row t w :=
  (with_storage
     (AuthDB {| users := users t; sessions := sessions t ++ [row];
                user_mailboxes := user_mailboxes t |})
     (with_drawn (drawn w + 16) w)).

(** [login], step by step. *)
Lemma login_run (w : World) (t : AuthTables) (email password : string) :
  storage w = AuthDB t ->
  login email password w =
  match find (by_email email) (users t) with
  | None => Returned None w
  | Some user =>
      match verifyPassword password (Users.password_hash user) w with
      | Thrown message w' => Thrown message w'
      | Returned false _ => Returned None w
      | Returned true _ =>
          if has_key Sessions.id (next_token w) (sessions t)
          then Thrown (unique_failed "sessions" "id")
                      (with_drawn (drawn w + 16) w)
          else Returned
                 (Some (session_of (next_token w) user
                          (clock w + 30 * 24 * 60 * 60 * 1000)))
                 (logged_in (session_row (next_token w) user (clock w)) t w)
      end
  end.
Proof.
  intros Hs.
  pose proof (fun h => verifyPassword_pure password h w) as Hpure.
  known_storage Hs. unfold login. run_method.
  rewrite QueryFacts.hd_error_filter.
  destruct (find _ (users t)) as [user|]; [|reflexivity].
  destruct (Hpure (Users.password_hash user)) as [[b Hv] | Hv]; rewrite Hv;
    [|reflexivity].
  destruct b; [|reflexivity].
  unfold generateToken, randomUUID, getRandomValues. run_method.
  fold (next_octets 16 {| storage := AuthDB t; clock := now;
                          entropy := random; drawn := used |}).
  fold (next_token {| storage := AuthDB t; clock := now;
                      entropy := random; drawn := used |}).
  destruct (has_key Sessions.id _ (sessions t)); reflexivity.
Qed.

Local Abbreviation registered row t w :=
  (with_storage
     (AuthDB {| users := users t ++ [row]; sessions := sessions t;
                user_mailboxes := user_mailboxes t |})
     (with_drawn (drawn w + 16 + 16) w)).

(** The user row a registration inserts. *)
Local Abbreviation user_row w email password isFirstUser :=
  {| Users.id := next_token w; Users.email := email;
     Users.password_hash :=
       stored_hash (next_octets 16 (with_drawn (drawn w + 16) w)) password;
     Users.is_admin := if isFirstUser : bool then 1 else 0;
     Users.created_at := clock w; Users.updated_at := clock w |}.

(** [register], step by step. *)
Lemma register_run (w : World) (t : AuthTables) (email password : string)
  (isFirstUser : bool) :
  storage w = AuthDB t ->
  register email password isFirstUser w =
  let row := user_row w email password isFirstUser in
  match violation users_table row (users t) with
  | Some message => Thrown message (with_drawn (drawn w + 16 + 16) w)
  | None =>
      Returned {| User.id := next_token w; User.email := email;
                  User.isAdmin := isFirstUser; User.createdAt := clock w;
                  User.updatedAt := clock w |}
               (registered row t w)
  end.
Proof.
  intros Hs. known_storage Hs.
  unfold register, randomUUID, hashPassword, getRandomValues. run_method.
  cbv zeta. unfold next_token, next_octets, stored_hash, derived_bits.
  run_method. cbn [Users.id Users.email].
  match goal with
  | |- context [has_key Users.id ?i (users t)] =>
      destruct (has_key Users.id i (users t)); [reflexivity|]
  end.
  match goal with
  | |- context [has_key Users.email ?i (users t)] =>
      destruct (has_key Users.email i (users t)); reflexivity
  end.
Qed.

(** C3: the text [hashPassword] stores is base64(salt) + ":" +
    base64(bits), with a 16-octet salt from the random source and the bits
    PBKDF2 derives with SHA-256 and 100,000 iterations; verification derives
    the bits again with the stored salt and compares the two base64 texts
    for equality, so verifying the same password succeeds; hence after a
    registration that returned, a login with the same email and password
    returns a session (the token drawn for it being a new one). *)
Theorem hashPassword_verifies_and_registered_user_logs_in (password : string) :
  (forall w,
     exists salt,
       salt = next_octets 16 w /\
       String.length salt = 16%nat /\
       hashPassword password w =
         Returned (stored_hash salt password) (with_drawn (drawn w + 16) w) /\
       stored_hash salt password =
         (Base64.btoa salt ++ ":" ++
          Base64.btoa
            (deriveBits {| pbkdf2_salt := salt; pbkdf2_iterations := 100000;
                           pbkdf2_hash := SHA_256 |}
                        (TextEncoder_encode password) 256))%string /\
       (forall candidate w',
          verifyPassword candidate (stored_hash salt password) w' =
          Returned (String.eqb (Base64.btoa (derived_bits salt candidate))
                               (Base64.btoa (derived_bits salt password))) w') /\
       forall w', verifyPassword password (stored_hash salt password) w'
                  = Returned true w') /\
  (forall w t email isFirstUser user w1,
     storage w = AuthDB t ->
     register email password isFirstUser w = Returned user w1 ->
     forall w2,
       storage w2 = storage w1 ->
       has_key Sessions.id (next_token w2) (sessions t) = false ->
       exists session w3,
         login email password w2 = Returned (Some session) w3 /\
         Session.email session = email /\
         Session.userId session = User.id user /\
         Session.expiresAt session = clock w2 + 30 * 24 * 60 * 60 * 1000).
Proof.
  split.
  - intros w. exists (next_octets 16 w).
    split; [reflexivity|]. split; [apply next_octets_length|].
    split; [apply hashPassword_run|].
    split; [reflexivity|]. split.
    + intros candidate w'. apply verifyPassword_stored, next_octets_nonempty.
    + intros w'. rewrite verifyPassword_stored by apply next_octets_nonempty.
      now rewrite String.eqb_refl.
  - intros w t email isFirstUser user w1 Hs Hreg w2 Hs2 Hfresh.
    rewrite (register_run w t email password isFirstUser Hs) in Hreg.
    cbv zeta in Hreg.
    destruct (violation users_table _ (users t)) eqn:Hv; [discriminate|].
    injection Hreg as <- <-.
    assert (Hemail : find (by_email email) (users t) = None).
    { cbn [violation users_table] in Hv.
      destruct (has_key Users.id _ (users t)); [discriminate|].
      destruct (has_key Users.email _ (users t)) eqn:Hk; [discriminate|].
      exact (QueryFacts.has_key_false_find Users.email _ _ Hk). }
    cbn [storage with_storage] in Hs2.
    rewrite (login_run w2 _ email password Hs2). cbn [users sessions].
    rewrite (QueryFacts.find_app_None _ _ _ Hemail).
    cbn [find Users.email]. rewrite String.eqb_refl.
    cbn [Users.password_hash].
    rewrite verifyPassword_stored by apply next_octets_nonempty.
    rewrite String.eqb_refl, Hfresh.
    eexists. eexists. split; [reflexivity|]. cbn. auto.
Qed.

End LoginFacts.

(** ** Seeding the default administrators *)
Section SeedFacts.

Context {platform : Platform}.

Local Abbreviation admin_row w now passwordHash email :=
  {| Users.id := next_token w; Users.email := email;
     Users.password_hash := passwordHash; Users.is_admin := 1;
     Users.created_at := now; Users.updated_at := now |}.

(** One turn of the loop: the row is inserted, or the violated constraint
    is swallowed; sixteen octets are drawn either way. *)
Lemma seedAdmin_run (w : World) (t : AuthTables) (now : Z)
  (passwordHash email : string) :
  storage w = AuthDB t ->
  seedAdmin now passwordHash email w =
  Returned tt
    (match violation users_table (admin_row w now passwordHash email) (users t)
     with
     | Some _ => with_drawn (drawn w + 16) w
     | None =>
         with_storage
           (AuthDB {| users := users t ++ [admin_row w now passwordHash email];
                      sessions := sessions t;
                      user_mailboxes := user_mailboxes t |})
           (with_drawn (drawn w + 16) w)
     end).
Proof.
  intros Hs. known_storage Hs.
  unfold seedAdmin, randomUUID, getRandomValues. run_method.
  unfold next_token, next_octets. run_method.
  destruct (has_key Users.id _ (users t)); [reflexivity|].
  destruct (has_key Users.email _ (users t)); reflexivity.
Qed.

Lemma insert_keeps_unique (r : Users.row) (rows : list Users.row) :
  violation users_table r rows = None ->
  unique_users rows -> unique_users (rows ++ [r]).
Proof.
  cbn [violation users_table]. intros Hv [Hid Hemail].
  destruct (has_key Users.id (Users.id r) rows) eqn:Ki; [discriminate|].
  destruct (has_key Users.email (Users.email r) rows) eqn:Ke; [discriminate|].
  split; apply QueryFacts.NoDup_key_snoc; assumption.
Qed.

(** The loop returns normally from any state of the AUTH store, leaves a
    table with rows non-empty, and keeps the rows distinct. *)
Lemma seed_loop (now : Z) (passwordHash : string) (emails : list string) :
  forall (w : World) (t : AuthTables),
    storage w = AuthDB t ->
    exists w1 t1,
      for_each emails (seedAdmin now passwordHash) w = Returned tt w1 /\
      storage w1 = AuthDB t1 /\
      (users t <> [] \/ emails <> [] -> users t1 <> []) /\
      (unique_users (users t) -> unique_users (users t1)).
Proof.
  induction emails as [|email emails IH]; intros w t Hs.
  - exists w, t. cbn [for_each].
    split; [reflexivity|]. split; [exact Hs|]. split; [|auto].
    intros [H | H]; [exact H | now destruct H].
  - cbn [for_each]. unfold bind at 1.
    rewrite (seedAdmin_run w t now passwordHash email Hs).
    destruct (violation users_table _ (users t)) eqn:Hv.
    + cbn [violation users_table] in Hv.
      assert (Hne : users t <> []).
      { destruct (users t); [discriminate Hv | discriminate]. }
      destruct (IH (with_drawn (drawn w + 16) w) t Hs)
        as (w1 & t1 & Hrun & Hs1 & Hne1 & Hu1).
      exists w1, t1.
      split; [exact Hrun|]. split; [exact Hs1|]. split; [auto|exact Hu1].
    + match goal with
      | |- context [for_each emails _ ?w'] =>
          destruct (IH w' _ eq_refl) as (w1 & t1 & Hrun & Hs1 & Hne1 & Hu1)
      end.
      exists w1, t1. cbn [users] in *.
      split; [exact Hrun|]. split; [exact Hs1|]. split.
      * intros _. apply Hne1. left. now destruct (users t).
      * intros Hu. apply Hu1. now apply insert_keeps_unique.
Qed.

Lemma ensureDefaultAdmins_run (w : World) (t : AuthTables) :
  storage w = AuthDB t ->
  ensureDefaultAdmins w =
  match users t with
  | _ :: _ => Returned tt w
  | [] =>
      for_each admins
        (seedAdmin (clock w) (stored_hash (next_octets 16 w) "admin"))
        (with_drawn (drawn w + 16) w)
  end.
Proof.
  intros Hs. known_storage Hs.
  unfold ensureDefaultAdmins, hashPassword, getRandomValues. run_method.
  cbn [filter]. 
  destruct (users t) as [|u rest] eqn:Hu.
  - cbn [filter List.length Z.of_nat Z.gtb Z.compare]. reflexivity.
  - replace (Z.of_nat (List.length (filter (fun _ => true) (u :: rest))) >? 0)
      with true; [reflexivity|].
    symmetry. apply Z.gtb_lt. cbn [filter List.length]. lia.
Qed.

(** What [ensureDefaultAdmins] does, from any state of the AUTH store. *)
Lemma ensureDefaultAdmins_effect (w : World) (t : AuthTables) :
  storage w = AuthDB t ->
  (users t <> [] -> ensureDefaultAdmins w = Returned tt w) /\
  (exists w1 t1,
     ensureDefaultAdmins w = Returned tt w1 /\
     storage w1 = AuthDB t1 /\
     users t1 <> [] /\
     (unique_users (users t) -> unique_users (users t1)) /\
     ensureDefaultAdmins w1 = Returned tt w1) /\
  (forall now passwordHash,
     exists w1 t1,
       for_each admins (seedAdmin now passwordHash) w = Returned tt w1 /\
       storage w1 = AuthDB t1 /\
       (unique_users (users t) -> unique_users (users t1))).
Proof.
  intros Hs.
  assert (Hnoop : forall w' t', storage w' = AuthDB t' -> users t' <> [] ->
                                ensureDefaultAdmins w' = Returned tt w').
  { intros w' t' Hs' Hne. rewrite (ensureDefaultAdmins_run w' t' Hs').
    destruct (users t'); [congruence | reflexivity]. }
  split; [exact (Hnoop w t Hs)|]. split.
  - assert (Hcases : users t = [] \/ users t <> [])
      by (destruct (users t); [left; reflexivity | right; discriminate]).
    destruct Hcases as [Hu | Hne].
    + destruct (seed_loop (clock w) (stored_hash (next_octets 16 w) "admin")
                  admins (with_drawn (drawn w + 16) w) t Hs)
        as (w1 & t1 & Hrun & Hs1 & Hne1 & Hu1).
      assert (Hne : users t1 <> []) by (apply Hne1; right; discriminate).
      exists w1, t1.
      split; [|split; [exact Hs1 | split; [exact Hne | split; [exact Hu1|]]]].
      * rewrite (ensureDefaultAdmins_run w t Hs), Hu. exact Hrun.
      * exact (Hnoop w1 t1 Hs1 Hne).
    + exists w, t.
      split; [exact (Hnoop w t Hs Hne)|]. split; [exact Hs|].
      split; [exact Hne|]. split; [auto|]. exact (Hnoop w t Hs Hne).
  - intros now passwordHash.
    destruct (seed_loop now passwordHash admins w t Hs)
      as (w1 & t1 & Hrun & Hs1 & _ & Hu1).
    exists w1, t1. auto.
Qed.

End SeedFacts.

(** ** The worlds the AUTH store can be in *)
Section ReachableFacts.

Context {platform : Platform}.

Local Abbreviation consistent t :=
  (hashes_well_formed t /\ sessions_owned t /\ unique_users (users t)).

Lemma stored_hash_well_formed (w : World) (password : string) :
  well_formed_hash (stored_hash (next_octets 16 w) password).
Proof.
  exists (next_octets 16 w), password. split; [discriminate | reflexivity].
Qed.

Lemma consistent_new_user (t : AuthTables) (row : Users.row) :
  well_formed_hash (Users.password_hash row) ->
  violation users_table row (users t) = None ->
  consistent t ->
  consistent {| users := users t ++ [row]; sessions := sessions t;
                user_mailboxes := user_mailboxes t |}.
Proof.
  intros Hrow Hv (Hh & Ho & Hu). split; [|split].
  - intros u Hin. cbn [users] in Hin. apply in_app_or in Hin as [Hin | [<- | []]];
      auto.
  - intros s Hin. cbn [users sessions] in *. rewrite map_app.
    apply in_or_app. left. auto.
  - cbn [users]. now apply insert_keeps_unique.
Qed.

Lemma consistent_fewer_sessions (t : AuthTables) (keep : Sessions.row -> bool)
  (grants : list UserMailboxes.row) :
  consistent t ->
  consistent {| users := users t; sessions := filter keep (sessions t);
                user_mailboxes := grants |}.
Proof.
  intros (Hh & Ho & Hu). split; [|split].
  - exact Hh.
  - intros s Hin. cbn [users sessions] in *.
    apply filter_In in Hin as [Hin _]. auto.
  - exact Hu.
Qed.

Lemma consistent_updated_users (t : AuthTables) (set : Users.row -> Users.row)
  (cond : Users.row -> bool) :
  (forall u, Users.id (set u) = Users.id u) ->
  (forall u, Users.email (set u) = Users.email u) ->
  (forall u, well_formed_hash (Users.password_hash u) ->
             well_formed_hash (Users.password_hash (set u))) ->
  consistent t ->
  consistent {| users := map (fun u => if cond u then set u else u) (users t);
                sessions := sessions t;
                user_mailboxes := user_mailboxes t |}.
Proof.
  intros Hid Hemail Hhash (Hh & Ho & Hu).
  assert (Hids : map Users.id (map (fun u => if cond u then set u else u)
                                   (users t)) = map Users.id (users t)).
  { rewrite map_map. apply map_ext. intros u. destruct (cond u); auto. }
  assert (Hemails : map Users.email (map (fun u => if cond u then set u else u)
                                         (users t)) = map Users.email (users t)).
  { rewrite map_map. apply map_ext. intros u. destruct (cond u); auto. }
  split; [|split].
  - intros u Hin. cbn [users] in Hin.
    apply in_map_iff in Hin as (u0 & <- & Hin).
    destruct (cond u0); auto.
  - intros s Hin. cbn [users sessions] in *. rewrite Hids. auto.
  - unfold unique_users. cbn [users]. now rewrite Hids, Hemails.
Qed.

(** The seeding loop only adds user rows, all with the given hash. *)
Lemma seed_loop_tables (now : Z) (passwordHash : string) (emails : list string) :
  forall (w : World) (t : AuthTables),
    storage w = AuthDB t ->
    well_formed_hash passwordHash ->
    consistent t ->
    exists t1,
      storage (outcome_world (for_each emails (seedAdmin now passwordHash) w))
      = AuthDB t1 /\ consistent t1.
Proof.
  induction emails as [|email emails IH]; intros w t Hs Hp Hc.
  - exists t. cbn. auto.
  - cbn [for_each]. unfold bind at 1.
    rewrite (seedAdmin_run w t now passwordHash email Hs).
    destruct (violation users_table _ (users t)) eqn:Hv.
    + apply (IH _ t); auto.
    + match goal with
      | |- context [for_each emails _ (with_storage (AuthDB ?t') ?w')] =>
          apply (IH (with_storage (AuthDB t') w') t' eq_refl Hp)
      end.
      now apply consistent_new_user.
Qed.

Lemma logout_run (w : World) (t : AuthTables) (sessionId : string) :
  storage w = AuthDB t ->
  logout sessionId w =
  Returned true (with_storage (AuthDB (without_session sessionId t)) w).
Proof.
  intros Hs. known_storage Hs. unfold logout. run_method. reflexivity.
Qed.

Lemma updateUserPassword_run (w : World) (t : AuthTables)
  (userId newPassword : string) :
  storage w = AuthDB t ->
  updateUserPassword userId newPassword w =
  Returned tt
    (with_storage
       (AuthDB
          {| users :=
               map (fun u =>
                      if String.eqb (Users.id u) userId
                      then {| Users.id := Users.id u;
                              Users.email := Users.email u;
                              Users.password_hash :=
                                stored_hash (next_octets 16 w) newPassword;
                              Users.is_admin := Users.is_admin u;
                              Users.created_at := Users.created_at u;
                              Users.updated_at := clock w |}
                      else u) (users t);
             sessions := sessions t;
             user_mailboxes := user_mailboxes t |})
       (with_drawn (drawn w + 16) w)).
Proof.
  intros Hs. known_storage Hs.
  unfold updateUserPassword, hashPassword, getRandomValues. run_method.
  reflexivity.
Qed.

Lemma updateUserAdminStatus_run (w : World) (t : AuthTables)
  (userId : string) (admin : bool) :
  storage w = AuthDB t ->
  updateUserAdminStatus userId admin w =
  Returned tt
    (with_storage
       (AuthDB
          {| users :=
               map (fun u =>
                      if String.eqb (Users.id u) userId
                      then {| Users.id := Users.id u;
                              Users.email := Users.email u;
                              Users.password_hash := Users.password_hash u;
                              Users.is_admin := if admin then 1 else 0;
                              Users.created_at := Users.created_at u;
                              Users.updated_at := clock w |}
                      else u) (users t);
             sessions := sessions t;
             user_mailboxes := user_mailboxes t |}) w).
Proof.
  intros Hs. known_storage Hs. unfold updateUserAdminStatus. run_method.
  reflexivity.
Qed.

(** Every call keeps the AUTH store an AUTH store, its hashes well formed
    and its sessions owned. *)
Lemma perform_consistent (c : Call) (w : World) (t : AuthTables) :
  storage w = AuthDB t -> consistent t ->
  exists t', storage (perform c w) = AuthDB t' /\ consistent t'.
Proof.
  intros Hs Hc.
  destruct c as [ | email password isFirstUser | email password | sessionId
                | sessionId | userId newPassword | userId admin
                | userId mailboxId role | userId mailboxId ];
    cbn [perform].
  - (* ensureDefaultAdmins *)
    rewrite (ensureDefaultAdmins_run w t Hs).
    destruct (users t) eqn:Hu in |- *.
    + apply (seed_loop_tables _ _ _ (with_drawn (drawn w + 16) w) t Hs); auto.
      apply stored_hash_well_formed.
    + exists t. auto.
  - (* register *)
    rewrite (register_run w t email password isFirstUser Hs). cbv zeta.
    destruct (violation users_table _ (users t)) eqn:Hv.
    + exists t. auto.
    + eexists. split; [reflexivity|]. apply consistent_new_user; auto.
      apply stored_hash_well_formed.
  - (* login *)
    rewrite (login_run w t email password Hs).
    destruct (find _ (users t)) as [user|] eqn:Hf; [|exists t; auto].
    destruct (verifyPassword_pure password (Users.password_hash user) w)
      as [[b Hv] | Hv]; rewrite Hv; [|exists t; auto].
    destruct b; [|exists t; auto].
    destruct (has_key Sessions.id _ (sessions t)); [exists t; auto|].
    eexists. split; [reflexivity|]. destruct Hc as (Hh & Ho & Hu).
    split; [exact Hh | split; [|exact Hu]].
    intros s Hin. cbn [users sessions] in *.
    apply in_app_or in Hin as [Hin | [<- | []]]; auto.
    cbn [session_row Sessions.user_id]. apply in_map.
    exact (proj1 (find_some _ _ Hf)).
  - (* validateSession *)
    destruct (find (fun s => String.eqb (Sessions.id s) sessionId) (sessions t))
      as [session|] eqn:Hf.
    + destruct (Z.le_gt_cases (clock w) (Sessions.expires_at session)) as [H|H].
      * assert (storage (outcome_world (validateSession sessionId w)) = AuthDB t)
          as Hsame.
        { known_storage Hs. cbn [clock] in H. unfold validateSession.
          run_method. rewrite QueryFacts.hd_error_filter, Hf. run_method.
          rewrite (proj2 (Z.ltb_ge _ _) H). run_method.
          destruct (hd_error _); reflexivity. }
        exists t. auto.
      * assert (storage (outcome_world (validateSession sessionId w))
                = AuthDB (without_session sessionId t)) as Hgone.
        { known_storage Hs. cbn [clock] in H. unfold validateSession.
          run_method. rewrite QueryFacts.hd_error_filter, Hf. run_method.
          rewrite (proj2 (Z.ltb_lt _ _) H). run_method. reflexivity. }
        eexists. split; [exact Hgone|].
        now apply consistent_fewer_sessions.
    + rewrite (validateSession_unknown w t sessionId Hs Hf). exists t. auto.
  - (* logout *)
    rewrite (logout_run w t sessionId Hs).
    eexists. split; [reflexivity|]. now apply consistent_fewer_sessions.
  - (* updateUserPassword *)
    rewrite (updateUserPassword_run w t userId newPassword Hs).
    eexists. split; [reflexivity|].
    apply (consistent_updated_users t _ (fun u => String.eqb (Users.id u) userId));
      auto.
    intros u _. apply stored_hash_well_formed.
  - (* updateUserAdminStatus *)
    rewrite (updateUserAdminStatus_run w t userId admin Hs).
    eexists. split; [reflexivity|].
    apply (consistent_updated_users t _ (fun u => String.eqb (Users.id u) userId));
      auto.
  - (* grantMailboxAccess *)
    known_storage Hs. unfold grantMailboxAccess. run_method.
    destruct (existsb _ (user_mailboxes t)); cbn [outcome_world storage].
    + exists t. auto.
    + eexists. split; [reflexivity|]. exact Hc.
  - (* revokeMailboxAccess *)
    known_storage Hs. unfold revokeMailboxAccess. run_method.
    cbn [outcome_world storage].
    eexists. split; [reflexivity|]. exact Hc.
Qed.

(** What holds in every reachable world. *)
Theorem reachable_consistent (w : World) :
  reachable w ->
  exists t,
    storage w = AuthDB t /\
    hashes_well_formed t /\ sessions_owned t /\ unique_users (users t).
Proof.
  induction 1 as [now random | w c _ (t & Hs & Hc) | w now _ (t & Hs & Hc) _].
  - eexists. split; [reflexivity|].
    split; [intros x [] | split; [intros x [] | split; constructor]].
  - destruct (perform_consistent c w t Hs Hc) as (t' & Hs' & Hc').
    exists t'. split; [exact Hs' | exact Hc'].
  - exists t. split; [exact Hs | exact Hc].
Qed.

End ReachableFacts.

(** ** Sessions and logins in reachable worlds *)
Section CredentialFacts.

Context {platform : Platform}.

(** C1 (amended): in every world the AUTH store can be in, for every
    session row, [validateSession] returns the session as long as
    [now <= expires_at]; once [expires_at < now] it deletes the row and
    returns null, and it returns null at every later call, whatever the
    time; so it returns a session exactly while [now <= expires_at]. *)
Theorem validateSession_until_expiry
  (w : World) (t : AuthTables) (sessionId : string) (session : Sessions.row) :
  reachable w ->
  storage w = AuthDB t ->
  find (fun s => String.eqb (Sessions.id s) sessionId) (sessions t)
    = Some session ->
  (clock w <= Sessions.expires_at session ->
   exists user,
     find (fun u => String.eqb (Users.id u) (Sessions.user_id session))
          (users t) = Some user /\
     validateSession sessionId w =
     Returned (Some {| Session.id := Sessions.id session;
                       Session.userId := Sessions.user_id session;
                       Session.email := Users.email user;
                       Session.isAdmin := Users.is_admin user =? 1;
                       Session.expiresAt := Sessions.expires_at session |}) w) /\
  (Sessions.expires_at session < clock w ->
   let w' := with_storage (AuthDB (without_session sessionId t)) w in
   validateSession sessionId w = Returned None w' /\
   forall now, validateSession sessionId (with_clock now w')
               = Returned None (with_clock now w')) /\
  ((exists s w', validateSession sessionId w = Returned (Some s) w') <->
   clock w <= Sessions.expires_at session).
Proof.
  intros Hreach Hs Hsession.
  destruct (reachable_consistent w Hreach) as (t0 & Hs0 & _ & Howned & _).
  assert (t0 = t) by congruence. subst t0.
  assert (Huser : exists user,
            find (fun u => String.eqb (Users.id u) (Sessions.user_id session))
                 (users t) = Some user).
  { apply QueryFacts.has_key_find, QueryFacts.has_key_in, Howned.
    exact (proj1 (find_some _ _ Hsession)). }
  destruct Huser as [user Huser].
  destruct (validateSession_cases w t sessionId session user Hs Hsession Huser)
    as (Hlive & Hdead & Hiff).
  split; [|split; [exact Hdead | exact Hiff]].
  intros Hnow. exists user. split; [exact Huser | exact (Hlive Hnow)].
Qed.

(** C4: on the AUTH store [ensureDefaultAdmins] changes nothing once a user
    row exists; it always returns normally, and a second call after it
    changes nothing; user rows that were distinct (by id and by email), as
    they are in every reachable world, remain distinct; and its seeding loop
    returns normally and keeps the rows distinct whatever rows are already
    there, so the duplicate inserts of a concurrent first request are
    swallowed. *)
Theorem ensureDefaultAdmins_idempotent (w : World) (t : AuthTables) :
  storage w = AuthDB t ->
  (users t <> [] -> ensureDefaultAdmins w = Returned tt w) /\
  (exists w1 t1,
     ensureDefaultAdmins w = Returned tt w1 /\
     storage w1 = AuthDB t1 /\
     users t1 <> [] /\
     (unique_users (users t) -> unique_users (users t1)) /\
     (reachable w -> unique_users (users t1)) /\
     ensureDefaultAdmins w1 = Returned tt w1) /\
  (forall now passwordHash,
     exists w1 t1,
       for_each admins (seedAdmin now passwordHash) w = Returned tt w1 /\
       storage w1 = AuthDB t1 /\
       (unique_users (users t) -> unique_users (users t1))).
Proof.
  intros Hs.
  destruct (ensureDefaultAdmins_effect w t Hs)
    as (Hnoop & (w1 & t1 & Hrun & Hs1 & Hne & Hu & Hagain) & Hloop).
  split; [exact Hnoop|]. split; [|exact Hloop].
  exists w1, t1.
  split; [exact Hrun|]. split; [exact Hs1|]. split; [exact Hne|].
  split; [exact Hu|]. split; [|exact Hagain].
  intros Hreach. apply Hu.
  destruct (reachable_consistent w Hreach) as (t0 & Hs0 & _ & _ & Hunique).
  assert (t0 = t) by congruence. now subst t0.
Qed.


End CredentialFacts.

(** ** Mailbox methods *)
Section MailboxFacts.

Context {platform : Platform}.

Local Abbreviation after_delete id t :=
  {| emails := filter (fun e => negb (String.eqb (Emails.id e) id)) (emails t);
     folders := folders t;
     attachments :=
       filter (fun a =>
                 negb (has_key Emails.id (Attachments.email_id a)
                         (filter (fun e => String.eqb (Emails.id e) id)
                                 (emails t))))
              (attachments t) |}.

Lemma deleteEmail_run (w : World) (t : MailboxTables) (id : string) :
  storage w = MailboxDB t ->
  deleteEmail id w =
  Returned
    (map attachment_ref
       (filter (fun a => String.eqb (Attachments.email_id a) id) (attachments t)))
    (with_storage (MailboxDB (after_delete id t)) w).
Proof.
  intros Hs. known_storage Hs. unfold deleteEmail. run_method. reflexivity.
Qed.

(** C5: on a mailbox store [deleteEmail id] returns the id and filename of
    exactly the attachment rows whose [email_id] is [id], as they are when it
    is called; it removes the email row, and with it (when the email exists)
    those attachment rows, and touches nothing else. *)
Theorem deleteEmail_returns_attachments_and_cascades
  (w : World) (t : MailboxTables) (id : string) :
  storage w = MailboxDB t ->
  exists t',
    deleteEmail id w =
    Returned
      (map attachment_ref
         (filter (fun a => String.eqb (Attachments.email_id a) id)
                 (attachments t)))
      (with_storage (MailboxDB t') w) /\
    emails t' = filter (fun e => negb (String.eqb (Emails.id e) id)) (emails t) /\
    has_key Emails.id id (emails t') = false /\
    folders t' = folders t /\
    (has_key Emails.id id (emails t) = true ->
     attachments t' =
     filter (fun a => negb (String.eqb (Attachments.email_id a) id))
            (attachments t)) /\
    (has_key Emails.id id (emails t) = false -> attachments t' = attachments t).
Proof.
  intros Hs. exists (after_delete id t).
  split; [exact (deleteEmail_run w t id Hs)|]. cbn [emails folders attachments].
  split; [reflexivity|]. split; [|split; [reflexivity|split]].
  - destruct (has_key Emails.id id (filter _ (emails t))) eqn:E; auto.
    apply QueryFacts.has_key_in, in_map_iff in E as (e & He & Hin).
    apply filter_In in Hin as [_ Hne]. rewrite He, String.eqb_refl in Hne.
    discriminate.
  - intros Hk. apply QueryFacts.filter_ext_in_bool. intros a _.
    now rewrite QueryFacts.has_key_filter_same, Hk, andb_true_r.
  - intros Hk. rewrite <- (QueryFacts.filter_true (attachments t)) at 2.
    apply QueryFacts.filter_ext_in_bool. intros a _.
    now rewrite QueryFacts.has_key_filter_same, Hk, andb_false_r.
Qed.

Local Abbreviation with_folder row t :=
  {| emails := emails t; folders := folders t ++ [row];
     attachments := attachments t |}.

Lemma createFolder_run (w : World) (t : MailboxTables) (id name : string) :
  storage w = MailboxDB t ->
  createFolder id name w =
  if has_key Folders.id id (folders t) || has_key Folders.name name (folders t)
  then Returned None w
  else Returned (Some {| Folder.id := id; Folder.name := name;
                         Folder.unreadCount := 0 |})
                (with_storage (MailboxDB (with_folder (new_folder_row id name) t))
                              w).
Proof.
  intros Hs. known_storage Hs. unfold createFolder. run_method.
  cbn [new_folder_row Folders.id Folders.name].
  destruct (has_key Folders.id id (folders t)); [reflexivity|].
  destruct (has_key Folders.name name (folders t)); reflexivity.
Qed.

(** C8: on a mailbox store [createFolder id name] returns null, without
    raising and without changing anything, when a folder already has the id
    or the name; so the second of two calls with the same id and name
    returns null. *)
Theorem createFolder_null_on_collision
  (w : World) (t : MailboxTables) (id name : string) :
  storage w = MailboxDB t ->
  (has_key Folders.id id (folders t) = true \/
   has_key Folders.name name (folders t) = true ->
   createFolder id name w = Returned None w) /\
  (exists first w1,
     createFolder id name w = Returned first w1 /\
     createFolder id name w1 = Returned None w1).
Proof.
  intros Hs.
  assert (Hcollide : forall w' t', storage w' = MailboxDB t' ->
            has_key Folders.id id (folders t') = true \/
            has_key Folders.name name (folders t') = true ->
            createFolder id name w' = Returned None w').
  { intros w' t' Hs' Hk. rewrite (createFolder_run w' t' id name Hs').
    destruct Hk as [-> | ->]; [reflexivity | now rewrite orb_true_r]. }
  split; [exact (Hcollide w t Hs)|].
  rewrite (createFolder_run w t id name Hs).
  destruct (has_key Folders.id id (folders t) ||
            has_key Folders.name name (folders t)) eqn:Hk.
  - exists None, w. split; [reflexivity|].
    apply (Hcollide w t Hs). now apply orb_true_iff.
  - eexists. eexists. split; [reflexivity|].
    eapply Hcollide; [reflexivity|]. left. cbn [folders].
    rewrite QueryFacts.has_key_app. cbn. rewrite String.eqb_refl.
    now rewrite orb_true_r.
Qed.

Lemma moveEmail_run (w : World) (t : MailboxTables) (id folderId : string) :
  storage w = MailboxDB t ->
  moveEmail id folderId w =
  if has_key Folders.id folderId (folders t)
  then Returned true
         (with_storage
            (MailboxDB {| emails := moved id folderId (emails t);
                          folders := folders t;
                          attachments := attachments t |}) w)
  else Returned false w.
Proof.
  intros Hs. known_storage Hs. unfold moveEmail. run_method.
  rewrite QueryFacts.hd_error_filter.
  destruct (has_key Folders.id folderId (folders t)) eqn:Hk.
  - apply QueryFacts.has_key_find in Hk as [f Hf]. rewrite Hf. reflexivity.
  - rewrite (QueryFacts.has_key_false_find _ _ _ Hk). reflexivity.
Qed.

Lemma getEmails_run (w : World) (t : MailboxTables) (options : GetEmailsOptions) :
  storage w = MailboxDB t ->
  getEmails options w =
  let q := getEmails_query options in
  match sql_order_by (orderBy q) (matching_rows q t) with
  | inl message => Thrown message w
  | inr ordered =>
      Returned
        (map summary_of_row
           (sql_limit (limit_rows q) (sql_offset (offset_rows q) ordered))) w
  end.
Proof.
  intros Hs. known_storage Hs. unfold getEmails, execute_query, folder_lookup.
  cbv zeta. unfold matching_rows, resolve_folder.
  destruct (where_folder (getEmails_query options)) as [key|].
  - run_method. rewrite QueryFacts.hd_error_filter.
    destruct (find _ (folders t)) as [f|]; run_method.
    + destruct (sql_order_by _ _); reflexivity.
    + rewrite QueryFacts.filter_false. destruct (sql_order_by _ _); reflexivity.
  - run_method. rewrite QueryFacts.filter_true.
    destruct (sql_order_by _ _); reflexivity.
Qed.


Lemma truthy_nonempty (key : string) :
  key <> EmptyString -> truthy (Some key) = Some key.
Proof. destruct key; [congruence | reflexivity]. Qed.





(** C7: [getEmails] skips [(page - 1) * limit] rows and returns at most
    [limit], with page 1 and limit 25 when they are not given; on a mailbox
    holding three emails, page 1 with limit 2 has two results, page 2 one,
    and the two pages together are the three emails, each once. *)
Theorem getEmails_pages_cover_three_emails (w : World) (t : MailboxTables) :
  storage w = MailboxDB t ->
  List.length (emails t) = 3%nat ->
  (forall options,
     offset_rows (getEmails_query options)
     = (or_default (page options) 1 - 1) * or_default (limit options) 25 /\
     limit_rows (getEmails_query options) = or_default (limit options) 25) /\
  exists page1 page2,
    getEmails {| folder := None; page := Some 1; limit := Some 2;
                 sortColumn := None; sortDirection := None |} w
    = Returned page1 w /\
    getEmails {| folder := None; page := Some 2; limit := Some 2;
                 sortColumn := None; sortDirection := None |} w
    = Returned page2 w /\
    List.length page1 = 2%nat /\ List.length page2 = 1%nat /\
    Permutation (page1 ++ page2) (map summary_of_row (emails t)).
Proof.
  intros Hs Hlen. split; [intros options; split; reflexivity|].
  rewrite !(getEmails_run w t _ Hs). cbv zeta.
  unfold getEmails_query, matching_rows.
  cbn [where_folder orderBy limit_rows offset_rows folder page limit sortColumn
       sortDirection or_default truthy].
  change (sql_order_by ("date" ++ " " ++ "DESC") (emails t))
    with (inr (A := string)
            (sort_by (fun x y => value_leb (VText (Emails.date y))
                                           (VText (Emails.date x)))
                     (emails t))).
  set (ordered := sort_by _ (emails t)).
  assert (Hperm : Permutation ordered (emails t)) by apply QueryFacts.sort_by_perm.
  assert (Hlen' : List.length ordered = 3%nat)
    by (now rewrite (Permutation_length Hperm)).
  eexists. eexists. split; [reflexivity|]. split; [reflexivity|].
  destruct ordered as [|a [|b [|c [|d rest]]]]; try discriminate Hlen'.
  cbn. split; [reflexivity|]. split; [reflexivity|].
  exact (Permutation_map summary_of_row Hperm).
Qed.


End MailboxFacts.

(** ** Credential methods outside the AUTH store *)
Section NotAuthFacts.

Context {platform : Platform}.

Ltac gate H := cbv beta delta [bind]; rewrite H; reflexivity.

(** C10: on an instance that is not the AUTH singleton, [hasUsers] and
    [isAdmin] return false, and every other credential method throws
    "Not an auth DO"; none of them changes anything. *)
Theorem credential_methods_outside_auth_store (w : World) :
  isAuthDO w = Returned false w ->
  hasUsers w = Returned false w /\
  (forall userId, isAdmin userId w = Returned false w) /\
  (forall email password isFirstUser,
     register email password isFirstUser w = Thrown "Not an auth DO" w) /\
  (forall email password, login email password w = Thrown "Not an auth DO" w) /\
  (forall sessionId, validateSession sessionId w = Thrown "Not an auth DO" w) /\
  (forall sessionId, logout sessionId w = Thrown "Not an auth DO" w) /\
  ensureDefaultAdmins w = Thrown "Not an auth DO" w /\
  getUsers w = Thrown "Not an auth DO" w /\
  (forall email, getUserByEmail email w = Thrown "Not an auth DO" w) /\
  (forall userId newPassword,
     updateUserPassword userId newPassword w = Thrown "Not an auth DO" w) /\
  (forall userId admin,
     updateUserAdminStatus userId admin w = Thrown "Not an auth DO" w) /\
  (forall userId mailboxId role,
     grantMailboxAccess userId mailboxId role w = Thrown "Not an auth DO" w) /\
  (forall userId mailboxId,
     revokeMailboxAccess userId mailboxId w = Thrown "Not an auth DO" w) /\
  (forall userId, getUserMailboxes userId w = Thrown "Not an auth DO" w).
Proof.
  intros H.
  repeat match goal with
         | |- _ /\ _ => split
         | |- forall _, _ => intro
         end.
  - unfold hasUsers. gate H.
  - unfold isAdmin. gate H.
  - unfold register. gate H.
  - unfold login. gate H.
  - unfold validateSession. gate H.
  - unfold logout. gate H.
  - unfold ensureDefaultAdmins. gate H.
  - unfold getUsers. gate H.
  - unfold getUserByEmail. gate H.
  - unfold updateUserPassword. gate H.
  - unfold updateUserAdminStatus. gate H.
  - unfold grantMailboxAccess. gate H.
  - unfold revokeMailboxAccess. gate H.
  - unfold getUserMailboxes. gate H.
Qed.

End NotAuthFacts.

(** ** The properties at concrete worlds *)

Example btoa_Man : Base64.btoa "Man" = "TWFu".
Proof. reflexivity. Qed.

Example btoa_light_w : Base64.btoa "light w" = "bGlnaHQgdw==".
Proof. reflexivity. Qed.

Example atob_skips_whitespace : Base64.atob "bGlnaHQg d28=" = Some "light wo".
Proof. reflexivity. Qed.

Example atob_rejects : Base64.atob "ab!d" = None.
Proof. reflexivity. Qed.

Example split_stored_hash :
  JS.split ":" "c2FsdA==:aGFzaA==" = ["c2FsdA=="; "aGFzaA=="].
Proof. reflexivity. Qed.

Lemma sample_logged_in_run :
  perform (platform := Sample.platform) (CallLogin "a@x.com" "password123")
    (with_clock 6000
       (perform (platform := Sample.platform)
          (CallRegister "a@x.com" "password123" true)
          (fresh_auth 5000 Sample.random_octet)))
  = Sample.logged_in.
Proof. vm_compute. reflexivity. Qed.

Lemma sample_logged_in_reachable :
  reachable (platform := Sample.platform) Sample.logged_in.
Proof.
  rewrite <- sample_logged_in_run.
  apply reachable_call, reachable_later.
  - apply reachable_call, reachable_fresh.
  - vm_compute. discriminate.
Qed.

Lemma sample_later_reachable (now : Z) :
  6000 <= now ->
  reachable (platform := Sample.platform) (with_clock now Sample.logged_in).
Proof. intros H. apply reachable_later; [exact sample_logged_in_reachable | exact H]. Qed.

(** C1, as stated, fails at the instant of expiry: the session of a login at
    time 6000 expires at 6000 + 2592000000; validated at that instant it is
    still returned, although [now < expires_at] is false. *)
Lemma validateSession_valid_at_expiry_instant :
  ~ ((exists s,
        validateSession "e3eaf1f8-ff06-4d14-9b22-2930373e454c"
          (with_clock 2592006000 Sample.logged_in)
        = Returned (Some s) (with_clock 2592006000 Sample.logged_in))
     <->
     clock (with_clock 2592006000 Sample.logged_in)
     < Sessions.expires_at Sample.login_session).
Proof.
  intros [H _].
  assert (2592006000 < 2592006000) as Habs; [|lia].
  apply H.
  exists {| Session.id := "e3eaf1f8-ff06-4d14-9b22-2930373e454c";
            Session.userId := "030a1118-1f26-4d34-bb42-4950575e656c";
            Session.email := "a@x.com"; Session.isAdmin := true;
            Session.expiresAt := 2592006000 |}.
  reflexivity.
Qed.

Lemma validateSession_until_expiry_witness :
  reachable (platform := Sample.platform)
    (with_clock 2592006000 Sample.logged_in) /\
  storage (with_clock 2592006000 Sample.logged_in)
  = AuthDB Sample.logged_in_tables /\
  (exists s w',
     validateSession "e3eaf1f8-ff06-4d14-9b22-2930373e454c"
       (with_clock 2592006000 Sample.logged_in) = Returned (Some s) w') /\
  validateSession "e3eaf1f8-ff06-4d14-9b22-2930373e454c"
    (with_clock 2592006001 Sample.logged_in)
  = Returned None
      (with_storage
         (AuthDB (without_session "e3eaf1f8-ff06-4d14-9b22-2930373e454c"
                    Sample.logged_in_tables))
         (with_clock 2592006001 Sample.logged_in)).
Proof.
  assert (R0 : reachable (platform := Sample.platform)
                 (with_clock 2592006000 Sample.logged_in))
    by (apply sample_later_reachable; lia).
  assert (R1 : reachable (platform := Sample.platform)
                 (with_clock 2592006001 Sample.logged_in))
    by (apply sample_later_reachable; lia).
  split; [exact R0|]. split; [reflexivity|]. split.
  - apply (proj2 (proj2 (proj2 (validateSession_until_expiry
                    (platform := Sample.platform)
                    (with_clock 2592006000 Sample.logged_in)
                    Sample.logged_in_tables
                    "e3eaf1f8-ff06-4d14-9b22-2930373e454c"
                    Sample.login_session R0 eq_refl eq_refl)))).
    simpl. lia.
  - apply (proj1 (proj1 (proj2 (validateSession_until_expiry
                    (platform := Sample.platform)
                    (with_clock 2592006001 Sample.logged_in)
                    Sample.logged_in_tables
                    "e3eaf1f8-ff06-4d14-9b22-2930373e454c"
                    Sample.login_session
                    R1 eq_refl eq_refl))
                  ltac:(simpl; lia))).
Defined.


Lemma registered_user_logs_in_witness :
  storage (Sample.world (AuthDB Sample.empty_auth) 5000)
  = AuthDB Sample.empty_auth /\
  exists session w3,
    login (platform := Sample.platform) "a@x.com" "password123"
      (with_clock 6000
         (outcome_world
            (register (platform := Sample.platform) "a@x.com" "password123"
               true (Sample.world (AuthDB Sample.empty_auth) 5000))))
    = Returned (Some session) w3 /\
    Session.email session = "a@x.com" /\
    Session.userId session = "030a1118-1f26-4d34-bb42-4950575e656c" /\
    Session.expiresAt session = 6000 + 30 * 24 * 60 * 60 * 1000.
Proof.
  split; [reflexivity|].
  refine (proj2 (hashPassword_verifies_and_registered_user_logs_in
                   (platform := Sample.platform) "password123")
                (Sample.world (AuthDB Sample.empty_auth) 5000)
                Sample.empty_auth "a@x.com" true
                {| User.id := "030a1118-1f26-4d34-bb42-4950575e656c";
                   User.email := "a@x.com"; User.isAdmin := true;
                   User.createdAt := 5000; User.updatedAt := 5000 |}
                (outcome_world
                   (register (platform := Sample.platform) "a@x.com"
                      "password123" true
                      (Sample.world (AuthDB Sample.empty_auth) 5000)))
                eq_refl eq_refl
                (with_clock 6000
                   (outcome_world
                      (register (platform := Sample.platform) "a@x.com"
                         "password123" true
                         (Sample.world (AuthDB Sample.empty_auth) 5000))))
                eq_refl eq_refl).
Defined.

Lemma ensureDefaultAdmins_idempotent_witness :
  storage (Sample.world (AuthDB Sample.empty_auth) 5000)
  = AuthDB Sample.empty_auth /\
  exists w1 t1,
    ensureDefaultAdmins (platform := Sample.platform)
      (Sample.world (AuthDB Sample.empty_auth) 5000) = Returned tt w1 /\
    storage w1 = AuthDB t1 /\
    users t1 <> [] /\
    (unique_users (users Sample.empty_auth) -> unique_users (users t1)) /\
    (reachable (platform := Sample.platform)
       (Sample.world (AuthDB Sample.empty_auth) 5000) ->
     unique_users (users t1)) /\
    ensureDefaultAdmins (platform := Sample.platform) w1 = Returned tt w1.
Proof.
  split; [reflexivity|].
  exact (proj1 (proj2 (ensureDefaultAdmins_idempotent
                         (platform := Sample.platform)
                         (Sample.world (AuthDB Sample.empty_auth) 5000)
                         Sample.empty_auth eq_refl))).
Defined.

Lemma deleteEmail_returns_attachments_witness :
  storage (Sample.world (MailboxDB Sample.mailbox) 0)
  = MailboxDB Sample.mailbox /\
  exists t',
    deleteEmail "e1" (Sample.world (MailboxDB Sample.mailbox) 0)
    = Returned
        [{| AttachmentRef.id := "a1"; AttachmentRef.filename := "one.txt" |};
         {| AttachmentRef.id := "a3"; AttachmentRef.filename := "three.txt" |}]
        (Sample.world (MailboxDB t') 0) /\
    has_key Emails.id "e1" (emails t') = false /\
    attachments t' = [Sample.attachment_row "a2" "e2" "two.txt"].
Proof.
  split; [reflexivity|].
  destruct (deleteEmail_returns_attachments_and_cascades
              (Sample.world (MailboxDB Sample.mailbox) 0) Sample.mailbox "e1"
              eq_refl)
    as (t' & Hrun & _ & Hgone & _ & Hcascade & _).
  exists t'. split; [exact Hrun|]. split; [exact Hgone|].
  rewrite Hcascade; reflexivity.
Defined.



Lemma getEmails_pages_witness :
  storage (Sample.world (MailboxDB Sample.mailbox) 0)
  = MailboxDB Sample.mailbox /\
  List.length (emails Sample.mailbox) = 3%nat /\
  exists page1 page2,
    getEmails (platform := Sample.platform)
      {| folder := None; page := Some 1; limit := Some 2;
         sortColumn := None; sortDirection := None |}
      (Sample.world (MailboxDB Sample.mailbox) 0)
    = Returned page1 (Sample.world (MailboxDB Sample.mailbox) 0) /\
    getEmails (platform := Sample.platform)
      {| folder := None; page := Some 2; limit := Some 2;
         sortColumn := None; sortDirection := None |}
      (Sample.world (MailboxDB Sample.mailbox) 0)
    = Returned page2 (Sample.world (MailboxDB Sample.mailbox) 0) /\
    List.length page1 = 2%nat /\ List.length page2 = 1%nat /\
    Permutation (page1 ++ page2) (map summary_of_row (emails Sample.mailbox)).
Proof.
  split; [reflexivity|]. split; [reflexivity|].
  exact (proj2 (getEmails_pages_cover_three_emails
                  (platform := Sample.platform)
                  (Sample.world (MailboxDB Sample.mailbox) 0) Sample.mailbox
                  eq_refl eq_refl)).
Defined.

Lemma createFolder_twice_witness :
  storage (Sample.world (MailboxDB Sample.mailbox) 0)
  = MailboxDB Sample.mailbox /\
  createFolder "inbox" "Anything" (Sample.world (MailboxDB Sample.mailbox) 0)
  = Returned None (Sample.world (MailboxDB Sample.mailbox) 0) /\
  exists first w1,
    createFolder "test-folder" "Test Folder"
      (Sample.world (MailboxDB Sample.mailbox) 0) = Returned first w1 /\
    createFolder "test-folder" "Test Folder" w1 = Returned None w1.
Proof.
  split; [reflexivity|]. split.
  - apply (proj1 (createFolder_null_on_collision
                    (Sample.world (MailboxDB Sample.mailbox) 0) Sample.mailbox
                    "inbox" "Anything" eq_refl)).
    left. reflexivity.
  - exact (proj2 (createFolder_null_on_collision
                    (Sample.world (MailboxDB Sample.mailbox) 0) Sample.mailbox
                    "test-folder" "Test Folder" eq_refl)).
Defined.


Lemma credential_methods_outside_auth_store_witness :
  isAuthDO (Sample.world (MailboxDB Sample.mailbox) 0)
  = Returned false (Sample.world (MailboxDB Sample.mailbox) 0) /\
  hasUsers (Sample.world (MailboxDB Sample.mailbox) 0)
  = Returned false (Sample.world (MailboxDB Sample.mailbox) 0) /\
  login (platform := Sample.platform) "alice@example.com" "secret"
    (Sample.world (MailboxDB Sample.mailbox) 0)
  = Thrown "Not an auth DO" (Sample.world (MailboxDB Sample.mailbox) 0).
Proof.
  pose proof (credential_methods_outside_auth_store
                (platform := Sample.platform)
                (Sample.world (MailboxDB Sample.mailbox) 0) eq_refl) as H.
  split; [reflexivity|]. split; [exact (proj1 H)|].
  exact (proj1 (proj2 (proj2 (proj2 H))) "alice@example.com" "secret").
Defined.

(** * Properties of the other methods and of the router *)

(** ** Texts *)
Module TextFacts.

Lemma append_assoc (a b c : string) : ((a ++ b) ++ c = a ++ b ++ c)%string.
Proof. induction a as [|x a IH]; cbn [append]; congruence. Qed.

End TextFacts.

(** ** LIKE *)
Section LikeFacts.

Context {engine : Engine}.

Lemma like_percent (p : string) (t : string) :
  like (String "%" p) t =
  like p t || match t with
              | EmptyString => false
              | String _ t' => like (String "%" p) t'
              end.
Proof. destruct t; reflexivity. Qed.

Lemma like_char (c : ascii) (p : string) (t : string) :
  Ascii.eqb c "%" = false ->
  like (String c p) t =
  match t with
  | EmptyString => false
  | String x t' =>
      (Ascii.eqb c "_" || Ascii.eqb (like_fold c) (like_fold x)) && like p t'
  end.
Proof. intros H. cbn [like]. rewrite H. reflexivity. Qed.

Lemma like_skip (p a t : string) :
  like p t = true -> like (String "%" p) (a ++ t) = true.
Proof.
  intros H. induction a as [|c a IH]; cbn [append]; rewrite like_percent.
  - rewrite H. reflexivity.
  - rewrite IH. apply orb_true_r.
Qed.

Lemma like_percent_inv (p t : string) :
  like (String "%" p) t = true ->
  exists a t', t = (a ++ t')%string /\ like p t' = true.
Proof.
  induction t as [|c t IH]; rewrite like_percent; intros H.
  - rewrite orb_false_r in H. exists "", "". auto.
  - apply orb_true_iff in H as [H | H].
    + exists "", (String c t). auto.
    + destruct (IH H) as (a & t' & -> & Ht'). exists (String c a), t'. auto.
Qed.

Lemma like_any (t : string) : like "%" t = true.
Proof.
  induction t as [|c t IH]; rewrite like_percent; [reflexivity|].
  rewrite IH. apply orb_true_r.
Qed.

Lemma like_app (p1 p2 : string) :
  forall t1 t2, like p1 t1 = true -> like p2 t2 = true ->
                like (p1 ++ p2) (t1 ++ t2) = true.
Proof.
  induction p1 as [|c p1 IH]; intros t1 t2 H1 H2.
  - destruct t1; [exact H2 | discriminate].
  - cbn [append]. destruct (Ascii.eqb c "%") eqn:E.
    + apply Ascii.eqb_eq in E. subst c.
      apply like_percent_inv in H1 as (a & t' & -> & H1).
      rewrite TextFacts.append_assoc. apply like_skip. now apply IH.
    + rewrite (like_char _ _ _ E) in H1. rewrite (like_char _ _ _ E).
      destruct t1 as [|x t1]; [discriminate|]. cbn [append].
      apply andb_true_iff in H1 as [Hc H1]. rewrite Hc. cbn [andb].
      now apply IH.
Qed.

Lemma like_refl (s : string) : like s s = true.
Proof.
  induction s as [|c s IH]; [reflexivity|].
  destruct (Ascii.eqb c "%") eqn:E.
  - apply Ascii.eqb_eq in E. subst c.
    change (String "%" s) with ("%" ++ s)%string at 2.
    apply (like_skip s "%" s IH).
  - rewrite (like_char _ _ _ E), Ascii.eqb_refl, orb_true_r. exact IH.
Qed.

(** A text that contains [x] matches the pattern around [x], whatever the
    characters of [x]. *)
Lemma like_containing (x a b : string) :
  like (containing x) (a ++ x ++ b) = true.
Proof.
  unfold containing. change ("%" ++ x ++ "%")%string with (String "%" (x ++ "%")).
  apply like_skip. apply like_app; [apply like_refl | apply like_any].
Qed.

Lemma folded_cons (c : ascii) (s : string) :
  folded (String c s) = String (like_fold c) (folded s).
Proof. reflexivity. Qed.

Lemma like_literal_prefix (x : string) :
  literal x = true ->
  forall t,
    like (x ++ "%") t = true <->
    exists x' b, t = (x' ++ b)%string /\ folded x' = folded x.
Proof.
  induction x as [|c x IH]; intros Hl t.
  - cbn [append]. rewrite like_any. split; [|auto].
    intros _. exists "", t. auto.
  - cbn [literal JS.all_chars] in Hl. apply andb_true_iff in Hl as [Hc Hl].
    unfold wildcard in Hc. apply negb_true_iff, orb_false_iff in Hc as [Hp Hu].
    cbn [append]. rewrite (like_char _ _ _ Hp), Hu. cbn [orb].
    destruct t as [|y t].
    + split; [discriminate|]. intros (x' & b & Ht & Hf).
      destruct x' as [|? ?]; [discriminate Hf | discriminate Ht].
    + rewrite andb_true_iff, (IH Hl t). split.
      * intros [Hy (x' & b & -> & Hf)]. apply Ascii.eqb_eq in Hy.
        exists (String y x'), b. split; [reflexivity|].
        rewrite !folded_cons. congruence.
      * intros (x' & b & Ht & Hf). destruct x' as [|y' x']; [discriminate Hf|].
        cbn [append] in Ht. injection Ht as <- ->.
        rewrite !folded_cons in Hf. injection Hf as Hy Hf.
        split; [apply Ascii.eqb_eq; auto | eauto].
Qed.

(** For a text without wildcards the pattern matches exactly the texts
    that contain it up to the folding. *)
Lemma like_containing_literal (x t : string) :
  literal x = true ->
  like (containing x) t = true <->
  exists a x' b, t = (a ++ x' ++ b)%string /\ folded x' = folded x.
Proof.
  intros Hl. unfold containing.
  change ("%" ++ x ++ "%")%string with (String "%" (x ++ "%")). split.
  - intros H. apply like_percent_inv in H as (a & t' & -> & H).
    apply (like_literal_prefix x Hl) in H as (x' & b & -> & Hf). eauto.
  - intros (a & x' & b & -> & Hf). apply like_skip.
    apply (like_literal_prefix x Hl). eauto.
Qed.

End LikeFacts.

(** ** The other methods of the mailbox store *)

Ltac run_store :=
  cbv beta delta
    [bind ret throw try_catch one select count insert update delete
     insert_all update_unique
     folders_table emails_table attachments_table
     mailbox_rows on_mailbox with_storage no_such_table];
  cbn [storage clock entropy drawn table_name rows_of put_rows violation
       on_delete negb emails folders attachments].

Module StoreFacts.

Lemma map_if_none {A : Type} (cond : A -> bool) (set : A -> A) (l : list A) :
  find cond l = None -> map (fun r => if cond r then set r else r) l = l.
Proof.
  induction l as [|x l IH]; cbn [find map]; [reflexivity|].
  destruct (cond x); [discriminate|]. intros H. now rewrite IH.
Qed.

Lemma find_map_if {A : Type} (cond : A -> bool) (set : A -> A) (l : list A) :
  (forall r, cond (set r) = cond r) ->
  find cond (map (fun r => if cond r then set r else r) l)
  = option_map set (find cond l).
Proof.
  intros Hset. induction l as [|x l IH]; [reflexivity|]. cbn [map find].
  destruct (cond x) eqn:E.
  - now rewrite Hset, E.
  - now rewrite E.
Qed.

Lemma find_map_if_other {A : Type} (cond other : A -> bool) (set : A -> A)
  (l : list A) :
  (forall r, other (set r) = other r) ->
  find other (map (fun r => if cond r then set r else r) l)
  = option_map (fun r => if cond r then set r else r) (find other l).
Proof.
  intros Hset. induction l as [|x l IH]; [reflexivity|]. cbn [map find].
  destruct (cond x) eqn:E.
  - rewrite Hset. destruct (other x); [cbn [option_map]; now rewrite E | exact IH].
  - destruct (other x); [cbn [option_map]; now rewrite E | exact IH].
Qed.

Lemma find_snoc {A : Type} (p : A -> bool) (l : list A) (x : A) :
  find p (l ++ [x]) =
  match find p l with
  | Some y => Some y
  | None => if p x then Some x else None
  end.
Proof.
  induction l as [|y l IH]; cbn [find app]; [reflexivity|].
  destruct (p y); auto.
Qed.

Lemma first_violation_fresh (rs rows : list Attachments.row) :
  NoDup (map Attachments.id rs) ->
  (forall a, In a rs -> has_key Attachments.id (Attachments.id a) rows = false) ->
  first_violation attachments_table rs rows = None.
Proof.
  revert rows. induction rs as [|r rs IH]; intros rows Hd Hf; [reflexivity|].
  cbn [first_violation violation attachments_table].
  rewrite (Hf r (or_introl eq_refl)).
  cbn [map] in Hd. apply NoDup_cons_iff in Hd as [Hr Hd].
  apply IH; [exact Hd|].
  intros a Ha. rewrite QueryFacts.has_key_app, (Hf a (or_intror Ha)).
  cbn [has_key existsb orb].
  destruct (String.eqb_spec (Attachments.id r) (Attachments.id a)) as [E|E];
    [|reflexivity].
  exfalso. apply Hr. rewrite E. now apply in_map.
Qed.


Lemma tables_eta (t : MailboxTables) :
  {| emails := emails t; folders := folders t; attachments := attachments t |} = t.
Proof. now destruct t. Qed.

Lemma has_key_false_in {R : Type} (key : R -> string) (k : string)
  (rows : list R) (r : R) :
  has_key key k rows = false -> In r rows -> key r <> k.
Proof.
  intros Hk Hin E. assert (has_key key k rows = true); [|congruence].
  apply existsb_exists. exists r. split; [exact Hin|]. now apply String.eqb_eq.
Qed.

End StoreFacts.

Section MailboxStoreFacts.

Context {engine : Engine}.

Local Abbreviation by_id id := (fun e : Emails.row => String.eqb (Emails.id e) id).

Local Abbreviation of_email id :=
  (fun a : Attachments.row => String.eqb (Attachments.email_id a) id).

Lemma getEmail_run (w : World) (t : MailboxTables) (id : string) :
  storage w = MailboxDB t ->
  getEmail id w =
  Returned
    (option_map (fun row => email_detail row (filter (of_email id) (attachments t)))
       (find (by_id id) (emails t))) w.
Proof.
  intros Hs. known_storage Hs. unfold getEmail. run_store.
  rewrite QueryFacts.hd_error_filter.
  destruct (find _ (emails t)) as [row|]; reflexivity.
Qed.

Lemma createEmail_run (w : World) (t : MailboxTables) (folder : string)
  (email : EmailData.t) (rows : list Attachments.row) :
  storage w = MailboxDB t ->
  createEmail folder email rows w =
  if has_key Emails.id (EmailData.id email) (emails t)
  then Thrown (unique_failed "emails" "id") w
  else
    let stored := (emails t ++ [new_email_row folder email])%list in
    match rows with
    | [] =>
        Returned tt
          (with_storage
             (MailboxDB {| emails := stored; folders := folders t;
                           attachments := attachments t |}) w)
    | _ :: _ =>
        match first_violation attachments_table rows (attachments t) with
        | Some message =>
            Thrown message
              (with_storage
                 (MailboxDB {| emails := stored; folders := folders t;
                               attachments := attachments t |}) w)
        | None =>
            Returned tt
              (with_storage
                 (MailboxDB {| emails := stored; folders := folders t;
                               attachments := attachments t ++ rows |}) w)
        end
    end.
Proof.
  intros Hs. known_storage Hs. unfold createEmail. run_store.
  cbn [new_email_row Emails.id].
  destruct (has_key Emails.id (EmailData.id email) (emails t)); [reflexivity|].
  destruct rows as [|a rows]; [reflexivity|]. run_store.
  destruct (first_violation _ _ _); reflexivity.
Qed.

(** X1: an email put in the store with [createEmail] is what [getEmail]
    returns for its id, with the attachments given, the other emails being
    as before; when the store already holds an email with the id,
    [createEmail] throws and stores neither the email nor any of the
    attachments. *)
Theorem createEmail_then_getEmail
  (w : World) (t : MailboxTables) (folder : string) (email : EmailData.t)
  (rows : list Attachments.row) :
  storage w = MailboxDB t ->
  has_key Folders.id folder (folders t) = true ->
  (has_key Emails.id (EmailData.id email) (emails t) = true ->
   createEmail folder email rows w = Thrown (unique_failed "emails" "id") w) /\
  (has_key Emails.id (EmailData.id email) (emails t) = false ->
   NoDup (map Attachments.id rows) ->
   (forall a, In a rows ->
              has_key Attachments.id (Attachments.id a) (attachments t) = false /\
              Attachments.email_id a = EmailData.id email) ->
   exists w1,
     createEmail folder email rows w = Returned tt w1 /\
     getEmail (EmailData.id email) w1 =
       Returned
         (Some (email_detail (new_email_row folder email)
                  (filter (of_email (EmailData.id email)) (attachments t) ++ rows)))
         w1 /\
     forall id d, id <> EmailData.id email ->
                  getEmail id w = Returned d w -> getEmail id w1 = Returned d w1).
Proof.
  intros Hs _. split.
  { intros Hk. now rewrite (createEmail_run w t folder email rows Hs), Hk. }
  intros Hfresh Hd Hrows.
  assert (Hv : first_violation attachments_table rows (attachments t) = None).
  { apply StoreFacts.first_violation_fresh; [exact Hd|].
    intros a Ha. exact (proj1 (Hrows a Ha)). }
  assert (Hmine : filter (of_email (EmailData.id email)) rows = rows).
  { rewrite <- (QueryFacts.filter_true rows) at 2.
    apply QueryFacts.filter_ext_in_bool. intros a Ha.
    rewrite (proj2 (Hrows a Ha)). apply String.eqb_refl. }
  assert (Hothers : forall id, id <> EmailData.id email ->
                               filter (of_email id) rows = []).
  { intros id Hid. rewrite <- (QueryFacts.filter_false rows).
    apply QueryFacts.filter_ext_in_bool. intros a Ha.
    rewrite (proj2 (Hrows a Ha)). apply String.eqb_neq. congruence. }
  assert (Hfind : find (by_id (EmailData.id email)) (emails t) = None)
    by exact (QueryFacts.has_key_false_find Emails.id _ _ Hfresh).
  rewrite (createEmail_run w t folder email rows Hs), Hfresh. cbv zeta.
  assert (Hget : forall w1 atts,
    storage w1 =
      MailboxDB {| emails := emails t ++ [new_email_row folder email];
                   folders := folders t; attachments := atts |} ->
    (getEmail (EmailData.id email) w1 =
       Returned (Some (email_detail (new_email_row folder email)
                         (filter (of_email (EmailData.id email)) atts))) w1) /\
    forall id, id <> EmailData.id email ->
      getEmail id w1 =
      Returned (option_map (fun row => email_detail row (filter (of_email id) atts))
                  (find (by_id id) (emails t))) w1).
  { intros w1 atts Hs1. split.
    - rewrite (getEmail_run w1 _ _ Hs1). cbn [emails attachments].
      rewrite StoreFacts.find_snoc, Hfind.
      cbn [new_email_row Emails.id]. now rewrite String.eqb_refl.
    - intros id Hid. rewrite (getEmail_run w1 _ _ Hs1). cbn [emails attachments].
      rewrite StoreFacts.find_snoc. cbn [new_email_row Emails.id].
      apply not_eq_sym, String.eqb_neq in Hid. rewrite Hid.
      now destruct (find (by_id id) (emails t)). }
  destruct rows as [|a rows].
  - eexists. split; [reflexivity|].
    match goal with
    | |- context [getEmail _ ?w1 = Returned (Some _) _] =>
        destruct (Hget w1 (attachments t) eq_refl) as [Hmail Hrest]
    end.
    split.
    + rewrite Hmail, app_nil_r. reflexivity.
    + intros id d Hid Hbefore. rewrite (Hrest id Hid).
      rewrite (getEmail_run w t id Hs) in Hbefore. now injection Hbefore as <-.
  - rewrite Hv. eexists. split; [reflexivity|].
    match goal with
    | |- context [getEmail _ ?w1 = Returned (Some _) _] =>
        destruct (Hget w1 (attachments t ++ a :: rows)%list eq_refl) as [Hmail Hrest]
    end.
    split.
    + rewrite Hmail, filter_app, Hmine. reflexivity.
    + intros id d Hid Hbefore. rewrite (Hrest id Hid).
      rewrite filter_app, (Hothers id Hid), app_nil_r.
      rewrite (getEmail_run w t id Hs) in Hbefore. now injection Hbefore as <-.
Qed.

Local Abbreviation flagged id flags t :=
  {| emails := map (fun e => if by_id id e then with_flags flags e else e)
                   (emails t);
     folders := folders t;
     attachments := attachments t |}.

Lemma updateEmail_run (w : World) (t : MailboxTables) (id : string)
  (flags : EmailFlags.t) :
  storage w = MailboxDB t ->
  updateEmail id flags w =
  match EmailFlags.read flags, EmailFlags.starred flags with
  | None, None => getEmail id w
  | _, _ => getEmail id (with_storage (MailboxDB (flagged id flags t)) w)
  end.
Proof.
  intros Hs. known_storage Hs. unfold updateEmail.
  destruct (EmailFlags.read flags), (EmailFlags.starred flags); reflexivity.
Qed.

Lemma flagged_none (w : World) (t : MailboxTables) (id : string)
  (flags : EmailFlags.t) :
  storage w = MailboxDB t ->
  find (by_id id) (emails t) = None ->
  with_storage (MailboxDB (flagged id flags t)) w = w.
Proof.
  intros Hs Hf. known_storage Hs. cbv [with_storage]. cbn [storage clock entropy drawn].
  now rewrite (StoreFacts.map_if_none _ _ _ Hf), StoreFacts.tables_eta.
Qed.

(** X2: [updateEmail] changes the flags it is given, and only those, of the
    email with the id, and returns the email as it then is; without such an
    email it returns null and changes nothing; with no flag it changes
    nothing either. *)
Theorem updateEmail_sets_given_flags_only
  (w : World) (t : MailboxTables) (id : string) (flags : EmailFlags.t) :
  storage w = MailboxDB t ->
  (find (by_id id) (emails t) = None ->
   updateEmail id flags w = Returned None w) /\
  (forall row, find (by_id id) (emails t) = Some row ->
     exists d w1,
       updateEmail id flags w = Returned (Some d) w1 /\
       EmailDetail.read d =
         or_default (EmailFlags.read flags) (negb (Emails.read row =? 0)) /\
       EmailDetail.starred d =
         or_default (EmailFlags.starred flags) (negb (Emails.starred row =? 0)) /\
       EmailDetail.email d = with_flags flags row /\
       EmailDetail.attachments d = filter (of_email id) (attachments t) /\
       (EmailFlags.read flags = None -> EmailFlags.starred flags = None ->
        w1 = w) /\
       forall id' d', id' <> id ->
         getEmail id' w = Returned d' w -> getEmail id' w1 = Returned d' w1).
Proof.
  intros Hs. split.
  - intros Hf. rewrite (updateEmail_run w t id flags Hs).
    rewrite (flagged_none w t id flags Hs Hf).
    rewrite (getEmail_run w t id Hs), Hf.
    destruct (EmailFlags.read flags), (EmailFlags.starred flags); reflexivity.
  - intros row Hf.
    assert (Hkeep : forall e, by_id id (with_flags flags e) = by_id id e)
      by reflexivity.
    assert (Hafter :
      getEmail id (with_storage (MailboxDB (flagged id flags t)) w) =
      Returned (Some (email_detail (with_flags flags row)
                        (filter (of_email id) (attachments t))))
               (with_storage (MailboxDB (flagged id flags t)) w)).
    { rewrite (getEmail_run (with_storage (MailboxDB (flagged id flags t)) w)
                 (flagged id flags t) id eq_refl).
      cbn [emails attachments].
      rewrite (StoreFacts.find_map_if (by_id id) (with_flags flags) _ Hkeep), Hf.
      reflexivity. }
    assert (Hrest : forall id' d', id' <> id ->
      getEmail id' w = Returned d' w ->
      getEmail id' (with_storage (MailboxDB (flagged id flags t)) w) =
      Returned d' (with_storage (MailboxDB (flagged id flags t)) w)).
    { intros id' d' Hid Hbefore.
      rewrite (getEmail_run w t id' Hs) in Hbefore. injection Hbefore as <-.
      rewrite (getEmail_run (with_storage (MailboxDB (flagged id flags t)) w)
                 (flagged id flags t) id' eq_refl).
      cbn [emails attachments].
      rewrite (StoreFacts.find_map_if_other (by_id id) (by_id id')
                 (with_flags flags)) by reflexivity.
      destruct (find (by_id id') (emails t)) as [e|] eqn:He; [|reflexivity].
      cbn [option_map]. apply find_some in He as [_ He].
      apply String.eqb_eq in He.
      assert (Hne : by_id id e = false) by (apply String.eqb_neq; congruence).
      cbn beta. now rewrite Hne. }
    rewrite (updateEmail_run w t id flags Hs).
    destruct flags as [[r|] [s|]]; cbn [EmailFlags.read EmailFlags.starred].
    1-3: rewrite Hafter; eexists; eexists; split; [reflexivity|];
         cbn [email_detail EmailDetail.read EmailDetail.starred EmailDetail.email
              EmailDetail.attachments with_flags in_folder or_default
              EmailFlags.read EmailFlags.starred Emails.read Emails.starred
              Emails.id Emails.subject Emails.sender Emails.recipient Emails.date
              Emails.body Emails.folder_id Emails.in_reply_to
              Emails.email_references Emails.thread_id flag];
         repeat split; try discriminate; auto;
         try (destruct r; reflexivity); try (destruct s; reflexivity).
    rewrite (getEmail_run w t id Hs), Hf. cbn [option_map].
    eexists; eexists; split; [reflexivity|].
    cbn [email_detail EmailDetail.read EmailDetail.starred EmailDetail.email
         EmailDetail.attachments or_default].
    repeat split; auto. now destruct row.
Qed.

(** X3: after a [moveEmail] that returned true, [getEmail] returns
    the email with the id in the folder it was moved to, its other columns,
    flags and attachments being what [getEmail] returned before. *)
Theorem moveEmail_then_getEmail
  (w w1 : World) (t : MailboxTables) (id folderId : string) (d : EmailDetail.t) :
  storage w = MailboxDB t ->
  getEmail id w = Returned (Some d) w ->
  moveEmail id folderId w = Returned true w1 ->
  has_key Folders.id folderId (folders t) = true /\
  getEmail id w1 =
  Returned
    (Some {| EmailDetail.email := in_folder folderId (EmailDetail.email d);
             EmailDetail.read := EmailDetail.read d;
             EmailDetail.starred := EmailDetail.starred d;
             EmailDetail.attachments := EmailDetail.attachments d |}) w1.
Proof.
  intros Hs Hget Hmove.
  rewrite (getEmail_run w t id Hs) in Hget.
  destruct (find (by_id id) (emails t)) as [row|] eqn:Hf; [|discriminate].
  injection Hget as <-.
  rewrite (moveEmail_run w t id folderId Hs) in Hmove.
  destruct (has_key Folders.id folderId (folders t)); [|discriminate].
  injection Hmove as <-. split; [reflexivity|].
  match goal with
  | |- getEmail id ?w1 = _ => rewrite (getEmail_run w1 _ id eq_refl)
  end.
  cbn [emails attachments]. unfold moved.
  rewrite (StoreFacts.find_map_if (by_id id) (in_folder folderId))
    by reflexivity.
  now rewrite Hf.
Qed.

Local Abbreviation deleted id t :=
  {| emails := filter (fun e => negb (by_id id e)) (emails t);
     folders := folders t;
     attachments :=
       filter (fun a => negb (has_key Emails.id (Attachments.email_id a)
                                (filter (by_id id) (emails t))))
              (attachments t) |}.

Lemma deleteEmail_world (w : World) (t : MailboxTables) (id : string) :
  storage w = MailboxDB t ->
  deleteEmail id w =
  Returned
    (map attachment_ref (filter (of_email id) (attachments t)))
    (with_storage (MailboxDB (deleted id t)) w).
Proof.
  intros Hs. known_storage Hs. unfold deleteEmail. run_store. reflexivity.
Qed.

Lemma getAttachment_run (w : World) (t : MailboxTables) (id : string) :
  storage w = MailboxDB t ->
  getAttachment id w =
  Returned (find (fun a => String.eqb (Attachments.id a) id) (attachments t)) w.
Proof.
  intros Hs. known_storage Hs. unfold getAttachment. run_store.
  now rewrite QueryFacts.hd_error_filter.
Qed.

Lemma find_unique_key {R : Type} (key : R -> string) (rows : list R) (r : R) :
  NoDup (map key rows) -> In r rows ->
  find (fun x => String.eqb (key x) (key r)) rows = Some r.
Proof.
  induction rows as [|x rows IH]; intros Hd Hin; [destruct Hin|].
  cbn [map] in Hd. apply NoDup_cons_iff in Hd as [Hx Hd]. cbn [find].
  destruct Hin as [-> | Hin]; [now rewrite String.eqb_refl|].
  destruct (String.eqb_spec (key x) (key r)) as [E|E]; [|auto].
  exfalso. apply Hx. rewrite E. now apply in_map.
Qed.

Lemma find_filter_out {A : Type} (p q : A -> bool) (l : list A) :
  (forall x, In x l -> p x = true -> q x = false) ->
  find p (filter q l) = None.
Proof.
  intros H. induction l as [|x l IH]; [reflexivity|]. cbn [filter].
  assert (IH' : find p (filter q l) = None)
    by (apply IH; intros y Hy; apply H; now right).
  destruct (q x) eqn:Q; [|exact IH']. cbn [find].
  destruct (p x) eqn:P; [|exact IH'].
  rewrite (H x (or_introl eq_refl) P) in Q. discriminate.
Qed.

Lemma find_filter_kept {A : Type} (p q : A -> bool) (l : list A) (r : A) :
  find p l = Some r -> q r = true ->
  (forall x, In x l -> p x = true -> x = r) ->
  find p (filter q l) = Some r.
Proof.
  induction l as [|x l IH]; intros Hf Hq Hu; [discriminate|].
  cbn [find] in Hf. cbn [filter]. destruct (p x) eqn:P.
  - injection Hf as ->. rewrite Hq. cbn [find]. now rewrite P.
  - assert (IH' : find p (filter q l) = Some r)
      by (apply IH; auto; intros y Hy; apply Hu; now right).
    destruct (q x); [cbn [find]; now rewrite P | exact IH'].
Qed.

(** X4: after [deleteEmail] of an email of the store, [getEmail] finds no
    email with the id, [getAttachment] finds none of the attachments that
    were returned, and finds every attachment of the other emails. *)
Theorem deleteEmail_then_nothing_left
  (w : World) (t : MailboxTables) (id : string) :
  storage w = MailboxDB t ->
  has_key Emails.id id (emails t) = true ->
  NoDup (map Attachments.id (attachments t)) ->
  exists refs w1,
    deleteEmail id w = Returned refs w1 /\
    getEmail id w1 = Returned None w1 /\
    (forall r, In r refs ->
               getAttachment (AttachmentRef.id r) w1 = Returned None w1) /\
    (forall a, In a (attachments t) -> Attachments.email_id a <> id ->
               getAttachment (Attachments.id a) w1 = Returned (Some a) w1).
Proof.
  intros Hs Hk Hd. rewrite (deleteEmail_world w t id Hs).
  eexists. eexists. split; [reflexivity|].
  assert (Hgone : forall a,
    negb (has_key Emails.id (Attachments.email_id a)
            (filter (by_id id) (emails t))) = negb (of_email id a)).
  { intros a. now rewrite QueryFacts.has_key_filter_same, Hk, andb_true_r. }
  split; [|split].
  - rewrite (getEmail_run (with_storage (MailboxDB (deleted id t)) w)
               (deleted id t) id eq_refl). cbn [emails].
    now rewrite (QueryFacts.find_filter_negb (by_id id)).
  - intros r Hr. apply in_map_iff in Hr as (a & <- & Ha).
    apply filter_In in Ha as [Ha Hmine].
    rewrite (getAttachment_run (with_storage (MailboxDB (deleted id t)) w)
               (deleted id t) _ eq_refl).
    cbn [attachments attachment_ref AttachmentRef.id].
    rewrite find_filter_out; [reflexivity|].
    intros x Hx Hid. apply String.eqb_eq in Hid.
    assert (x = a) as ->.
    { pose proof (find_unique_key Attachments.id _ x Hd Hx) as Fx.
      pose proof (find_unique_key Attachments.id _ a Hd Ha) as Fa.
      rewrite Hid in Fx. congruence. }
    rewrite Hgone. cbn beta. now rewrite Hmine.
  - intros a Ha Hother.
    rewrite (getAttachment_run (with_storage (MailboxDB (deleted id t)) w)
               (deleted id t) _ eq_refl). cbn [attachments].
    rewrite (find_filter_kept _ _ _ a); [reflexivity| | |].
    + exact (find_unique_key Attachments.id _ a Hd Ha).
    + rewrite Hgone. apply String.eqb_neq in Hother. cbn beta. now rewrite Hother.
    + intros x Hx Hid. apply String.eqb_eq in Hid.
      pose proof (find_unique_key Attachments.id _ x Hd Hx) as Fx.
      pose proof (find_unique_key Attachments.id _ a Hd Ha) as Fa.
      rewrite Hid in Fx. congruence.
Qed.

End MailboxStoreFacts.


(** ** Folders *)
Section FolderFacts.

Context {platform : Platform} {engine : Engine}.

Local Abbreviation with_id id := (fun f : Folders.row => String.eqb (Folders.id f) id).

Local Abbreviation with_folders rows t :=
  {| emails := emails t; folders := rows; attachments := attachments t |}.

Lemma getFolders_run (w : World) (t : MailboxTables) :
  storage w = MailboxDB t ->
  getFolders w = Returned (map folder_name (folders t)) w.
Proof.
  intros Hs. known_storage Hs. unfold getFolders. run_store.
  now rewrite QueryFacts.filter_true.
Qed.

Lemma deleteFolder_run (w : World) (t : MailboxTables) (id : string) :
  storage w = MailboxDB t ->
  deleteFolder id w =
  match find (with_id id) (folders t) with
  | None => Returned false w
  | Some f =>
      if Folders.is_deletable f =? 0 then Returned false w
      else Returned true
             (with_storage
                (MailboxDB
                   (with_folders
                      (filter (fun f => negb (String.eqb (Folders.id f) id)) (folders t)) t)) w)
  end.
Proof.
  intros Hs. known_storage Hs. unfold deleteFolder. run_store.
  rewrite QueryFacts.hd_error_filter.
  destruct (find _ (folders t)) as [f|]; [|reflexivity].
  destruct (Folders.is_deletable f =? 0); reflexivity.
Qed.

(** X5: [deleteFolder] returns true exactly when the store has a folder
    with the id whose [is_deletable] is not 0; when it returns false it
    changes nothing; when it returns true, of a folder that holds no email,
    [getFolders] lists the other folders and no folder with the id, and
    emails and attachments are as before. *)
Theorem deleteFolder_only_deletable
  (w : World) (t : MailboxTables) (id : string) :
  storage w = MailboxDB t ->
  (forall e, In e (emails t) -> Emails.folder_id e <> id) ->
  exists b w1,
    deleteFolder id w = Returned b w1 /\
    (b = true <->
     exists f, find (with_id id) (folders t) = Some f /\
               Folders.is_deletable f <> 0) /\
    (b = false -> w1 = w) /\
    (b = true ->
     exists t1,
       storage w1 = MailboxDB t1 /\
       emails t1 = emails t /\ attachments t1 = attachments t /\
       getFolders w1 =
         Returned (filter (fun n => negb (String.eqb (FolderName.id n) id))
                          (map folder_name (folders t))) w1).
Proof.
  intros Hs _. rewrite (deleteFolder_run w t id Hs).
  destruct (find (with_id id) (folders t)) as [f|] eqn:Hf.
  - destruct (Z.eqb_spec (Folders.is_deletable f) 0) as [E|E].
    + exists false, w. split; [reflexivity|]. split; [|split; [auto|discriminate]].
      split; [discriminate|]. intros (f' & Hf' & Hd). congruence.
    + eexists. eexists. split; [reflexivity|]. split; [|split; [discriminate|]].
      * split; [|reflexivity]. intros _. exists f. auto.
      * intros _. eexists. split; [reflexivity|]. cbn [emails attachments].
        split; [reflexivity|]. split; [reflexivity|].
        match goal with
        | |- context [getFolders ?w1] => rewrite (getFolders_run w1 _ eq_refl)
        end. cbn [folders]. f_equal.
        clear Hf. induction (folders t) as [|x l IH]; [reflexivity|].
        cbn [filter map folder_name FolderName.id].
        destruct (Folders.id x =? id)%string; cbn [negb map]; now rewrite IH.
  - exists false, w. split; [reflexivity|]. split; [|split; [auto|discriminate]].
    split; [discriminate|]. intros (f' & Hf' & _). discriminate.
Qed.

(** X6: a folder made by [createFolder] can be deleted, and its deletion
    leaves the store as it was before the folder was made. *)
Theorem createFolder_then_deleteFolder
  (w w1 : World) (t : MailboxTables) (id name : string) (folder : Folder.t) :
  storage w = MailboxDB t ->
  createFolder id name w = Returned (Some folder) w1 ->
  deleteFolder id w1 = Returned true w.
Proof.
  intros Hs Hc. rewrite (createFolder_run w t id name Hs) in Hc.
  destruct (has_key Folders.id id (folders t)) eqn:Hk; [discriminate|].
  destruct (has_key Folders.name name (folders t)); [discriminate|].
  cbn [orb] in Hc. injection Hc as _ <-.
  match goal with
  | |- context [deleteFolder id ?w1] => rewrite (deleteFolder_run w1 _ id eq_refl)
  end. cbn [folders].
  rewrite StoreFacts.find_snoc,
    (QueryFacts.has_key_false_find Folders.id _ _ Hk).
  cbn [new_folder_row Folders.id Folders.is_deletable].
  rewrite String.eqb_refl. cbn [Z.eqb]. f_equal.
  known_storage Hs. cbv [with_storage]. cbn [storage clock entropy drawn].
  cbn [emails folders attachments]. rewrite filter_app. cbn [filter Folders.id].
  rewrite String.eqb_refl. cbn [negb]. rewrite app_nil_r.
  replace (filter (fun f => negb (String.eqb (Folders.id f) id)) (folders t)) with (folders t).
  - now rewrite StoreFacts.tables_eta.
  - rewrite <- (QueryFacts.filter_true (folders t)) at 1.
    apply QueryFacts.filter_ext_in_bool. intros f Hin. symmetry.
    apply negb_true_iff, String.eqb_neq.
    exact (StoreFacts.has_key_false_in Folders.id id _ f Hk Hin).
Qed.

Local Abbreviation renamed_rows id name rows :=
  (map (fun f => if String.eqb (Folders.id f) id then renamed name f else f) rows).

Lemma updateFolder_run (w : World) (t : MailboxTables) (id name : string) :
  storage w = MailboxDB t ->
  updateFolder id name w =
  if existsb
       (fun f => with_id id f &&
                 negb (occurrences name
                         (map Folders.name (renamed_rows id name (folders t)))
                       =? 1)%nat)
       (folders t)
  then Thrown (unique_failed "folders" "name") w
  else Returned
         (option_map folder_name
            (find (with_id id) (renamed_rows id name (folders t))))
         (with_storage
            (MailboxDB (with_folders (renamed_rows id name (folders t)) t)) w).
Proof.
  intros Hs. known_storage Hs. unfold updateFolder. run_store.
  cbn [renamed Folders.name].
  destruct (existsb _ (folders t)); [reflexivity|].
  run_store. now rewrite QueryFacts.hd_error_filter.
Qed.

(** The rows that hold [name] after the update are the row with the id and
    the rows that held the name. *)
Lemma occurrences_renamed (id name : string) (rows : list Folders.row) :
  occurrences name (map Folders.name (renamed_rows id name rows)) =
  List.length
    (filter (fun f => String.eqb (Folders.id f) id || String.eqb name (Folders.name f))
       rows).
Proof.
  unfold occurrences. induction rows as [|x l IH]; [reflexivity|].
  cbn [map filter]. destruct (Folders.id x =? id)%string; cbn [orb].
  - cbn [renamed Folders.name]. rewrite String.eqb_refl. cbn [List.length].
    now rewrite IH.
  - destruct (name =? Folders.name x)%string; cbn [List.length]; now rewrite IH.
Qed.

Lemma length_filter_key {R : Type} (key : R -> string) (rows : list R) (r : R) :
  NoDup (map key rows) -> In r rows ->
  List.length (filter (fun x => String.eqb (key x) (key r)) rows) = 1%nat.
Proof.
  induction rows as [|x rows IH]; intros Hd Hin; [destruct Hin|].
  cbn [map] in Hd. apply NoDup_cons_iff in Hd as [Hx Hd]. cbn [filter].
  destruct Hin as [-> | Hin].
  - rewrite String.eqb_refl. cbn [List.length]. f_equal.
    replace (filter (fun x => (key x =? key r)%string) rows) with (@nil R);
      [reflexivity|].
    symmetry. rewrite <- (QueryFacts.filter_false rows).
    apply QueryFacts.filter_ext_in_bool. intros y Hy. apply String.eqb_neq.
    intros E. apply Hx. rewrite <- E. now apply in_map.
  - destruct (String.eqb_spec (key x) (key r)) as [E|E]; [|auto].
    exfalso. apply Hx. rewrite E. now apply in_map.
Qed.

Lemma two_in_filter {A : Type} (p : A -> bool) (l : list A) (x y : A) :
  In x l -> In y l -> x <> y -> p x = true -> p y = true ->
  (2 <= List.length (filter p l))%nat.
Proof.
  induction l as [|z l IH]; intros Hx Hy Hne Px Py; [destruct Hx|].
  assert (Hone : forall u, In u l -> p u = true ->
                           (1 <= List.length (filter p l))%nat).
  { intros u Hu Pu. assert (Hin : In u (filter p l)) by (apply filter_In; auto).
    destruct (filter p l); [destruct Hin | cbn; lia]. }
  cbn [filter]. destruct Hx as [-> | Hx], Hy as [-> | Hy].
  - congruence.
  - rewrite Px. cbn [List.length]. specialize (Hone y Hy Py). lia.
  - rewrite Py. cbn [List.length]. specialize (Hone x Hx Px). lia.
  - specialize (IH Hx Hy Hne Px Py). destruct (p z); cbn [List.length]; lia.
Qed.

Lemma NoDup_of_counts (l : list string) :
  (forall k, (occurrences k l <= 1)%nat) -> NoDup l.
Proof.
  induction l as [|x l IH]; intros Hc; constructor.
  - intros Hx. specialize (Hc x). unfold occurrences in Hc.
    cbn [filter] in Hc. rewrite String.eqb_refl in Hc. cbn [List.length] in Hc.
    assert (Hin' : In x (filter (String.eqb x) l))
      by (apply filter_In; split; [exact Hx | apply String.eqb_refl]).
    destruct (filter (String.eqb x) l); [destruct Hin' | cbn in Hc; lia].
  - apply IH. intros k. specialize (Hc k). unfold occurrences in *.
    cbn [filter] in Hc. destruct (k =? x)%string; cbn [List.length] in Hc; lia.
Qed.

Lemma counts_of_NoDup (l : list string) (k : string) :
  NoDup l -> (occurrences k l <= 1)%nat.
Proof.
  unfold occurrences. intros Hl. induction Hl as [|x l Hx Hl IH]; [apply Nat.le_0_l|].
  cbn [filter]. destruct (String.eqb_spec k x) as [->|E]; [|exact IH].
  cbn [List.length].
  replace (filter (String.eqb x) l) with (@nil string); [cbn; lia|].
  symmetry. rewrite <- (QueryFacts.filter_false l).
  apply QueryFacts.filter_ext_in_bool. intros y Hy.
  apply String.eqb_neq. intros ->. contradiction.
Qed.

Lemma occurrences_renamed_other (id name k : string) (rows : list Folders.row) :
  k <> name ->
  (occurrences k (map Folders.name (renamed_rows id name rows))
   <= occurrences k (map Folders.name rows))%nat.
Proof.
  intros Hk. unfold occurrences.
  induction rows as [|x l IH]; [apply Nat.le_refl|]. cbn [map filter].
  destruct (Folders.id x =? id)%string.
  - cbn [renamed Folders.name]. apply String.eqb_neq in Hk. rewrite Hk.
    destruct (k =? Folders.name x)%string; cbn [List.length]; lia.
  - destruct (k =? Folders.name x)%string; cbn [List.length]; lia.
Qed.

Lemma renamed_once (id name : string) (rows : list Folders.row) (f : Folders.row) :
  NoDup (map Folders.id rows) ->
  In f rows -> Folders.id f = id ->
  (forall g, In g rows -> Folders.id g <> id -> Folders.name g <> name) ->
  occurrences name (map Folders.name (renamed_rows id name rows)) = 1%nat.
Proof.
  intros Hids Hin Hid Hfree.
  rewrite occurrences_renamed, <- (length_filter_key Folders.id _ f Hids Hin).
  f_equal. apply QueryFacts.filter_ext_in_bool. intros g Hg. rewrite Hid.
  destruct (String.eqb_spec (Folders.id g) id) as [E|E]; [reflexivity|].
  cbn [orb]. apply String.eqb_neq. apply not_eq_sym. now apply Hfree.
Qed.

(** The update of a folder to a name no other folder has. *)
Lemma updateFolder_goes_through
  (w : World) (t : MailboxTables) (id name : string) (f : Folders.row) :
  storage w = MailboxDB t ->
  NoDup (map Folders.id (folders t)) ->
  In f (folders t) -> Folders.id f = id ->
  (forall g, In g (folders t) -> Folders.id g <> id -> Folders.name g <> name) ->
  updateFolder id name w =
  Returned (Some {| FolderName.id := id; FolderName.name := name |})
    (with_storage
       (MailboxDB (with_folders (renamed_rows id name (folders t)) t)) w).
Proof.
  intros Hs Hids Hin Hid Hfree. rewrite (updateFolder_run w t id name Hs).
  rewrite (renamed_once id name _ f Hids Hin Hid Hfree). cbn [Nat.eqb negb].
  assert (Hnone : existsb (fun f0 => String.eqb (Folders.id f0) id && false)
                          (folders t) = false).
  { apply not_true_is_false. intros H.
    apply existsb_exists in H as (x & _ & H). now rewrite andb_false_r in H. }
  rewrite Hnone.
  assert (Hkeep : forall r, with_id id (renamed name r) = with_id id r)
    by reflexivity.
  rewrite (StoreFacts.find_map_if (with_id id) (renamed name) _ Hkeep).
  pose proof (find_unique_key Folders.id _ f Hids Hin) as Hf.
  rewrite Hid in Hf. rewrite Hf. cbn [option_map].
  change (folder_name (renamed name f))
    with {| FolderName.id := Folders.id f; FolderName.name := name |}.
  now rewrite Hid.
Qed.

(** X7: [updateFolder] gives the folder with the id the name and returns
    its id and new name, emails and attachments and the other folders
    being as before; it returns null and changes nothing without such a
    folder; it throws, and changes nothing, when another folder has the
    name. *)
Theorem updateFolder_renames
  (w : World) (t : MailboxTables) (id name : string) :
  storage w = MailboxDB t ->
  unique_folders (folders t) ->
  (has_key Folders.id id (folders t) = false ->
   updateFolder id name w = Returned None w) /\
  (forall f,
     In f (folders t) -> Folders.id f = id ->
     (forall g, In g (folders t) -> Folders.id g <> id ->
                Folders.name g <> name) ->
     exists w1 t1,
       updateFolder id name w =
         Returned (Some {| FolderName.id := id; FolderName.name := name |}) w1 /\
       storage w1 = MailboxDB t1 /\
       emails t1 = emails t /\ attachments t1 = attachments t /\
       unique_folders (folders t1) /\
       In (renamed name f) (folders t1) /\
       (forall g, In g (folders t) -> Folders.id g <> id -> In g (folders t1)) /\
       map Folders.id (folders t1) = map Folders.id (folders t)) /\
  (forall f g,
     In f (folders t) -> Folders.id f = id ->
     In g (folders t) -> Folders.id g <> id -> Folders.name g = name ->
     updateFolder id name w = Thrown (unique_failed "folders" "name") w).
Proof.
  intros Hs [Hids Hnames]. rewrite (updateFolder_run w t id name Hs).
  split; [|split].
  - intros Hk.
    pose proof (QueryFacts.has_key_false_find Folders.id _ _ Hk) as Hf.
    assert (Hnone : existsb
              (fun f => with_id id f &&
                 negb (occurrences name
                         (map Folders.name (renamed_rows id name (folders t)))
                       =? 1)%nat) (folders t) = false).
    { apply not_true_is_false. intros H.
      apply existsb_exists in H as (f & Hin & H).
      apply andb_true_iff in H as [H _]. apply String.eqb_eq in H.
      exact (StoreFacts.has_key_false_in Folders.id id _ f Hk Hin H). }
    rewrite Hnone, (StoreFacts.map_if_none _ _ _ Hf), Hf. cbn [option_map].
    f_equal. known_storage Hs. cbv [with_storage].
    cbn [storage clock entropy drawn]. now rewrite StoreFacts.tables_eta.
  - intros f Hin Hid Hfree.
    rewrite <- (updateFolder_run w t id name Hs).
    rewrite (updateFolder_goes_through w t id name f Hs Hids Hin Hid Hfree).
    assert (Hsame : map Folders.id (renamed_rows id name (folders t))
                    = map Folders.id (folders t)).
    { rewrite map_map. apply map_ext. intros g.
      now destruct (Folders.id g =? id)%string. }
    eexists. eexists. split; [reflexivity|]. split; [reflexivity|].
    cbn [emails folders attachments].
    split; [reflexivity|]. split; [reflexivity|]. split; [|split; [|split]].
    + split; [now rewrite Hsame|].
      apply NoDup_of_counts. intros k.
      destruct (String.eqb_spec k name) as [->|Hk];
        [now rewrite (renamed_once id name _ f Hids Hin Hid Hfree)|].
      apply (Nat.le_trans _ _ _ (occurrences_renamed_other id name k _ Hk)).
      now apply counts_of_NoDup.
    + apply in_map_iff. exists f. rewrite Hid, String.eqb_refl. auto.
    + intros g Hg Hne. apply in_map_iff. exists g.
      apply String.eqb_neq in Hne. rewrite Hne. auto.
    + exact Hsame.
  - intros f g Hf Hid Hg Hgid Hgname.
    assert (Htwo : (2 <= occurrences name
                          (map Folders.name (renamed_rows id name (folders t))))%nat).
    { rewrite occurrences_renamed.
      apply (two_in_filter _ _ f g Hf Hg).
      - congruence.
      - rewrite Hid, String.eqb_refl. reflexivity.
      - rewrite Hgname, String.eqb_refl. apply orb_true_r. }
    assert (Hsome : existsb
              (fun f => with_id id f &&
                 negb (occurrences name
                         (map Folders.name (renamed_rows id name (folders t)))
                       =? 1)%nat) (folders t) = true).
    { apply existsb_exists. exists f. split; [exact Hf|].
      rewrite Hid, String.eqb_refl. cbn [andb].
      apply negb_true_iff, Nat.eqb_neq. lia. }
    now rewrite Hsome.
Qed.

End FolderFacts.


(** ** Search *)
Section SearchFacts.

Context {engine : Engine}.

Lemma searchEmails_run (w : World) (t : MailboxTables) (options : SearchOptions.t) :
  storage w = MailboxDB t ->
  searchEmails options w =
  Returned
    (map summary_of_row
       (filter
          (search_condition options
             (option_map (fun key => resolve_folder key (folders t))
                (truthy (SearchOptions.folder options))))
          (emails t))) w.
Proof.
  intros Hs. known_storage Hs. unfold searchEmails, folder_lookup, resolve_folder.
  destruct (truthy (SearchOptions.folder options)) as [key|]; run_store.
  - now rewrite QueryFacts.hd_error_filter.
  - reflexivity.
Qed.

Lemma search_condition_query_only (query : string) (e : Emails.row) :
  search_condition (query_only query) None e =
  like (containing query) (Emails.subject e) ||
  like (containing query) (Emails.body e).
Proof. reflexivity. Qed.

(** X8: a search with a query and no other condition returns every email
    whose subject or body contains the query as it is written, whatever the
    characters of the query and whatever folding [LIKE] applies. *)
Theorem searchEmails_finds_containing
  (w : World) (t : MailboxTables) (query a b : string) (e : Emails.row) :
  storage w = MailboxDB t ->
  In e (emails t) ->
  Emails.subject e = (a ++ query ++ b)%string \/
  Emails.body e = (a ++ query ++ b)%string ->
  exists found,
    searchEmails (query_only query) w = Returned found w /\
    In (summary_of_row e) found.
Proof.
  intros Hs Hin Hhas. rewrite (searchEmails_run w t _ Hs).
  eexists. split; [reflexivity|]. apply in_map, filter_In. split; [exact Hin|].
  cbn [query_only SearchOptions.folder truthy option_map].
  rewrite search_condition_query_only.
  destruct Hhas as [-> | ->]; rewrite like_containing;
    [reflexivity | apply orb_true_r].
Qed.

(** X9: for a query without [%] and [_], and no other condition, the
    emails a search returns are exactly those whose subject or body
    contains a text with the folding of the query. *)
Theorem searchEmails_literal_query
  (w : World) (t : MailboxTables) (query : string) :
  storage w = MailboxDB t ->
  literal query = true ->
  exists found,
    searchEmails (query_only query) w = Returned found w /\
    forall s,
      In s found <->
      exists e a x b,
        In e (emails t) /\ s = summary_of_row e /\
        folded x = folded query /\
        (Emails.subject e = (a ++ x ++ b)%string \/
         Emails.body e = (a ++ x ++ b)%string).
Proof.
  intros Hs Hl. rewrite (searchEmails_run w t _ Hs).
  eexists. split; [reflexivity|]. intros s.
  cbn [query_only SearchOptions.folder truthy option_map].
  rewrite in_map_iff. split.
  - intros (e & <- & He). apply filter_In in He as [Hin Hc].
    rewrite search_condition_query_only in Hc.
    apply orb_true_iff in Hc as [Hc | Hc];
      apply (like_containing_literal query _ Hl) in Hc as (a & x & b & Ht & Hf);
      exists e, a, x, b; auto.
  - intros (e & a & x & b & Hin & -> & Hf & Ht). exists e.
    split; [reflexivity|]. apply filter_In. split; [exact Hin|].
    rewrite search_condition_query_only. apply orb_true_iff.
    destruct Ht as [Ht | Ht]; [left | right];
      apply (like_containing_literal query _ Hl); eauto.
Qed.

Lemma like_percents (p t : string) :
  JS.all_chars (Ascii.eqb "%") p = true -> like (String "%" p) t = true.
Proof.
  revert t. induction p as [|c p IH]; intros t Hp; [apply like_any|].
  cbn [JS.all_chars] in Hp. apply andb_true_iff in Hp as [Hc Hp].
  apply Ascii.eqb_eq in Hc. subst c.
  rewrite like_percent, (IH t Hp). reflexivity.
Qed.

Lemma all_chars_snoc (p : ascii -> bool) (s : string) (c : ascii) :
  JS.all_chars p s = true -> p c = true ->
  JS.all_chars p (s ++ String c EmptyString) = true.
Proof.
  intros Hs Hc. induction s as [|x s IH]; cbn [append JS.all_chars].
  - now rewrite Hc.
  - cbn [JS.all_chars] in Hs. apply andb_true_iff in Hs as [Hx Hs].
    now rewrite Hx, IH.
Qed.

(** X10: the character [%] of a query is a wildcard of the pattern: a
    query made of [%] only, like the empty query, returns every email of
    the store, or every email that passes the other conditions when there
    are some and no folder is given. *)
Theorem searchEmails_query_of_wildcards
  (w : World) (t : MailboxTables) (query : string) :
  storage w = MailboxDB t ->
  JS.all_chars (Ascii.eqb "%") query = true ->
  searchEmails (query_only query) w = Returned (map summary_of_row (emails t)) w /\
  forall options,
    SearchOptions.query options = query ->
    SearchOptions.folder options = None ->
    searchEmails options w =
    Returned
      (map summary_of_row
         (filter
            (fun e =>
               match truthy (SearchOptions.from options) with
               | Some x => like (containing x) (Emails.sender e)
               | None => true
               end &&
               match truthy (SearchOptions.to options) with
               | Some x => like (containing x) (Emails.recipient e)
               | None => true
               end &&
               match truthy (SearchOptions.date_start options) with
               | Some d => String.leb d (Emails.date e)
               | None => true
               end &&
               match truthy (SearchOptions.date_end options) with
               | Some d => String.leb (Emails.date e) d
               | None => true
               end)
            (emails t))) w.
Proof.
  intros Hs Hq.
  assert (Hall : forall text, like (containing query) text = true).
  { intros text. unfold containing.
    change ("%" ++ query ++ "%")%string with (String "%" (query ++ "%")).
    apply like_percents. now apply all_chars_snoc. }
  split.
  - rewrite (searchEmails_run w t _ Hs). do 2 f_equal.
    rewrite <- (QueryFacts.filter_true (emails t)) at 2.
    apply QueryFacts.filter_ext_in_bool. intros e _.
    cbn [query_only SearchOptions.folder truthy option_map].
    now rewrite search_condition_query_only, Hall.
  - intros options Hquery Hfolder. rewrite (searchEmails_run w t _ Hs).
    do 2 f_equal. apply QueryFacts.filter_ext_in_bool. intros e _.
    rewrite Hfolder. cbn [truthy option_map]. unfold search_condition.
    rewrite Hquery, Hall. cbn [andb orb]. now rewrite andb_true_r.
Qed.

(** X11: the other conditions of a search only narrow it: every email a
    search returns is returned by the search with the same query and no
    other condition. *)
Theorem searchEmails_conditions_narrow
  (w : World) (t : MailboxTables) (options : SearchOptions.t) :
  storage w = MailboxDB t ->
  exists found wide,
    searchEmails options w = Returned found w /\
    searchEmails (query_only (SearchOptions.query options)) w = Returned wide w /\
    incl found wide.
Proof.
  intros Hs. rewrite !(searchEmails_run w t _ Hs).
  eexists. eexists. split; [reflexivity|]. split; [reflexivity|].
  intros s Hin. apply in_map_iff in Hin as (e & <- & He).
  apply filter_In in He as [Hin Hc]. apply in_map, filter_In.
  split; [exact Hin|].
  cbn [query_only SearchOptions.folder truthy option_map].
  rewrite search_condition_query_only.
  unfold search_condition in Hc. apply andb_true_iff in Hc as [_ Hc]. exact Hc.
Qed.

End SearchFacts.

(** ** A folder key that is the name of one folder and the id of another *)
Section FolderKeyFacts.

Context {engine : Engine}.

(** X12: after a folder [a] is renamed [k] and a folder with id [k] is
    created, the key [k] of a search resolves to the folder [a]: the search
    returns emails of the folder [a] only, and none of the folder whose
    id is [k]. *)
Theorem renamed_folder_takes_over_key
  (w : World) (t : MailboxTables) (a k name : string) (f : Folders.row) :
  storage w = MailboxDB t ->
  unique_folders (folders t) ->
  In f (folders t) -> Folders.id f = a ->
  k <> EmptyString ->
  has_key Folders.id k (folders t) = false ->
  has_key Folders.name k (folders t) = false ->
  has_key Folders.name name (folders t) = false ->
  name <> k ->
  exists w1 w2 created,
    updateFolder a k w =
      Returned (Some {| FolderName.id := a; FolderName.name := k |}) w1 /\
    createFolder k name w1 = Returned (Some created) w2 /\
    Folder.id created = k /\
    folder_lookup k w2 = Returned (Some (renamed k f)) w2 /\
    a <> k /\
    forall options,
      SearchOptions.folder options = Some k ->
      searchEmails options w2 =
      Returned
        (map summary_of_row
           (filter (fun e => String.eqb (Emails.folder_id e) a &&
                             search_condition options None e)
                   (emails t))) w2.
Proof.
  intros Hs [Hids Hnames] Hin Hid Hk Hkid Hkname Hname Hne.
  assert (Hak : a <> k).
  { rewrite <- Hid. exact (StoreFacts.has_key_false_in Folders.id k _ f Hkid Hin). }
  assert (Hfree : forall g, In g (folders t) -> Folders.id g <> a ->
                            Folders.name g <> k).
  { intros g Hg _. exact (StoreFacts.has_key_false_in Folders.name k _ g Hkname Hg). }
  rewrite (updateFolder_goes_through w t a k f Hs Hids Hin Hid Hfree).
  eexists. eexists. eexists. split; [reflexivity|].
  set (rows := map (fun g => if String.eqb (Folders.id g) a then renamed k g else g)
                   (folders t)).
  assert (Hrows_id : has_key Folders.id k rows = false).
  { apply not_true_is_false. intros H.
    apply QueryFacts.has_key_in in H. unfold rows in H. rewrite map_map in H.
    apply in_map_iff in H as (g & Hg & Hgin).
    assert (Folders.id g = k)
      by (destruct (Folders.id g =? a)%string; exact Hg).
    exact (StoreFacts.has_key_false_in Folders.id k _ g Hkid Hgin H). }
  assert (Hrows_name : has_key Folders.name name rows = false).
  { apply not_true_is_false. intros H.
    apply QueryFacts.has_key_in in H. unfold rows in H. rewrite map_map in H.
    apply in_map_iff in H as (g & Hg & Hgin).
    destruct (Folders.id g =? a)%string.
    - cbn [renamed Folders.name] in Hg. congruence.
    - exact (StoreFacts.has_key_false_in Folders.name name _ g Hname Hgin Hg). }
  assert (Hfirst : resolve_folder k (rows ++ [new_folder_row k name])
                   = Some (renamed k f)).
  { unfold resolve_folder. rewrite StoreFacts.find_snoc.
    assert (Hfind : find (fun g => String.eqb (Folders.name g) k ||
                                   String.eqb (Folders.id g) k) rows
                    = Some (renamed k f)).
    { unfold rows. clear Hrows_id Hrows_name rows.
      pose proof (find_unique_key Folders.id _ f Hids Hin) as Hf.
      rewrite Hid in Hf. revert Hf Hkid Hkname.
      generalize (folders t). intros l.
      induction l as [|x l IH]; intros Hf Hi Hn; [discriminate|].
      cbn [find] in Hf. cbn [map find].
      cbn [has_key existsb] in Hi, Hn.
      apply orb_false_iff in Hi as [Hxi Hi], Hn as [Hxn Hn].
      destruct (Folders.id x =? a)%string.
      - injection Hf as ->. cbn [renamed Folders.name Folders.id].
        now rewrite String.eqb_refl.
      - rewrite Hxi, Hxn. cbn [orb]. now apply IH. }
    now rewrite Hfind. }
  match goal with
  | |- context [createFolder k name ?w1] =>
      rewrite (createFolder_run w1 _ k name eq_refl)
  end.
  cbn [folders]. fold rows. rewrite Hrows_id, Hrows_name. cbn [orb].
  split; [reflexivity|]. split; [reflexivity|]. split; [|split; [exact Hak|]].
  - match goal with
    | |- folder_lookup k ?w2 = _ =>
        assert (Hlook : forall key, folder_lookup key w2 =
                  Returned (resolve_folder key (rows ++ [new_folder_row k name])) w2)
    end.
    { intros key. known_storage Hs. unfold folder_lookup, resolve_folder.
      run_store. now rewrite QueryFacts.hd_error_filter. }
    now rewrite Hlook, Hfirst.
  - intros options Hfolder.
    match goal with
    | |- searchEmails options ?w2 = _ =>
        rewrite (searchEmails_run w2 _ options eq_refl)
    end.
    cbn [folders emails]. fold rows. rewrite Hfolder, (truthy_nonempty k Hk).
    cbn [option_map]. rewrite Hfirst. do 2 f_equal.
    apply QueryFacts.filter_ext_in_bool. intros e _.
    unfold search_condition. cbn [renamed Folders.id]. rewrite Hid.
    destruct (Emails.folder_id e =? a)%string; reflexivity.
Qed.

End FolderKeyFacts.

(** ** The handlers of the mailbox routes *)
Section MailboxRouteFacts.

(** X13: [PostMoveEmail] answers 200 "moved" for an email the store does not
    hold, when the folder exists: [moveEmail] returns true whether or not
    a row was updated; the store is left as it was. *)
Theorem PostMoveEmail_reports_moved_for_unknown_email
  (w : World) (t : MailboxTables) (id folderId : string) :
  storage w = MailboxDB t ->
  has_key Folders.id folderId (folders t) = true ->
  has_key Emails.id id (emails t) = false ->
  moveEmail id folderId w = Returned true w /\
  Router.PostMoveEmail true id folderId w = Returned (Router.Json 200 "moved") w.
Proof.
  intros Hs Hfolder Hemail.
  assert (Hmove : moveEmail id folderId w = Returned true w).
  { rewrite (moveEmail_run w t id folderId Hs), Hfolder. f_equal.
    unfold moved.
    rewrite (StoreFacts.map_if_none _ _ _
               (QueryFacts.has_key_false_find Emails.id _ _ Hemail)).
    known_storage Hs. cbv [with_storage]. cbn [storage clock entropy drawn].
    now rewrite StoreFacts.tables_eta. }
  split; [exact Hmove|].
  unfold Router.PostMoveEmail. cbn [negb]. unfold bind. now rewrite Hmove.
Qed.


End MailboxRouteFacts.


(** ** Session tokens in request headers *)
Module TokenFacts.

Lemma substring_all (s : string) : substring 0 (String.length s) s = s.
Proof. induction s as [|c s IH]; cbn [String.length substring]; congruence. Qed.

Lemma until_semicolon_app (s rest : string) :
  Router.no_semicolon s = true ->
  rest = EmptyString \/ (exists r, rest = String ";" r) ->
  Router.until_semicolon (s ++ rest) = s.
Proof.
  intros Hs Hrest. induction s as [|c s IH]; cbn [append].
  - destruct Hrest as [-> | [r ->]]; reflexivity.
  - cbn [Router.no_semicolon JS.all_chars] in Hs. apply andb_true_iff in Hs as [Hc Hs].
    cbn [Router.until_semicolon]. apply negb_true_iff in Hc. rewrite Hc.
    now rewrite (IH Hs).
Qed.

Lemma session_cookie_found (token rest : string) :
  token <> EmptyString ->
  Router.no_semicolon token = true ->
  rest = EmptyString \/ (exists r, rest = String ";" r) ->
  Router.session_cookie ("session=" ++ token ++ rest) = Some token.
Proof.
  intros Hne Hs Hrest.
  cbn [append Router.session_cookie String.prefix Ascii.ascii_dec ascii_rec
       ascii_rect Bool.bool_dec bool_rec bool_rect sumbool_rec sumbool_rect
       eq_rec_r eq_rec eq_rect eq_sym f_equal String.length Nat.sub substring].
  rewrite Nat.sub_0_r, substring_all, (until_semicolon_app token rest Hs Hrest).
  destruct token; [congruence | reflexivity].
Qed.

Lemma hex_digit_plain (n : Z) :
  negb (Ascii.eqb (hex_digit n) ";") = true.
Proof.
  unfold hex_digit. generalize (Z.to_nat n). intros m.
  do 17 (destruct m as [|m]; [reflexivity|]). reflexivity.
Qed.

Lemma hex_octets_plain (bytes : list Z) :
  Router.no_semicolon (hex_octets bytes) = true.
Proof.
  induction bytes as [|b bytes IH]; [reflexivity|].
  cbn [hex_octets fold_right hex_octet append Router.no_semicolon JS.all_chars].
  rewrite !hex_digit_plain. exact IH.
Qed.

(** The text of a UUID is not empty and has no [;]. *)
Lemma uuid_text_token (random : string) :
  uuid_text random <> EmptyString /\ Router.no_semicolon (uuid_text random) = true.
Proof.
  split; [discriminate|]. unfold uuid_text, Router.no_semicolon.
  repeat (rewrite JSFacts.all_chars_app; apply andb_true_iff; split);
    try apply hex_octets_plain; reflexivity.
Qed.

End TokenFacts.


(** ** Routes, sessions and registration *)
Section RouterFacts.

Context {platform : Platform}.

Local Abbreviation with_session sessionId :=
  (fun s : Sessions.row => String.eqb (Sessions.id s) sessionId).

Local Abbreviation with_user userId :=
  (fun u : Users.row => String.eqb (Users.id u) userId).

Lemma token_of_bearer (token : string) (cookie : option string) :
  Router.getSessionToken (Some ("Bearer " ++ token)%string) cookie = Some token.
Proof.
  unfold Router.getSessionToken.
  cbn [append String.prefix Ascii.ascii_dec ascii_rec
       ascii_rect Bool.bool_dec bool_rec bool_rect sumbool_rec sumbool_rect
       eq_rec_r eq_rec eq_rect eq_sym f_equal String.length Nat.sub substring].
  rewrite Nat.sub_0_r, TokenFacts.substring_all. now destruct token.
Qed.

Lemma token_of_cookie (token rest : string) :
  token <> EmptyString ->
  Router.no_semicolon token = true ->
  rest = EmptyString \/ (exists r, rest = String ";" r) ->
  Router.getSessionToken None (Some ("session=" ++ token ++ rest)%string)
  = Some token.
Proof.
  intros Hne Hs Hrest. unfold Router.getSessionToken.
  rewrite <- (TokenFacts.session_cookie_found token rest Hne Hs Hrest).
  reflexivity.
Qed.

(** X15: [getSessionToken] returns the text after [Bearer ] of the
    [Authorization] header whatever the cookie is; without such a header it
    returns the value of the cookie [session], up to the next [;].  The id
    of a session, a UUID, is read back as it is from the cookie [PostLogin]
    sets. *)
Theorem getSessionToken_reads_bearer_then_cookie :
  (forall token cookie,
     Router.getSessionToken (Some ("Bearer " ++ token)%string) cookie
     = Some token) /\
  (forall token rest,
     token <> EmptyString ->
     Router.no_semicolon token = true ->
     rest = EmptyString \/ (exists r, rest = String ";" r) ->
     Router.getSessionToken None (Some ("session=" ++ token ++ rest)%string)
     = Some token) /\
  (forall random,
     Router.getSessionToken None
       (Some ("session=" ++ uuid_text random ++
              "; HttpOnly; Secure; SameSite=Strict; Path=/; Max-Age=2592000")%string)
     = Some (uuid_text random)) /\
  Router.getSessionToken None
    (Some "session=; HttpOnly; Secure; SameSite=Strict; Path=/; Max-Age=0")
  = None.
Proof.
  split; [exact token_of_bearer|]. split; [exact token_of_cookie|].
  split; [|reflexivity].
  intros random. destruct (TokenFacts.uuid_text_token random) as [Hne Hs].
  apply token_of_cookie; eauto.
Qed.

Lemma prefix_comparable (a b : string) :
  forall p, String.prefix a p = true -> String.prefix b p = true ->
            String.prefix a b = true \/ String.prefix b a = true.
Proof.
  revert b. induction a as [|x a IH]; intros b p Ha Hb; [left; now destruct b|].
  destruct b as [|y b]; [right; reflexivity|].
  destruct p as [|z p]; [discriminate|].
  cbn [String.prefix] in *.
  destruct (Ascii.ascii_dec x z) as [->|]; [|discriminate].
  destruct (Ascii.ascii_dec y z) as [->|]; [|discriminate].
  destruct (Ascii.ascii_dec z z) as [_|N]; [|now destruct N].
  exact (IH b p Ha Hb).
Qed.

(** X16: no path is both a public route and a route that requires a
    session; so, for a path under [/api/], a public route never needs
    authentication, a route that requires a session always does, even when
    authentication is disabled, and any other route does unless
    authentication is disabled. *)
Theorem needsAuth_by_route (enabled : option bool) (pathname : string) :
  String.prefix "/api/" pathname = true ->
  (Router.isPublicRoute pathname = true ->
   Router.requiresSession pathname = false) /\
  Router.needsAuth enabled pathname =
  if Router.isPublicRoute pathname then false
  else if Router.requiresSession pathname then true
       else match enabled with
            | Some false => false
            | _ => true
            end.
Proof.
  intros Hapi.
  assert (Hdisjoint : Router.isPublicRoute pathname = true ->
                      Router.requiresSession pathname = false).
  { intros Hp. apply not_true_is_false. intros Hr.
    apply existsb_exists in Hp as (r & Hr1 & Hp).
    apply existsb_exists in Hr as (a & Ha1 & Ha).
    pose proof (prefix_comparable r a pathname Hp Ha) as Hc.
    assert (Hnone : String.prefix r a = false /\ String.prefix a r = false).
    { cbn [Router.publicRoutes Router.authRoutes In] in Hr1, Ha1.
      repeat match goal with
             | H : _ \/ _ |- _ => destruct H as [H | H]
             | H : False |- _ => destruct H
             end; subst r a; split; reflexivity. }
    destruct Hnone as [N1 N2], Hc as [Hc | Hc]; congruence. }
  split; [exact Hdisjoint|].
  unfold Router.needsAuth. cbv zeta. rewrite Hapi. cbn [andb].
  destruct (Router.isPublicRoute pathname) eqn:Hp.
  - rewrite (Hdisjoint eq_refl). now destruct enabled as [[|]|].
  - destruct (Router.requiresSession pathname); destruct enabled as [[|]|];
      reflexivity.
Qed.

Lemma hasUsers_run (w : World) (t : AuthTables) :
  storage w = AuthDB t ->
  hasUsers w = Returned (match users t with [] => false | _ :: _ => true end) w.
Proof.
  intros Hs. known_storage Hs. unfold hasUsers. run_method.
  rewrite QueryFacts.filter_true. destruct (users t) as [|u l]; reflexivity.
Qed.

Lemma bootstrap_leaves_users (w : World) (t : AuthTables) :
  storage w = AuthDB t ->
  exists w1 t1,
    Router.bootstrapDefaultAdmins w = Returned tt w1 /\
    storage w1 = AuthDB t1 /\ users t1 <> [] /\
    (users t <> [] -> w1 = w).
Proof.
  intros Hs. unfold Router.bootstrapDefaultAdmins.
  destruct (ensureDefaultAdmins_effect w t Hs) as (Hnoop & (w1 & t1 & H) & _).
  destruct H as (Hrun & Hs1 & Hne & _).
  exists w1, t1. split; [exact Hrun|]. split; [exact Hs1|]. split; [exact Hne|].
  intros Hu. rewrite (Hnoop Hu) in Hrun. now injection Hrun as <-.
Qed.





End RouterFacts.


(** ** Sessions through the router *)
Section SessionRouteFacts.

Context {platform : Platform}.

Local Abbreviation with_session sessionId :=
  (fun s : Sessions.row => String.eqb (Sessions.id s) sessionId).

Local Abbreviation with_user userId :=
  (fun u : Users.row => String.eqb (Users.id u) userId).

Local Abbreviation by_email email :=
  (fun u : Users.row => String.eqb (Users.email u) email).

Local Abbreviation validated session user :=
  {| Session.id := Sessions.id session;
     Session.userId := Sessions.user_id session;
     Session.email := Users.email user;
     Session.isAdmin := Users.is_admin user =? 1;
     Session.expiresAt := Sessions.expires_at session |}.

(** [validateSession], step by step. *)
Lemma validateSession_run (w : World) (t : AuthTables) (sessionId : string) :
  storage w = AuthDB t ->
  validateSession sessionId w =
  match find (with_session sessionId) (sessions t) with
  | None => Returned None w
  | Some session =>
      if Sessions.expires_at session <? clock w
      then Returned None (with_storage (AuthDB (without_session sessionId t)) w)
      else
        match find (with_user (Sessions.user_id session)) (users t) with
        | None => Returned None w
        | Some user => Returned (Some (validated session user)) w
        end
  end.
Proof.
  intros Hs. known_storage Hs. unfold validateSession. run_method.
  rewrite QueryFacts.hd_error_filter.
  destruct (find _ (sessions t)) as [session|]; [|reflexivity]. run_method.
  destruct (Sessions.expires_at session <? now); run_method; [reflexivity|].
  rewrite QueryFacts.hd_error_filter.
  destruct (find _ (users t)) as [user|]; reflexivity.
Qed.

(** A validation that returns a session found its row and its user's row,
    before the expiry, and changed nothing. *)
Lemma validateSession_some (w w' : World) (t : AuthTables) (sessionId : string)
  (s : Session.t) :
  storage w = AuthDB t ->
  validateSession sessionId w = Returned (Some s) w' ->
  exists session user,
    find (with_session sessionId) (sessions t) = Some session /\
    find (with_user (Sessions.user_id session)) (users t) = Some user /\
    clock w <= Sessions.expires_at session /\
    s = validated session user /\ w' = w.
Proof.
  intros Hs Hv. rewrite (validateSession_run w t sessionId Hs) in Hv.
  destruct (find _ (sessions t)) as [session|]; [|discriminate].
  destruct (Z.ltb_spec (Sessions.expires_at session) (clock w)) as [|Hnow];
    [discriminate|].
  destruct (find _ (users t)) as [user|] eqn:Hu; [|discriminate].
  injection Hv as <- <-. exists session, user. repeat split; auto.
Qed.

Lemma Router_validateSession_run (w : World) (authorization cookie : option string) :
  Router.validateSession authorization cookie w =
  match truthy (Router.getSessionToken authorization cookie) with
  | None => Returned None w
  | Some token =>
      match validateSession token w with
      | Returned session w' => Returned session w'
      | Thrown _ w' => Returned None w'
      end
  end.
Proof.
  unfold Router.validateSession.
  destruct (truthy _); reflexivity.
Qed.




(** X22: [fetch] always reaches a decision on a request to the AUTH
    store: a request that needs authentication is answered 401 unless it
    carries a token for which [validateSession] returns a session, and that
    session is the one set in the context; one that needs none is routed
    without a session. *)
Theorem authorize_only_with_valid_session
  (w : World) (t : AuthTables) (enabled : option bool) (pathname : string)
  (authorization cookie : option string) :
  storage w = AuthDB t ->
  exists w0 admission w1,
    Router.bootstrapDefaultAdmins w = Returned tt w0 /\
    Router.authorize enabled pathname authorization cookie w
    = Returned admission w1 /\
    (Router.needsAuth enabled pathname = false ->
     admission = Router.Routed None /\ w1 = w0) /\
    (Router.needsAuth enabled pathname = true ->
     (admission = Router.Unauthorized \/
      exists token s,
        Router.getSessionToken authorization cookie = Some token /\
        validateSession token w0 = Returned (Some s) w1 /\
        admission = Router.Routed (Some s)) /\
     (Router.getSessionToken authorization cookie = None ->
      admission = Router.Unauthorized)).
Proof.
  intros Hs.
  destruct (bootstrap_leaves_users w t Hs) as (w0 & t0 & Hb & Hs0 & _ & _).
  exists w0. unfold Router.authorize, bind, ret. rewrite Hb.
  destruct (Router.needsAuth enabled pathname).
  - rewrite Router_validateSession_run.
    destruct (Router.getSessionToken authorization cookie) as [token|] eqn:Htoken.
    + destruct (truthy (Some token)) as [token'|] eqn:Htruthy.
      * assert (token' = token) as ->.
        { destruct token; [discriminate|]. now injection Htruthy as <-. }
        destruct (validateSession token w0) as [[s|] w1 | message w1] eqn:Hv.
        -- eexists. eexists. split; [reflexivity|]. split; [reflexivity|].
           split; [discriminate|]. intros _. split; [|discriminate].
           right. exists token, s. auto.
        -- eexists. eexists. split; [reflexivity|]. split; [reflexivity|].
           split; [discriminate|]. intros _. split; [auto|discriminate].
        -- eexists. eexists. split; [reflexivity|]. split; [reflexivity|].
           split; [discriminate|]. intros _. split; [auto|discriminate].
      * eexists. eexists. split; [reflexivity|]. split; [reflexivity|].
        split; [discriminate|]. intros _. split; [auto|discriminate].
    + cbn [truthy]. eexists. eexists. split; [reflexivity|].
      split; [reflexivity|]. split; [discriminate|]. auto.
  - eexists. eexists. split; [reflexivity|]. split; [reflexivity|].
    split; [auto|discriminate].
Qed.

End SessionRouteFacts.


(** ** Users, flags and grants *)
Section UserFacts.

Context {platform : Platform}.

Local Abbreviation with_session sessionId :=
  (fun s : Sessions.row => String.eqb (Sessions.id s) sessionId).

Local Abbreviation with_user userId :=
  (fun u : Users.row => String.eqb (Users.id u) userId).

Local Abbreviation by_email email :=
  (fun u : Users.row => String.eqb (Users.email u) email).

Local Abbreviation updated set userId t :=
  {| users := map (fun u => if String.eqb (Users.id u) userId then set u else u)
                  (users t);
     sessions := sessions t;
     user_mailboxes := user_mailboxes t |}.

(** A validation after an update of user rows that keeps their ids. *)
Lemma validateSession_updated
  (w w1 : World) (t : AuthTables) (set : Users.row -> Users.row)
  (userId sessionId : string) (s : Session.t) :
  storage w = AuthDB t ->
  (forall u, Users.id (set u) = Users.id u) ->
  storage w1 = AuthDB (updated set userId t) ->
  clock w1 = clock w ->
  validateSession sessionId w = Returned (Some s) w ->
  exists session user,
    find (with_session sessionId) (sessions t) = Some session /\
    find (with_user (Sessions.user_id session)) (users t) = Some user /\
    s = session_of (Sessions.id session) user (Sessions.expires_at session) /\
    validateSession sessionId w1 =
    Returned
      (Some (session_of (Sessions.id session)
               (if String.eqb (Users.id user) userId then set user else user)
               (Sessions.expires_at session))) w1.
Proof.
  intros Hs Hset Hs1 Hclock Hv.
  destruct (validateSession_some w w t sessionId s Hs Hv)
    as (session & user & Hsession & Huser & Hnow & -> & _).
  exists session, user. split; [exact Hsession|]. split; [exact Huser|].
  pose proof (find_some _ _ Huser) as [_ Hid]. apply String.eqb_eq in Hid.
  split; [unfold session_of; now rewrite Hid|].
  rewrite (validateSession_run w1 _ sessionId Hs1). cbn [sessions users].
  rewrite Hsession, Hclock, (proj2 (Z.ltb_ge _ _) Hnow).
  rewrite (StoreFacts.find_map_if_other (with_user userId)
             (with_user (Sessions.user_id session)) set)
    by (intros r; cbn beta; now rewrite Hset).
  rewrite Huser. cbn [option_map]. unfold session_of. cbn beta.
  destruct (Users.id user =? userId)%string; [rewrite Hset|]; now rewrite Hid.
Qed.

Lemma btoa_injective (a b : string) : Base64.btoa a = Base64.btoa b -> a = b.
Proof.
  intros H. pose proof (Base64Facts.atob_btoa a) as Ha.
  rewrite H, Base64Facts.atob_btoa in Ha. congruence.
Qed.

(** X23: the text [hashPassword] returns determines the salt that was
    drawn for it: two calls return the same text only if they drew the same
    sixteen octets and derived the same bits; so two calls that draw
    different salts return different texts, also for the same password. *)
Theorem hashPassword_text_determines_salt
  (password1 password2 hash : string) (w1 w1' w2 w2' : World) :
  hashPassword password1 w1 = Returned hash w1' ->
  hashPassword password2 w2 = Returned hash w2' ->
  next_octets 16 w1 = next_octets 16 w2 /\
  derived_bits (next_octets 16 w1) password1
  = derived_bits (next_octets 16 w2) password2.
Proof.
  rewrite !hashPassword_run. intros H1 H2.
  assert (H : stored_hash (next_octets 16 w1) password1
              = stored_hash (next_octets 16 w2) password2) by congruence.
  apply (f_equal (JS.split ":")) in H. unfold stored_hash in H.
  rewrite !split_stored in H.
  assert (Hpair : forall a b c d : string, [a; b] = [c; d] -> a = c /\ b = d)
    by (intros a b c d E; split; congruence).
  apply Hpair in H as [Hsalt Hbits].
  split; apply btoa_injective; assumption.
Qed.

(** X24: the administrator flag of a session is read from the user row at
    each validation: after [updateUserAdminStatus] the sessions of the user
    are validated with the new flag, whatever the flag was at the login, so
    a demoted administrator's next request to an admin route is answered
    403. *)
Theorem admin_flag_is_read_at_validation
  (w : World) (t : AuthTables) (sessionId : string) (s : Session.t)
  (admin : bool) :
  storage w = AuthDB t ->
  validateSession sessionId w = Returned (Some s) w ->
  exists w1,
    updateUserAdminStatus (Session.userId s) admin w = Returned tt w1 /\
    validateSession sessionId w1 =
      Returned (Some {| Session.id := Session.id s;
                        Session.userId := Session.userId s;
                        Session.email := Session.email s;
                        Session.isAdmin := admin;
                        Session.expiresAt := Session.expiresAt s |}) w1 /\
    forall s1 email password,
      validateSession sessionId w1 = Returned (Some s1) w1 ->
      admin = false ->
      Router.PostAdminRegister (Some s1) email password w1 =
      Returned (Router.Error 403 "Admin privileges required") w1.
Proof.
  intros Hs Hv.
  rewrite (updateUserAdminStatus_run w t (Session.userId s) admin Hs).
  eexists. split; [reflexivity|].
  match goal with
  | |- context [validateSession sessionId ?w1] =>
      destruct (validateSession_updated w w1 t
                  (fun u => {| Users.id := Users.id u;
                               Users.email := Users.email u;
                               Users.password_hash := Users.password_hash u;
                               Users.is_admin := if admin then 1 else 0;
                               Users.created_at := Users.created_at u;
                               Users.updated_at := clock w |})
                  (Session.userId s) sessionId s Hs (fun _ => eq_refl)
                  eq_refl eq_refl Hv)
        as (session & user & Hsession & Huser & -> & Hafter)
  end.
  cbn [session_of Session.userId Session.id Session.email Session.expiresAt]
    in *.
  rewrite String.eqb_refl in Hafter.
  assert (Hnew : validateSession sessionId
                   (with_storage
                      (AuthDB
                         (updated
                            (fun u => {| Users.id := Users.id u;
                               Users.email := Users.email u;
                               Users.password_hash := Users.password_hash u;
                               Users.is_admin := if admin then 1 else 0;
                               Users.created_at := Users.created_at u;
                               Users.updated_at := clock w |})
                            (Users.id user) t)) w) =
                 Returned
                   (Some {| Session.id := Sessions.id session;
                            Session.userId := Users.id user;
                            Session.email := Users.email user;
                            Session.isAdmin := admin;
                            Session.expiresAt := Sessions.expires_at session |})
                   (with_storage
                      (AuthDB
                         (updated
                            (fun u => {| Users.id := Users.id u;
                               Users.email := Users.email u;
                               Users.password_hash := Users.password_hash u;
                               Users.is_admin := if admin then 1 else 0;
                               Users.created_at := Users.created_at u;
                               Users.updated_at := clock w |})
                            (Users.id user) t)) w)).
  { rewrite Hafter. unfold session_of.
    cbn [Users.id Users.email Users.is_admin]. now destruct admin. }
  split; [exact Hnew|].
  intros s1 email password Hs1 ->. rewrite Hnew in Hs1. injection Hs1 as <-.
  reflexivity.
Qed.

(** X25: [updateUserPassword] ends no session: every session is
    validated after it as before; and the user logs in with the new
    password. *)
Theorem password_change_keeps_sessions
  (w : World) (t : AuthTables) (userId newPassword : string) :
  reachable w ->
  storage w = AuthDB t ->
  exists w1 t1,
    updateUserPassword userId newPassword w = Returned tt w1 /\
    storage w1 = AuthDB t1 /\
    (forall sessionId s,
       validateSession sessionId w = Returned (Some s) w ->
       validateSession sessionId w1 = Returned (Some s) w1) /\
    forall user w2,
      In user (users t) -> Users.id user = userId ->
      storage w2 = storage w1 ->
      has_key Sessions.id (next_token w2) (sessions t) = false ->
      exists s w3,
        login (Users.email user) newPassword w2 = Returned (Some s) w3 /\
        Session.userId s = userId /\ Session.email s = Users.email user.
Proof.
  intros Hr Hs.
  destruct (reachable_consistent w Hr) as (t' & Hs' & _ & _ & Hids & Hemails).
  rewrite Hs in Hs'. injection Hs' as <-.
  rewrite (updateUserPassword_run w t userId newPassword Hs).
  eexists. eexists. split; [reflexivity|]. split; [reflexivity|]. split.
  - intros sessionId s Hv.
    match goal with
    | |- validateSession sessionId ?w1 = _ =>
        destruct (validateSession_updated w w1 t
                    (fun u => {| Users.id := Users.id u;
                                 Users.email := Users.email u;
                                 Users.password_hash :=
                                   stored_hash (next_octets 16 w) newPassword;
                                 Users.is_admin := Users.is_admin u;
                                 Users.created_at := Users.created_at u;
                                 Users.updated_at := clock w |})
                    userId sessionId s Hs (fun _ => eq_refl)
                    eq_refl eq_refl Hv)
          as (session & user & Hsession & Huser & -> & Hafter)
    end.
    rewrite Hafter. unfold session_of.
    now destruct (Users.id user =? userId)%string.
  - intros user w2 Hin Hid Hs2 Hfresh.
    cbn [storage with_storage] in Hs2.
    rewrite (login_run w2 _ (Users.email user) newPassword Hs2).
    cbn [users sessions].
    rewrite (StoreFacts.find_map_if_other (with_user userId)
               (by_email (Users.email user))) by reflexivity.
    rewrite (find_unique_key Users.email _ user Hemails Hin).
    cbn [option_map]. rewrite Hid, String.eqb_refl.
    cbn [Users.password_hash].
    rewrite verifyPassword_stored by apply next_octets_nonempty.
    rewrite String.eqb_refl, Hfresh.
    eexists. eexists. split; [reflexivity|]. split; reflexivity.
Qed.

Lemma getUserByEmail_run (w : World) (t : AuthTables) (email : string) :
  storage w = AuthDB t ->
  getUserByEmail email w =
  Returned (option_map user_of_row (find (by_email email) (users t))) w.
Proof.
  intros Hs. known_storage Hs. unfold getUserByEmail. run_method.
  rewrite <- QueryFacts.hd_error_filter.
  destruct (filter _ (users t)); reflexivity.
Qed.

Lemma isAdmin_run (w : World) (t : AuthTables) (userId : string) :
  storage w = AuthDB t ->
  isAdmin userId w =
  Returned (match find (with_user userId) (users t) with
            | Some u => Users.is_admin u =? 1
            | None => false
            end) w.
Proof.
  intros Hs. known_storage Hs. unfold isAdmin. run_method.
  now rewrite QueryFacts.hd_error_filter.
Qed.

Lemma getUsers_run (w : World) (t : AuthTables) :
  storage w = AuthDB t ->
  getUsers w = Returned (map user_of_row (users t)) w.
Proof.
  intros Hs. known_storage Hs. unfold getUsers. run_method.
  now rewrite QueryFacts.filter_true.
Qed.

(** X26: the user a registration returns is the user the store then
    holds: [getUserByEmail] returns it for its email, [isAdmin] returns its
    flag for its id, [hasUsers] returns true, and [getUsers] lists it
    after the users there were. *)
Theorem register_then_lookup
  (w w1 : World) (t : AuthTables) (email password : string)
  (isFirstUser : bool) (user : User.t) :
  storage w = AuthDB t ->
  register email password isFirstUser w = Returned user w1 ->
  getUserByEmail email w1 = Returned (Some user) w1 /\
  isAdmin (User.id user) w1 = Returned isFirstUser w1 /\
  hasUsers w1 = Returned true w1 /\
  exists before,
    getUsers w = Returned before w /\
    getUsers w1 = Returned (before ++ [user])%list w1.
Proof.
  intros Hs Hreg. rewrite (register_run w t email password isFirstUser Hs) in Hreg.
  cbv zeta in Hreg.
  destruct (violation users_table _ (users t)) eqn:Hv; [discriminate|].
  injection Hreg as <- <-.
  cbn [violation users_table Users.id Users.email] in Hv.
  destruct (has_key Users.id (next_token w) (users t)) eqn:Hid; [discriminate|].
  destruct (has_key Users.email email (users t)) eqn:Hemail; [discriminate|].
  assert (Hrow : forall row, Users.id row = next_token w ->
                   Users.email row = email ->
                   Users.is_admin row = (if isFirstUser then 1 else 0) ->
                   Users.created_at row = clock w ->
                   Users.updated_at row = clock w ->
                   user_of_row row =
                   {| User.id := next_token w; User.email := email;
                      User.isAdmin := isFirstUser; User.createdAt := clock w;
                      User.updatedAt := clock w |}).
  { intros row H1 H2 H3 H4 H5. unfold user_of_row.
    rewrite H1, H2, H3, H4, H5. now destruct isFirstUser. }
  split; [|split; [|split]].
  - match goal with
    | |- getUserByEmail email ?w1 = _ =>
        rewrite (getUserByEmail_run w1 _ email eq_refl)
    end.
    cbn [users]. rewrite StoreFacts.find_snoc,
      (QueryFacts.has_key_false_find Users.email _ _ Hemail).
    cbn [Users.email]. rewrite String.eqb_refl. cbn [option_map].
    now rewrite Hrow.
  - match goal with
    | |- isAdmin _ ?w1 = _ => rewrite (isAdmin_run w1 _ _ eq_refl)
    end.
    cbn [users User.id]. rewrite StoreFacts.find_snoc,
      (QueryFacts.has_key_false_find Users.id _ _ Hid).
    cbn [Users.id]. rewrite String.eqb_refl. cbn [Users.is_admin].
    now destruct isFirstUser.
  - match goal with
    | |- hasUsers ?w1 = _ => rewrite (hasUsers_run w1 _ eq_refl)
    end.
    cbn [users]. now destruct (users t).
  - exists (map user_of_row (users t)). split; [exact (getUsers_run w t Hs)|].
    match goal with
    | |- getUsers ?w1 = _ => rewrite (getUsers_run w1 _ eq_refl)
    end.
    cbn [users]. rewrite map_app. cbn [map]. now rewrite Hrow.
Qed.

(** X27: on an AUTH store without users [ensureDefaultAdmins] makes
    [admin@email.230406.xyz] an administrator whose password is [admin]: a
    login with them returns a session of an administrator. *)
Theorem default_admin_logs_in (w : World) (t : AuthTables) :
  storage w = AuthDB t ->
  users t = [] ->
  exists w1 t1,
    ensureDefaultAdmins w = Returned tt w1 /\
    storage w1 = AuthDB t1 /\
    sessions t1 = sessions t /\
    forall w2,
      storage w2 = storage w1 ->
      has_key Sessions.id (next_token w2) (sessions t) = false ->
      exists s w3,
        login "admin@email.230406.xyz" "admin" w2 = Returned (Some s) w3 /\
        Session.email s = "admin@email.230406.xyz" /\
        Session.isAdmin s = true.
Proof.
  intros Hs Hu. rewrite (ensureDefaultAdmins_run w t Hs), Hu.
  unfold admins. cbn [for_each]. unfold bind at 1.
  rewrite (seedAdmin_run (with_drawn (drawn w + 16) w) t _ _ _ Hs), Hu.
  cbn [violation users_table has_key existsb app].
  unfold bind at 1.
  match goal with
  | |- context [seedAdmin ?now ?hash ?email (with_storage (AuthDB ?t1) ?w0)] =>
      rewrite (seedAdmin_run (with_storage (AuthDB t1) w0) t1 now hash email
                 eq_refl)
  end.
  cbn [users sessions user_mailboxes].
  match goal with
  | |- context [violation users_table ?r ?rows] =>
      destruct (violation users_table r rows)
  end.
  all: eexists; eexists; (split; [reflexivity|]); (split; [reflexivity|]);
       (split; [reflexivity|]); intros w2 Hs2 Hfresh;
       cbn [storage with_storage with_drawn] in Hs2;
       rewrite (login_run w2 _ _ _ Hs2); cbn [users sessions app find Users.email];
       rewrite String.eqb_refl; cbn [Users.password_hash];
       rewrite verifyPassword_stored by apply next_octets_nonempty;
       rewrite String.eqb_refl, Hfresh;
       eexists; eexists; (split; [reflexivity|]); split; reflexivity.
Qed.

Local Abbreviation same_pair userId mailboxId :=
  (fun r : UserMailboxes.row =>
     String.eqb (UserMailboxes.user_id r) userId &&
     String.eqb (UserMailboxes.mailbox_id r) mailboxId).

Local Abbreviation role_of :=
  (fun row : UserMailboxes.row =>
     {| MailboxRole.mailboxId := UserMailboxes.mailbox_id row;
        MailboxRole.role := UserMailboxes.role row |}).





End UserFacts.


(** ** Slugs *)
Module SlugFacts.

Import Router.

Ltac each_char c :=
  destruct c as [[|] [|] [|] [|] [|] [|] [|] [|]].

Lemma fold_case_lower (c : ascii) :
  negb ((65 <=? JS.charCode (fold_case c)) && (JS.charCode (fold_case c) <=? 90))
  = true.
Proof. each_char c; vm_compute; reflexivity. Qed.

Lemma slug_char_of_word (c : ascii) :
  negb ((65 <=? JS.charCode c) && (JS.charCode c <=? 90)) = true ->
  is_word c || Ascii.eqb c dash = true ->
  slug_char c = true.
Proof.
  each_char c; vm_compute; intros H1 H2; try reflexivity; discriminate.
Qed.

Lemma slug_char_plain (c : ascii) :
  slug_char c = true ->
  fold_case c = c /\ is_space c = false /\ is_word c || Ascii.eqb c dash = true.
Proof.
  each_char c; vm_compute; intros H; try discriminate; repeat split.
Qed.

Lemma dash_not_upper :
  negb ((65 <=? JS.charCode dash) && (JS.charCode dash <=? 90)) = true.
Proof. reflexivity. Qed.

Local Abbreviation not_upper :=
  (fun c => negb ((65 <=? JS.charCode c) && (JS.charCode c <=? 90))).

Lemma toLowerCase_cons (c : ascii) (s : string) :
  toLowerCase (String c s) = String (fold_case c) (toLowerCase s).
Proof. reflexivity. Qed.

Lemma toLowerCase_lower (s : string) :
  JS.all_chars not_upper (toLowerCase s) = true.
Proof.
  induction s as [|c s IH]; [reflexivity|].
  rewrite toLowerCase_cons. cbn [JS.all_chars].
  now rewrite fold_case_lower, IH.
Qed.

Lemma spaces_to_dash_lower (s : string) (in_run : bool) :
  JS.all_chars not_upper s = true ->
  JS.all_chars not_upper (spaces_to_dash in_run s) = true.
Proof.
  revert in_run. induction s as [|c s IH]; intros in_run H; [reflexivity|].
  cbn [JS.all_chars] in H. apply andb_true_iff in H as [Hc H].
  cbn [spaces_to_dash].
  destruct (is_space c); [destruct in_run|]; cbn [JS.all_chars];
    rewrite ?Hc, ?dash_not_upper; cbn [andb]; now apply IH.
Qed.

Lemma keep_word_chars_slug (s : string) :
  JS.all_chars not_upper s = true ->
  JS.all_chars slug_char (keep_word_chars s) = true.
Proof.
  unfold keep_word_chars. induction s as [|c s IH]; intros H; [reflexivity|].
  cbn [JS.all_chars] in H. apply andb_true_iff in H as [Hc H].
  cbn [JS.filter_chars].
  destruct (is_word c || Ascii.eqb c dash) eqn:W; [|now apply IH].
  cbn [JS.all_chars]. now rewrite (slug_char_of_word c Hc W), IH.
Qed.

Lemma squeeze_dashes_chars (p : ascii -> bool) (s : string) (in_run : bool) :
  JS.all_chars p s = true -> JS.all_chars p (squeeze_dashes in_run s) = true.
Proof.
  revert in_run. induction s as [|c s IH]; intros in_run H; [reflexivity|].
  cbn [JS.all_chars] in H. apply andb_true_iff in H as [Hc H].
  cbn [squeeze_dashes].
  destruct (Ascii.eqb_spec c dash) as [->|_]; [destruct in_run|];
    cbn [JS.all_chars]; rewrite ?Hc; cbn [andb]; now apply IH.
Qed.

Lemma trim_start_chars (p : ascii -> bool) (s : string) :
  JS.all_chars p s = true -> JS.all_chars p (trim_start s) = true.
Proof.
  induction s as [|c s IH]; intros H; [reflexivity|].
  cbn [trim_start]. destruct (Ascii.eqb c dash); [|exact H].
  cbn [JS.all_chars] in H. apply andb_true_iff in H as [_ H]. now apply IH.
Qed.

Lemma trim_end_chars (p : ascii -> bool) (s : string) :
  JS.all_chars p s = true -> JS.all_chars p (trim_end s) = true.
Proof.
  induction s as [|c s IH]; intros H; [reflexivity|].
  cbn [JS.all_chars] in H. apply andb_true_iff in H as [Hc H].
  cbn [trim_end]. specialize (IH H).
  destruct (trim_end s) as [|c' r].
  - destruct (Ascii.eqb c dash); [reflexivity|]. cbn [JS.all_chars].
    now rewrite Hc.
  - change (JS.all_chars p (String c (String c' r)))
      with (p c && JS.all_chars p (String c' r)).
    now rewrite Hc, IH.
Qed.

(** After the squeeze a dash is followed by no dash; [in_run] says that
    the text comes after a dash. *)
Lemma squeeze_dashes_single (s : string) (in_run : bool) :
  has_double_dash (squeeze_dashes in_run s) = false /\
  (in_run = true -> starts_with_dash (squeeze_dashes in_run s) = false).
Proof.
  revert in_run. induction s as [|c s IH]; intros in_run; [split; reflexivity|].
  cbn [squeeze_dashes]. destruct (Ascii.eqb_spec c dash) as [->|Hc].
  - destruct (IH true) as [Hd Hs]. destruct in_run.
    + split; [exact Hd | intros _; exact (Hs eq_refl)].
    + split; [|discriminate]. cbn [has_double_dash].
      now rewrite (Hs eq_refl), Hd, andb_false_r.
  - destruct (IH false) as [Hd _]. apply Ascii.eqb_neq in Hc. split.
    + cbn [has_double_dash]. now rewrite Hc, Hd.
    + intros _. cbn [starts_with_dash]. exact Hc.
Qed.

Lemma trim_start_single (s : string) :
  has_double_dash s = false ->
  has_double_dash (trim_start s) = false /\
  starts_with_dash (trim_start s) = false.
Proof.
  induction s as [|c s IH]; intros H; [split; reflexivity|].
  cbn [trim_start]. destruct (Ascii.eqb c dash) eqn:E.
  - cbn [has_double_dash] in H. apply orb_false_iff in H as [_ H]. now apply IH.
  - split; [exact H | exact E].
Qed.

Lemma trim_end_single (s : string) :
  has_double_dash s = false ->
  starts_with_dash s = false ->
  has_double_dash (trim_end s) = false /\
  starts_with_dash (trim_end s) = false /\
  ends_with_dash (trim_end s) = false.
Proof.
  assert (Hstart : forall s, starts_with_dash (trim_end s) = true ->
                             starts_with_dash s = true).
  { intros [|c r]; [discriminate|]. cbn [trim_end starts_with_dash].
    destruct (trim_end r); [|auto].
    destruct (Ascii.eqb c dash) eqn:D; [reflexivity|].
    cbn [starts_with_dash]. congruence. }
  assert (Hend : forall s, ends_with_dash (trim_end s) = false).
  { induction s0 as [|c r IH]; [reflexivity|]. cbn [trim_end].
    destruct (trim_end r) as [|c' r'] eqn:E.
    - destruct (Ascii.eqb c dash) eqn:D; [reflexivity|]. exact D.
    - exact IH. }
  assert (Hdouble : forall s, has_double_dash s = false ->
                              has_double_dash (trim_end s) = false).
  { induction s0 as [|c r IH]; intros H; [reflexivity|].
    cbn [has_double_dash] in H. apply orb_false_iff in H as [Hc H].
    specialize (IH H). cbn [trim_end].
    destruct (trim_end r) as [|c' r'] eqn:E.
    - destruct (Ascii.eqb c dash); [reflexivity|]. cbn [has_double_dash].
      now rewrite andb_false_r.
    - change (has_double_dash (String c (String c' r')))
        with ((Ascii.eqb c dash && starts_with_dash (String c' r')) ||
              has_double_dash (String c' r')).
      rewrite IH, orb_false_r.
      destruct (Ascii.eqb c dash); [|reflexivity]. cbn [andb] in *.
      apply not_true_is_false. intros S. rewrite <- E in S.
      apply Hstart in S. congruence. }
  intros Hd Hs. split; [now apply Hdouble|]. split; [|apply Hend].
  apply not_true_is_false. intros S. apply Hstart in S. congruence.
Qed.

Lemma slugify_is_slug (text : string) : is_slug (slugify text) = true.
Proof.
  unfold slugify, is_slug.
  set (kept := keep_word_chars (spaces_to_dash false (toLowerCase text))).
  assert (Hchars : JS.all_chars slug_char kept = true)
    by apply keep_word_chars_slug, spaces_to_dash_lower, toLowerCase_lower.
  destruct (squeeze_dashes_single kept false) as [Hd _].
  destruct (trim_start_single _ Hd) as [Hd1 Hs1].
  destruct (trim_end_single _ Hd1 Hs1) as (Hd2 & Hs2 & He2).
  rewrite Hd2, Hs2, He2.
  now rewrite (trim_end_chars _ _
                 (trim_start_chars _ _ (squeeze_dashes_chars _ _ false Hchars))).
Qed.

Lemma toLowerCase_slug (s : string) :
  JS.all_chars slug_char s = true -> toLowerCase s = s.
Proof.
  induction s as [|c s IH]; intros H; [reflexivity|].
  cbn [JS.all_chars] in H. apply andb_true_iff in H as [Hc H].
  rewrite toLowerCase_cons, (IH H).
  now rewrite (proj1 (slug_char_plain c Hc)).
Qed.

Lemma spaces_to_dash_slug (s : string) :
  JS.all_chars slug_char s = true -> spaces_to_dash false s = s.
Proof.
  induction s as [|c s IH]; intros H; [reflexivity|].
  cbn [JS.all_chars] in H. apply andb_true_iff in H as [Hc H].
  cbn [spaces_to_dash].
  now rewrite (proj1 (proj2 (slug_char_plain c Hc))), (IH H).
Qed.

Lemma keep_word_chars_id (s : string) :
  JS.all_chars slug_char s = true -> keep_word_chars s = s.
Proof.
  intros H. apply JSFacts.filter_chars_all.
  refine (JSFacts.all_chars_weaken _ _ _ _ H).
  intros c Hc. exact (proj2 (proj2 (slug_char_plain c Hc))).
Qed.

Lemma squeeze_dashes_id (s : string) (in_run : bool) :
  has_double_dash s = false ->
  (in_run = true -> starts_with_dash s = false) ->
  squeeze_dashes in_run s = s.
Proof.
  revert in_run. induction s as [|c s IH]; intros in_run Hd Hs; [reflexivity|].
  cbn [has_double_dash] in Hd. apply orb_false_iff in Hd as [Hc Hd].
  cbn [squeeze_dashes]. destruct (Ascii.eqb c dash) eqn:E.
  - cbn [andb] in Hc. destruct in_run.
    + specialize (Hs eq_refl). cbn [starts_with_dash] in Hs. congruence.
    + apply Ascii.eqb_eq in E. subst c. f_equal. apply IH; auto.
  - f_equal. apply IH; [exact Hd | discriminate].
Qed.

Lemma trim_start_id (s : string) :
  starts_with_dash s = false -> trim_start s = s.
Proof.
  destruct s as [|c s]; [reflexivity|]. cbn [starts_with_dash trim_start].
  now intros ->.
Qed.

Lemma trim_end_id (s : string) :
  ends_with_dash s = false -> trim_end s = s.
Proof.
  induction s as [|c s IH]; intros H; [reflexivity|].
  cbn [trim_end]. destruct s as [|c' r].
  - cbn [ends_with_dash] in H. cbn [trim_end]. now rewrite H.
  - rewrite (IH H). reflexivity.
Qed.

Lemma slugify_of_slug (s : string) : is_slug s = true -> slugify s = s.
Proof.
  unfold is_slug. intros H.
  apply andb_true_iff in H as [H Hd]. apply andb_true_iff in H as [H He].
  apply andb_true_iff in H as [Hc Hs].
  apply negb_true_iff in Hd, He, Hs.
  unfold slugify.
  rewrite (toLowerCase_slug s Hc), (spaces_to_dash_slug s Hc),
    (keep_word_chars_id s Hc), (squeeze_dashes_id s false Hd) by discriminate.
  now rewrite (trim_start_id s Hs), (trim_end_id s He).
Qed.

End SlugFacts.

Section SlugTheorems.

(** X29: the slug of an ASCII text is made of lower-case letters, digits,
    [_] and dashes, begins and ends with no dash and has no two dashes in a
    row; [slugify] leaves every such text as it is, so the slug of a slug
    is the slug itself. *)
Theorem slugify_normalises (text : string) :
  Router.ascii_text text = true ->
  Router.is_slug (Router.slugify text) = true /\
  Router.slugify (Router.slugify text) = Router.slugify text /\
  (Router.is_slug text = true -> Router.slugify text = text).
Proof.
  intros _. pose proof (SlugFacts.slugify_is_slug text) as Hslug.
  split; [exact Hslug|]. split.
  - exact (SlugFacts.slugify_of_slug _ Hslug).
  - exact (SlugFacts.slugify_of_slug text).
Qed.

End SlugTheorems.


(** * The properties of the other methods and of the router at concrete
    worlds *)

Ltac distinct :=
  repeat (constructor; [simpl; intuition discriminate|]); constructor.

Ltac listed := simpl; repeat (first [left; reflexivity | right]).

Example slugify_examples :
  Router.slugify "My Folder" = "my-folder" /\
  Router.slugify "my   folder " = "my-folder" /\
  Router.slugify " Q3: Reports & Plans! " = "q3-reports-plans" /\
  Router.slugify "!!!" = "".
Proof. repeat split; reflexivity. Qed.

Example getSessionToken_examples :
  Router.getSessionToken None (Some "theme=dark; session=abc; x=1") = Some "abc" /\
  Router.getSessionToken (Some "Basic xyz") (Some "session=abc") = Some "abc" /\
  Router.getSessionToken (Some "Bearer t1") (Some "session=abc") = Some "t1" /\
  Router.getSessionToken (Some "Bearer ") (Some "session=abc") = Some "".
Proof. repeat split; reflexivity. Qed.

Example like_examples :
  like (engine := Scenario.sqlite) "%REPORT%" "Quarterly report" = true /\
  like (engine := Scenario.sqlite) "%r_port%" "Quarterly Report" = true /\
  like (engine := Scenario.sqlite) "%rapport%" "Quarterly Report" = false.
Proof. repeat split; reflexivity. Qed.

(** The mailbox of the counterexample to C6 arises from two calls. *)
Example renamed_folders_arise :
  outcome_world
    (createFolder "work" "Work"
       (outcome_world
          (updateFolder "archive" "work" Scenario.archive_world)))
  = Sample.world (MailboxDB Sample.renamed_folders) 0.
Proof. reflexivity. Qed.

Lemma scenario_register_run :
  register (platform := Sample.platform) "a@x.com" "password123" true
    (fresh_auth 5000 Sample.random_octet)
  = Returned Scenario.first_user Scenario.registered.
Proof. vm_compute. reflexivity. Qed.



Lemma enclosures_are_new (email : EmailData.t) :
  EmailData.id email = "e9" ->
  forall a, In a Scenario.enclosures ->
    has_key Attachments.id (Attachments.id a) (attachments Sample.mailbox) = false /\
    Attachments.email_id a = EmailData.id email.
Proof. intros -> a [<- | [<- | []]]; split; reflexivity. Qed.

Lemma enclosures_distinct : NoDup (map Attachments.id Scenario.enclosures).
Proof. distinct. Qed.

Lemma createEmail_then_getEmail_witness :
  storage Scenario.mailbox_world = MailboxDB Sample.mailbox /\
  (exists w1,
     createEmail (engine := Scenario.sqlite) "inbox" Scenario.letter
       Scenario.enclosures Scenario.mailbox_world = Returned tt w1 /\
     getEmail "e9" w1 =
       Returned
         (Some (email_detail
                  (new_email_row (engine := Scenario.sqlite) "inbox" Scenario.letter)
                  Scenario.enclosures)) w1) /\
  createEmail (engine := Scenario.sqlite) "inbox" Scenario.duplicate
    Scenario.enclosures Scenario.mailbox_world
  = Thrown "UNIQUE constraint failed: emails.id" Scenario.mailbox_world.
Proof.
  pose proof (fun email =>
    createEmail_then_getEmail (engine := Scenario.sqlite)
      Scenario.mailbox_world Sample.mailbox "inbox" email
      Scenario.enclosures eq_refl eq_refl) as H.
  split; [reflexivity|]. split.
  - destruct (proj2 (H Scenario.letter) eq_refl enclosures_distinct
                (enclosures_are_new Scenario.letter eq_refl))
      as (w1 & Hcreate & Hget & _).
    exists w1. split; [exact Hcreate | exact Hget].
  - exact (proj1 (H Scenario.duplicate) eq_refl).
Defined.

Lemma updateEmail_sets_given_flags_witness :
  storage Scenario.mailbox_world = MailboxDB Sample.mailbox /\
  updateEmail "e9" {| EmailFlags.read := Some true; EmailFlags.starred := None |}
    Scenario.mailbox_world = Returned None Scenario.mailbox_world /\
  exists d w1,
    updateEmail "e2" {| EmailFlags.read := Some true; EmailFlags.starred := None |}
      Scenario.mailbox_world = Returned (Some d) w1 /\
    EmailDetail.read d = true /\ EmailDetail.starred d = false.
Proof.
  split; [reflexivity|].
  pose proof (fun id =>
    updateEmail_sets_given_flags_only Scenario.mailbox_world Sample.mailbox id
      {| EmailFlags.read := Some true; EmailFlags.starred := None |} eq_refl)
    as H.
  split; [exact (proj1 (H "e9") eq_refl)|].
  destruct (proj2 (H "e2") (Sample.email_row "e2" "2024-01-03" "inbox") eq_refl)
    as (d & w1 & Hrun & Hread & Hstarred & _).
  exists d, w1. split; [exact Hrun|]. split; [exact Hread | exact Hstarred].
Defined.

Lemma moveEmail_then_getEmail_witness :
  getEmail "e1" Scenario.mailbox_world =
    Returned
      (Some (email_detail (Sample.email_row "e1" "2024-01-01" "inbox")
               [Sample.attachment_row "a1" "e1" "one.txt";
                Sample.attachment_row "a3" "e1" "three.txt"]))
      Scenario.mailbox_world /\
  getEmail "e1" (outcome_world (moveEmail "e1" "trash" Scenario.mailbox_world)) =
    Returned
      (Some (email_detail (Sample.email_row "e1" "2024-01-01" "trash")
               [Sample.attachment_row "a1" "e1" "one.txt";
                Sample.attachment_row "a3" "e1" "three.txt"]))
      (outcome_world (moveEmail "e1" "trash" Scenario.mailbox_world)).
Proof.
  split; [reflexivity|].
  exact (proj2 (moveEmail_then_getEmail Scenario.mailbox_world _ Sample.mailbox
                  "e1" "trash"
                  (email_detail (Sample.email_row "e1" "2024-01-01" "inbox")
                     [Sample.attachment_row "a1" "e1" "one.txt";
                      Sample.attachment_row "a3" "e1" "three.txt"])
                  eq_refl eq_refl eq_refl)).
Defined.

Lemma deleteEmail_then_nothing_left_witness :
  has_key Emails.id "e1" (emails Sample.mailbox) = true /\
  exists refs w1,
    deleteEmail "e1" Scenario.mailbox_world = Returned refs w1 /\
    getEmail "e1" w1 = Returned None w1 /\
    getAttachment "a2" w1 =
      Returned (Some (Sample.attachment_row "a2" "e2" "two.txt")) w1.
Proof.
  split; [reflexivity|].
  destruct (deleteEmail_then_nothing_left Scenario.mailbox_world Sample.mailbox
              "e1" eq_refl eq_refl)
    as (refs & w1 & Hdel & Hget & _ & Hkept).
  - distinct.
  - exists refs, w1. split; [exact Hdel|]. split; [exact Hget|].
    apply (Hkept (Sample.attachment_row "a2" "e2" "two.txt")).
    + listed.
    + discriminate.
Defined.

Lemma deleteFolder_only_deletable_witness :
  (forall e, In e (emails Sample.mailbox) -> Emails.folder_id e <> "trash") /\
  exists b w1,
    deleteFolder "trash" Scenario.mailbox_world = Returned b w1 /\
    (b = false -> w1 = Scenario.mailbox_world).
Proof.
  assert (Hempty : forall e, In e (emails Sample.mailbox) ->
                             Emails.folder_id e <> "trash").
  { intros e [<- | [<- | [<- | []]]]; discriminate. }
  split; [exact Hempty|].
  destruct (deleteFolder_only_deletable Scenario.mailbox_world Sample.mailbox
              "trash" eq_refl Hempty)
    as (b & w1 & Hrun & _ & Hfalse & _).
  exists b, w1. split; [exact Hrun | exact Hfalse].
Defined.

Lemma createFolder_then_deleteFolder_witness :
  createFolder "work" "Work" Scenario.mailbox_world =
    Returned (Some {| Folder.id := "work"; Folder.name := "Work";
                      Folder.unreadCount := 0 |})
             (outcome_world (createFolder "work" "Work" Scenario.mailbox_world)) /\
  deleteFolder "work"
    (outcome_world (createFolder "work" "Work" Scenario.mailbox_world))
  = Returned true Scenario.mailbox_world.
Proof.
  split; [reflexivity|].
  exact (createFolder_then_deleteFolder Scenario.mailbox_world _ Sample.mailbox
           "work" "Work" _ eq_refl eq_refl).
Defined.

Lemma sample_folders_unique : unique_folders (folders Sample.mailbox).
Proof. split; distinct. Qed.

Lemma archive_folders_unique : unique_folders (folders Scenario.archive).
Proof. split; distinct. Qed.

Lemma updateFolder_renames_witness :
  unique_folders (folders Sample.mailbox) /\
  updateFolder "work" "Work" Scenario.mailbox_world
    = Returned None Scenario.mailbox_world /\
  (exists w1 t1,
     updateFolder "trash" "Bin" Scenario.mailbox_world =
       Returned (Some {| FolderName.id := "trash"; FolderName.name := "Bin" |}) w1 /\
     storage w1 = MailboxDB t1 /\ emails t1 = emails Sample.mailbox) /\
  updateFolder "trash" "Sent" Scenario.mailbox_world
    = Thrown "UNIQUE constraint failed: folders.name" Scenario.mailbox_world.
Proof.
  pose proof (fun id name =>
    updateFolder_renames Scenario.mailbox_world Sample.mailbox id name eq_refl
      sample_folders_unique) as H.
  split; [exact sample_folders_unique|]. split; [|split].
  - exact (proj1 (H "work" "Work") eq_refl).
  - destruct (proj1 (proj2 (H "trash" "Bin")) (Sample.folder_row "trash" "Trash" 0))
      as (w1 & t1 & Hrun & Hs1 & He & _).
    + listed.
    + reflexivity.
    + intros g [<- | [<- | [<- | [<- | []]]]] _; discriminate.
    + exists w1, t1. split; [exact Hrun|]. split; [exact Hs1 | exact He].
  - apply (proj2 (proj2 (H "trash" "Sent"))
             (Sample.folder_row "trash" "Trash" 0)
             (Sample.folder_row "sent" "Sent" 0)).
    + listed.
    + reflexivity.
    + listed.
    + discriminate.
    + reflexivity.
Defined.

Lemma searchEmails_finds_containing_witness :
  In (Sample.email_row "e2" "2024-01-03" "inbox") (emails Sample.mailbox) /\
  exists found,
    searchEmails (engine := Scenario.sqlite) (query_only "bje")
      Scenario.mailbox_world = Returned found Scenario.mailbox_world /\
    In (summary_of_row (Sample.email_row "e2" "2024-01-03" "inbox")) found.
Proof.
  assert (Hin : In (Sample.email_row "e2" "2024-01-03" "inbox")
                   (emails Sample.mailbox)) by listed.
  split; [exact Hin|].
  exact (searchEmails_finds_containing (engine := Scenario.sqlite)
           Scenario.mailbox_world Sample.mailbox "bje" "Su" "ct" _ eq_refl Hin
           (or_introl eq_refl)).
Defined.

Lemma searchEmails_literal_query_witness :
  literal "SUBJ" = true /\
  exists found,
    searchEmails (engine := Scenario.sqlite) (query_only "SUBJ")
      Scenario.mailbox_world = Returned found Scenario.mailbox_world /\
    In (summary_of_row (Sample.email_row "e2" "2024-01-03" "inbox")) found.
Proof.
  split; [reflexivity|].
  destruct (searchEmails_literal_query (engine := Scenario.sqlite)
              Scenario.mailbox_world Sample.mailbox "SUBJ" eq_refl eq_refl)
    as (found & Hrun & Hiff).
  exists found. split; [exact Hrun|]. apply Hiff.
  exists (Sample.email_row "e2" "2024-01-03" "inbox"), "", "Subj", "ect".
  split; [listed|]. split; [reflexivity|]. split; [reflexivity|].
  left. reflexivity.
Defined.

Lemma searchEmails_query_of_wildcards_witness :
  JS.all_chars (Ascii.eqb "%") "%%" = true /\
  searchEmails (engine := Scenario.sqlite) (query_only "%%")
    Scenario.mailbox_world
  = Returned (map summary_of_row (emails Sample.mailbox)) Scenario.mailbox_world.
Proof.
  split; [reflexivity|].
  exact (proj1 (searchEmails_query_of_wildcards (engine := Scenario.sqlite)
                  Scenario.mailbox_world Sample.mailbox "%%" eq_refl eq_refl)).
Defined.

Lemma searchEmails_conditions_narrow_witness :
  storage Scenario.mailbox_world = MailboxDB Sample.mailbox /\
  exists found wide,
    searchEmails (engine := Scenario.sqlite)
      {| SearchOptions.query := "Subject"; SearchOptions.folder := Some "Inbox";
         SearchOptions.from := Some "a@"; SearchOptions.to := None;
         SearchOptions.date_start := Some "2024-01-02";
         SearchOptions.date_end := None |}
      Scenario.mailbox_world = Returned found Scenario.mailbox_world /\
    searchEmails (engine := Scenario.sqlite) (query_only "Subject")
      Scenario.mailbox_world = Returned wide Scenario.mailbox_world /\
    incl found wide.
Proof.
  split; [reflexivity|].
  exact (searchEmails_conditions_narrow (engine := Scenario.sqlite)
           Scenario.mailbox_world Sample.mailbox _ eq_refl).
Defined.

Lemma renamed_folder_takes_over_key_witness :
  unique_folders (folders Scenario.archive) /\
  exists w1 w2 created,
    updateFolder "archive" "work" Scenario.archive_world =
      Returned (Some {| FolderName.id := "archive"; FolderName.name := "work" |})
               w1 /\
    createFolder "work" "Work" w1 = Returned (Some created) w2 /\
    Folder.id created = "work" /\
    folder_lookup "work" w2 =
      Returned (Some (renamed "work" (Sample.folder_row "archive" "Archive" 1))) w2.
Proof.
  split; [exact archive_folders_unique|].
  destruct (renamed_folder_takes_over_key (engine := Scenario.sqlite)
              Scenario.archive_world Scenario.archive "archive" "work" "Work"
              (Sample.folder_row "archive" "Archive" 1)
              eq_refl archive_folders_unique)
    as (w1 & w2 & created & Hrename & Hcreate & Hid & Hlook & _).
  - listed.
  - reflexivity.
  - discriminate.
  - reflexivity.
  - reflexivity.
  - reflexivity.
  - discriminate.
  - exists w1, w2, created. auto.
Defined.

Lemma PostMoveEmail_reports_moved_witness :
  has_key Emails.id "e9" (emails Sample.mailbox) = false /\
  Router.PostMoveEmail true "e9" "trash" Scenario.mailbox_world
  = Returned (Router.Json 200 "moved") Scenario.mailbox_world.
Proof.
  split; [reflexivity|].
  exact (proj2 (PostMoveEmail_reports_moved_for_unknown_email
                  Scenario.mailbox_world Sample.mailbox "e9" "trash"
                  eq_refl eq_refl eq_refl)).
Defined.


Lemma getSessionToken_reads_cookie_witness :
  Router.no_semicolon Scenario.token = true /\
  Router.getSessionToken None
    (Some ("session=" ++ Scenario.token ++ "; theme=dark")%string)
  = Some Scenario.token.
Proof.
  split; [reflexivity|].
  apply (proj1 (proj2 getSessionToken_reads_bearer_then_cookie)).
  - discriminate.
  - reflexivity.
  - right. eexists. reflexivity.
Defined.

Lemma needsAuth_by_route_witness :
  String.prefix "/api/" "/api/v1/auth/login" = true /\
  Router.needsAuth None "/api/v1/auth/login" = false /\
  Router.needsAuth (Some false) "/api/v1/auth/me" = true /\
  Router.needsAuth (Some false) "/api/v1/mailboxes" = false /\
  Router.needsAuth None "/api/v1/mailboxes" = true.
Proof.
  split; [reflexivity|].
  split; [exact (proj2 (needsAuth_by_route None "/api/v1/auth/login" eq_refl))|].
  split; [exact (proj2 (needsAuth_by_route (Some false) "/api/v1/auth/me" eq_refl))|].
  split; [exact (proj2 (needsAuth_by_route (Some false) "/api/v1/mailboxes" eq_refl))|].
  exact (proj2 (needsAuth_by_route None "/api/v1/mailboxes" eq_refl)).
Defined.





Lemma authorize_only_with_valid_session_witness :
  storage Sample.logged_in = AuthDB Sample.logged_in_tables /\
  exists admission w1,
    Router.authorize (platform := Sample.platform) None "/api/v1/mailboxes" None None
      Sample.logged_in = Returned admission w1 /\
    admission = Router.Unauthorized.
Proof.
  split; [reflexivity|].
  destruct (authorize_only_with_valid_session (platform := Sample.platform)
              Sample.logged_in Sample.logged_in_tables None "/api/v1/mailboxes"
              None None eq_refl)
    as (w0 & admission & w1 & _ & Hpass & _ & Hneeds).
  exists admission, w1. split; [exact Hpass|].
  exact (proj2 (Hneeds eq_refl) eq_refl).
Defined.

Lemma admin_flag_is_read_at_validation_witness :
  validateSession Scenario.token Sample.logged_in
    = Returned (Some Scenario.session) Sample.logged_in /\
  exists w1,
    updateUserAdminStatus "030a1118-1f26-4d34-bb42-4950575e656c" false
      Sample.logged_in = Returned tt w1 /\
    validateSession Scenario.token w1 =
      Returned (Some {| Session.id := Scenario.token;
                        Session.userId := "030a1118-1f26-4d34-bb42-4950575e656c";
                        Session.email := "a@x.com";
                        Session.isAdmin := false;
                        Session.expiresAt := 2592006000 |}) w1.
Proof.
  split; [reflexivity|].
  destruct (admin_flag_is_read_at_validation (platform := Sample.platform)
              Sample.logged_in Sample.logged_in_tables
              Scenario.token Scenario.session false eq_refl eq_refl)
    as (w1 & Hupdate & Hvalid & _).
  exists w1. split; [exact Hupdate | exact Hvalid].
Defined.

Lemma password_change_keeps_sessions_witness :
  reachable (platform := Sample.platform) Sample.logged_in /\
  exists w1,
    updateUserPassword (platform := Sample.platform)
      "030a1118-1f26-4d34-bb42-4950575e656c" "another one" Sample.logged_in
    = Returned tt w1 /\
    validateSession Scenario.token w1 = Returned (Some Scenario.session) w1.
Proof.
  split; [exact sample_logged_in_reachable|].
  destruct (password_change_keeps_sessions (platform := Sample.platform)
              Sample.logged_in Sample.logged_in_tables
              "030a1118-1f26-4d34-bb42-4950575e656c" "another one"
              sample_logged_in_reachable eq_refl)
    as (w1 & t1 & Hupdate & _ & Hkept & _).
  exists w1. split; [exact Hupdate|]. apply Hkept. reflexivity.
Defined.

Lemma register_then_lookup_witness :
  register (platform := Sample.platform) "a@x.com" "password123" true
    (fresh_auth 5000 Sample.random_octet)
  = Returned Scenario.first_user Scenario.registered /\
  getUserByEmail "a@x.com" Scenario.registered
  = Returned (Some Scenario.first_user) Scenario.registered /\
  isAdmin "030a1118-1f26-4d34-bb42-4950575e656c" Scenario.registered
  = Returned true Scenario.registered.
Proof.
  destruct (register_then_lookup (platform := Sample.platform)
              (fresh_auth 5000 Sample.random_octet) Scenario.registered
              {| users := []; sessions := []; user_mailboxes := [] |}
              "a@x.com" "password123" true Scenario.first_user eq_refl
              scenario_register_run)
    as (Hlookup & Hadmin & _).
  split; [exact scenario_register_run|]. split; [exact Hlookup | exact Hadmin].
Defined.

Lemma default_admin_logs_in_witness :
  users Sample.empty_auth = [] /\
  exists w1 t1,
    ensureDefaultAdmins (platform := Sample.platform) Scenario.empty_world
    = Returned tt w1 /\
    storage w1 = AuthDB t1 /\
    exists s w3,
      login (platform := Sample.platform) "admin@email.230406.xyz" "admin"
        (with_clock 6000 w1) = Returned (Some s) w3 /\
      Session.isAdmin s = true.
Proof.
  split; [reflexivity|].
  destruct (default_admin_logs_in (platform := Sample.platform)
              Scenario.empty_world Sample.empty_auth eq_refl eq_refl)
    as (w1 & t1 & Hseed & Hs1 & _ & Hlogin).
  exists w1, t1. split; [exact Hseed|]. split; [exact Hs1|].
  destruct (Hlogin (with_clock 6000 w1) eq_refl eq_refl)
    as (s & w3 & Hrun & _ & Hadmin).
  exists s, w3. split; [exact Hrun | exact Hadmin].
Defined.


Lemma slugify_normalises_witness :
  Router.ascii_text " Q3: Reports & Plans! " = true /\
  Router.is_slug (Router.slugify " Q3: Reports & Plans! ") = true /\
  Router.slugify (Router.slugify " Q3: Reports & Plans! ")
  = Router.slugify " Q3: Reports & Plans! " /\
  Router.slugify "q3-reports-plans" = "q3-reports-plans".
Proof.
  split; [reflexivity|].
  destruct (slugify_normalises " Q3: Reports & Plans! " eq_refl)
    as (Hslug & Hagain & _).
  split; [exact Hslug|]. split; [exact Hagain|].
  exact (proj2 (proj2 (slugify_normalises "q3-reports-plans" eq_refl)) eq_refl).
Defined.


Lemma hashPassword_text_determines_salt_witness :
  exists hash w1 w2,
    hashPassword (platform := Sample.platform) "password123"
      Scenario.empty_world = Returned hash w1 /\
    hashPassword (platform := Sample.platform) "password123"
      Scenario.alice_world = Returned hash w2 /\
    next_octets 16 Scenario.empty_world = next_octets 16 Scenario.alice_world.
Proof.
  exists (stored_hash (platform := Sample.platform)
            (next_octets 16 Scenario.empty_world) "password123"),
         (with_drawn 16 Scenario.empty_world),
         (with_drawn 16 Scenario.alice_world).
  split; [reflexivity|]. split; [reflexivity|].
  exact (proj1 (hashPassword_text_determines_salt (platform := Sample.platform)
                  "password123" "password123"
                  (stored_hash (platform := Sample.platform)
                     (next_octets 16 Scenario.empty_world) "password123")
                  Scenario.empty_world (with_drawn 16 Scenario.empty_world)
                  Scenario.alice_world (with_drawn 16 Scenario.alice_world)
                  eq_refl eq_refl)).
Defined.

